(** * Api-Market: the ranking refresh pipeline, embedded and verified

    The repository holds two generations of the same Go program:
    - [src/main.go]            scrapes the ranking page inside every HTTP
                               request and joins it with the price API;
    - [src/unnamed/part_000]   scrapes in a background goroutine every five
                               seconds and serves the stored result.

    Both are embedded below, function by function, under their Go names.
    Go strings are byte strings ([string], a list of 8-bit [ascii]); Go
    maps are [gmap]s read with the zero value on a missing key; a run-time
    panic is an explicit result; the outside world (ranking page, price
    API, file system, image hosts) is an explicit argument. *)

From Stdlib Require Import ZArith List String Ascii Bool Lia.
From Stdlib Require Import DecimalString DecimalPos DecimalN.
From Stdlib Require Import Floats.SpecFloat.
From Equations Require Import Equations.
From stdpp Require Import base option list strings gmap.
Import ListNotations.

Local Open Scope string_scope.
Local Open Scope list_scope.

(** ** Data model *)

(** [type CryptoInfo struct] (main.go:20, part_000:19). *)
Record CryptoInfo : Type := mkCryptoInfo {
  Index : string;
  Image : string;
  Name : string;
  Price : string;
  Change24h : string
}.

(** ** categorizeResults (main.go:143-153, part_000:146-156)

    The two files hold the same function, character for character. *)

(** The Go slice expression [s[i:end]] for [i <= end <= len(s)]. *)
Definition slice {A : Type} (s : list A) (i e : nat) : list A :=
  firstn (e - i) (skipn i s).

(** The [for i := 0; i < len(allResults); i += 10] loop, entered at index
    [i] with the buckets appended so far.  [len] of a Go slice fits in an
    [int], and the loop leaves as soon as [i] reaches it, so indices are
    natural numbers. *)
Equations? categorizeLoop {A : Type} (allResults : list A) (i : nat)
    (groupedResults : list (list A)) : list (list A)
    by wf (length allResults - i) lt :=
  categorizeLoop allResults i groupedResults with lt_dec i (length allResults) := {
    | left _ =>
        let e := i + 10 in
        let e := if Nat.ltb (length allResults) e then length allResults else e in
        categorizeLoop allResults (i + 10) (groupedResults ++ [slice allResults i e]);
    | right _ => groupedResults }.
Proof. lia. Qed.

Definition categorizeResults {A : Type} (allResults : list A) : list (list A) :=
  categorizeLoop allResults 0 [].


(** ** The Go run time: panics and slice indexing *)

(** A run-time panic.  The program has one source of them: an index
    expression [s[k]] with [k >= len(s)]. *)
Inductive RuntimePanic : Type :=
  | IndexOutOfRange (index len : nat).

(** The outcome of running Go code that may panic. *)
Inductive Exec (A : Type) : Type :=
  | Returned (a : A)
  | Panicked (p : RuntimePanic).
Arguments Returned {A} a.
Arguments Panicked {A} p.

Definition isPanicked {A : Type} (m : Exec A) : bool :=
  match m with
  | Panicked _ => true
  | Returned _ => false
  end.

#[global] Instance Exec_ret : MRet Exec := fun A a => Returned a.
#[global] Instance Exec_bind : MBind Exec := fun A B k m =>
  match m with
  | Returned a => k a
  | Panicked p => Panicked p
  end.

(** The index expression [s[k]]: bounds-checked by the run time. *)
Definition indexSlice {A : Type} (s : list A) (k : nat) : Exec A :=
  match nth_error s k with
  | Some x => Returned x
  | None => Panicked (IndexOutOfRange k (length s))
  end.

(** The composite literal shared by main.go:131-136 and part_000:137-142:
<<
    map[string][]CryptoInfo{
        "Populares":    groupedResults[0],
        "Ganadores":    groupedResults[1],
        "Perdedores":   groupedResults[2],
        "MayorVolumen": groupedResults[3],
    }
>>
    The compiler evaluates the four index expressions in source order;
    none is guarded by a length test. *)
Definition categorizedLiteral (groupedResults : list (list CryptoInfo))
    : Exec (gmap string (list CryptoInfo)) :=
  g0 ← indexSlice groupedResults 0;
  g1 ← indexSlice groupedResults 1;
  g2 ← indexSlice groupedResults 2;
  g3 ← indexSlice groupedResults 3;
  mret (<["MayorVolumen" := g3]> (<["Perdedores" := g2]>
           (<["Ganadores" := g1]> (<["Populares" := g0]> ∅)))).

(** Reading a Go [map[string]string]: a missing key gives the zero value,
    the empty string. *)
Definition mapIndex (m : gmap string string) (k : string) : string :=
  default "" (m !! k).


(** ** Go strings *)

Definition byteOf (c : ascii) : N := N_of_ascii c.

Fixpoint mapBytes (f : ascii -> ascii) (s : string) : string :=
  match s with
  | EmptyString => EmptyString
  | String c r => String (f c) (mapBytes f r)
  end.

Fixpoint allBytes (p : ascii -> bool) (s : string) : bool :=
  match s with
  | EmptyString => true
  | String c r => p c && allBytes p r
  end.

Fixpoint anyByte (p : ascii -> bool) (s : string) : bool :=
  match s with
  | EmptyString => false
  | String c r => p c || anyByte p r
  end.

(** [s != ""] *)
Definition nonEmpty (s : string) : bool :=
  match s with
  | EmptyString => false
  | String _ _ => true
  end.

(** [c < utf8.RuneSelf] *)
Definition belowRuneSelf (c : ascii) : bool := (byteOf c <? 128)%N.

(** ['a' <= c && c <= 'z'] *)
Definition isLowerLetter (c : ascii) : bool :=
  (97 <=? byteOf c)%N && (byteOf c <=? 122)%N.

(** [c -= 'a' - 'A'] on a lower-case letter, other bytes unchanged. *)
Definition upperByte (c : ascii) : ascii :=
  if isLowerLetter c then ascii_of_N (byteOf c - 32) else c.

(** The Unicode case tables of Go's [unicode] package are not part of the
    repository.  [strings.ToUpper] consults them only for a string holding
    a byte [>= 0x80]; that path, [strings.Map(unicode.ToUpper, s)], is a
    parameter of the development. *)
Class UnicodeTables : Type :=
  mapUnicodeToUpper : string -> string.

(** [strings.ToUpper]: an ASCII-only string without lower-case letters is
    returned as it is, an ASCII-only string has its letters [a-z] raised,
    any other string goes through the Unicode tables. *)
Definition ToUpper `{UnicodeTables} (s : string) : string :=
  if allBytes belowRuneSelf s then
    if anyByte isLowerLetter s then mapBytes upperByte s else s
  else mapUnicodeToUpper s.

(** [strings.ReplaceAll(s, " ", "_")]: both strings are one byte long. *)
Definition ReplaceAllSpaces (s : string) : string :=
  mapBytes (fun c => if Ascii.eqb c " " then "_"%char else c) s.

(** ** The outside world *)

(** One [log.Printf] (or [log.Fatal]) site each. *)
Inductive LogMsg : Type :=
  | LogDownloadingImage (url : string)
  | LogCreatingDirectory
  | LogCreatingFile
  | LogWritingImage
  | LogFetchingPrices
  | LogDecodingPriceData
  | LogFetching24hChange
  | LogDecodingChangeData
  | LogParsingChangeValue (change : string)
  | LogRequestFailed
  | LogVisitingURL
  | LogFatalVisit.

(** What the program does to the world and to its shared variables, in
    the order it does it. *)
Inductive Event : Type :=
  | EvHttpGet (url : string)
  | EvLog (m : LogMsg)
  | EvMutexLock
  | EvMutexUnlock
  | EvLoadCategorizedResults
  | EvStoreCategorizedResults.

(** Errors of [os.Stat] other than "no such file". *)
Inductive StatFault : Type :=
  | PermissionDenied
  | NotADirectory
  | InputOutputError.

Inductive OsError : Type :=
  | ErrNotExist
  | ErrFault (f : StatFault).

(** What sits at a path: a file, a directory, or something [os.Stat]
    fails on. *)
Inductive FileNode : Type :=
  | RegularFile (content : string)
  | Directory
  | Unstatable (f : StatFault).

Record World : Type := mkWorld {
  files : gmap string FileNode;
  trace : list Event
}.

Definition emit (e : Event) (w : World) : World :=
  {| files := files w; trace := trace w ++ [e] |}.

Definition writeFile (path content : string) (w : World) : World :=
  {| files := <[path := RegularFile content]> (files w); trace := trace w |}.

(** [os.MkdirAll(path, os.ModePerm)] returning [nil]: a path that held
    nothing holds a directory; what was there is left as it is. *)
Definition mkdirAll (path : string) (w : World) : World :=
  match files w !! path with
  | None => {| files := <[path := Directory]> (files w); trace := trace w |}
  | Some _ => w
  end.

(** One item block of the ranking page, as the selectors of the two
    programs read it: [div.css-1ycllpv], the [src] of the image,
    [div.css-lzd0h4], and (part_000 only) the price and change
    columns. *)
Record Block : Type := mkBlock {
  blockIndex : string;
  blockImgSrc : string;
  blockName : string;
  blockPrice : string;
  blockChange24h : string
}.

(** [collyCollector.Visit(url)]: either the page with its containers
    ([div.rounded-xl.border.border-line.p-m]) and their item blocks
    ([div.css-1qyk0y6]) in document order, or an error. *)
Inductive VisitResult : Type :=
  | VisitOk (containers : list (list Block))
  | VisitErr.

(** [type BinancePriceInfo struct] (main.go:28). *)
Record BinancePriceInfo : Type := mkBinancePriceInfo {
  priceSymbol : string;
  priceValue : string
}.

(** [type BinanceTickerInfo struct] (main.go:33). *)
Record BinanceTickerInfo : Type := mkBinanceTickerInfo {
  tickerSymbol : string;
  tickerPriceChangePercent : string
}.

(** [http.Get] followed by [json.NewDecoder(resp.Body).Decode]. *)
Inductive ApiReply (A : Type) : Type :=
  | GetFailed
  | DecodeFailed
  | Decoded (items : list A).
Arguments GetFailed {A}.
Arguments DecodeFailed {A}.
Arguments Decoded {A} items.

(** What the world answers during one request or refresh cycle. *)
Record Env : Type := mkEnv {
  imageGet : string -> option string;
  mkdirAllFails : bool;
  createFails : string -> bool;
  copyFails : string -> option nat;
  rankingPage : VisitResult;
  priceApi : ApiReply BinancePriceInfo;
  tickerApi : ApiReply BinanceTickerInfo
}.

(** [os.Stat(path)], keeping the error only. *)
Definition osStat (w : World) (path : string) : option OsError :=
  match files w !! path with
  | None => Some ErrNotExist
  | Some (RegularFile _) | Some Directory => None
  | Some (Unstatable f) => Some (ErrFault f)
  end.

(** [os.IsNotExist(err)] *)
Definition osIsNotExist (err : option OsError) : bool :=
  match err with
  | Some ErrNotExist => true
  | _ => false
  end.

(** ** imageExists, downloadImage (main.go:166-201, part_000:169-204) *)

Definition imageExists (w : World) (filename : string) : bool :=
  let err := osStat w ("images/" +:+ filename) in
  negb (osIsNotExist err).

Definition downloadImage (env : Env) (url filename : string) (w : World) : World :=
  let w := emit (EvHttpGet url) w in
  match imageGet env url with
  | None => emit (EvLog (LogDownloadingImage url)) w
  | Some body =>
      if mkdirAllFails env then emit (EvLog LogCreatingDirectory) w
      else
        let w := mkdirAll "images" w in
        let path := "images/" +:+ filename in
        if createFails env path then emit (EvLog LogCreatingFile) w
        else
          match copyFails env path with
          | Some n => emit (EvLog LogWritingImage) (writeFile path (substring 0 n body) w)
          | None => writeFile path body w
          end
  end.

(** ** strconv.ParseFloat and the verb [%.2f]

    [formatChange] calls two functions of the Go standard library.  They
    are embedded after their definitions in [strconv/atof.go],
    [strconv/ftoa.go] and [fmt/format.go].  A [float64] is an IEEE 754
    binary64 value in the Standard Library's representation: sign,
    integer mantissa [m] and exponent [e], standing for [m * 2^e].

    [ParseFloat] returns the float64 nearest to the literal, ties to even.
    The Go code reaches it by several routes (an exact fast path,
    Eisel-Lemire, a multi-precision fallback); the embedding reads the
    literal exactly and rounds once. *)

Definition float64 : Type := spec_float.

Inductive NumError : Type :=
  | ErrSyntax
  | ErrRange.

(** [lower(c)] of atoi.go: [c | ('x' - 'X')]. *)
Definition lower (c : ascii) : ascii := ascii_of_N (N.lor (byteOf c) 32).

Definition isDigit (c : ascii) : bool :=
  (48 <=? byteOf c)%N && (byteOf c <=? 57)%N.

(** ['a' <= lower(c) && lower(c) <= 'f'] *)
Definition isHexLetter (c : ascii) : bool :=
  (97 <=? byteOf (lower c))%N && (byteOf (lower c) <=? 102)%N.

Definition digitValue (c : ascii) : Z := Z.of_N (byteOf c) - 48.

Definition hexLetterValue (c : ascii) : Z := Z.of_N (byteOf (lower c)) - 97 + 10.

(** The case folding of [commonPrefixLenIgnoreCase]: upper-case letters
    only. *)
Definition foldUpper (c : ascii) : ascii :=
  if (65 <=? byteOf c)%N && (byteOf c <=? 90)%N
  then ascii_of_N (byteOf c + 32) else c.

Fixpoint commonPrefixLenIgnoreCase (s prefix : string) : nat :=
  match s, prefix with
  | String c s', String p prefix' =>
      if Ascii.eqb (foldUpper c) p
      then S (commonPrefixLenIgnoreCase s' prefix') else 0%nat
  | _, _ => 0%nat
  end.

(** [special]: the literals [inf], [infinity] (signed or not) and [nan]
    at the head of [s]; the result carries the number of bytes read. *)
Definition specialInfinity (sign : bool) (nsign : nat) (s : string)
    : option (float64 * nat) :=
  let n := commonPrefixLenIgnoreCase s "infinity" in
  let n := if (3 <? n)%nat && (n <? 8)%nat then 3%nat else n in
  if (n =? 3)%nat || (n =? 8)%nat
  then Some (S754_infinity sign, (nsign + n)%nat) else None.

Definition special (s : string) : option (float64 * nat) :=
  match s with
  | EmptyString => None
  | String c rest =>
      if Ascii.eqb c "+" then specialInfinity false 1 rest
      else if Ascii.eqb c "-" then specialInfinity true 1 rest
      else if Ascii.eqb c "i" || Ascii.eqb c "I" then specialInfinity false 0 s
      else if Ascii.eqb c "n" || Ascii.eqb c "N" then
        if (commonPrefixLenIgnoreCase s "nan" =? 3)%nat
        then Some (S754_nan, 3%nat) else None
      else None
  end.

(** The variables of [readFloat]'s digit loop.  [mantissa] keeps every
    digit (Go keeps the first 19 and a [trunc] flag, and re-reads the
    string when the flag matters). *)
Record Digits : Type := mkDigits {
  sawdot : bool;
  sawdigits : bool;
  nd : Z;
  dp : Z;
  mantissa : Z;
  underscores : bool
}.

(** The [loop:] of [readFloat]; returns the variables and the unread
    rest of the string. *)
Fixpoint readDigits (base : Z) (s : string) (st : Digits) : Digits * string :=
  match s with
  | EmptyString => (st, s)
  | String c r =>
      if Ascii.eqb c "_" then
        readDigits base r
          (mkDigits (sawdot st) (sawdigits st) (nd st) (dp st) (mantissa st) true)
      else if Ascii.eqb c "." then
        if sawdot st then (st, s)
        else readDigits base r
          (mkDigits true (sawdigits st) (nd st) (nd st) (mantissa st) (underscores st))
      else if isDigit c then
        if Ascii.eqb c "0" && (nd st =? 0)%Z then
          readDigits base r
            (mkDigits (sawdot st) true (nd st) (dp st - 1) (mantissa st) (underscores st))
        else
          readDigits base r
            (mkDigits (sawdot st) true (nd st + 1) (dp st)
               (mantissa st * base + digitValue c) (underscores st))
      else if (base =? 16)%Z && isHexLetter c then
        readDigits base r
          (mkDigits (sawdot st) true (nd st + 1) (dp st)
             (mantissa st * 16 + hexLetterValue c) (underscores st))
      else (st, s)
  end.

(** The digits of the exponent: [if e < 10000 { e = e*10 + int(s[i]) - '0' }],
    underscores skipped and remembered. *)
Fixpoint readExponentDigits (s : string) (e : Z) (us : bool) : Z * bool * string :=
  match s with
  | EmptyString => (e, us, s)
  | String c r =>
      if Ascii.eqb c "_" then readExponentDigits r e true
      else if isDigit c then
        readExponentDigits r (if (e <? 10000)%Z then e * 10 + digitValue c else e) us
      else (e, us, s)
  end.

(** The optional exponent, which moves the decimal point [dp]; a
    hexadecimal mantissa must have one. *)
Definition readExponent (base : Z) (s : string) (dp : Z)
    : option (Z * bool * string) :=
  let expChar := if (base =? 16)%Z then "p"%char else "e"%char in
  let absent := if (base =? 16)%Z then None else Some (dp, false, s) in
  match s with
  | EmptyString => absent
  | String c r =>
      if Ascii.eqb (lower c) expChar then
        match r with
        | EmptyString => None
        | String c1 r1 =>
            let '(esign, t) :=
              if Ascii.eqb c1 "+" then (1%Z, r1)
              else if Ascii.eqb c1 "-" then ((-1)%Z, r1)
              else (1%Z, r) in
            match t with
            | EmptyString => None
            | String d _ =>
                if isDigit d then
                  let '(e, us, rest) := readExponentDigits t 0 false in
                  Some ((dp + e * esign)%Z, us, rest)
                else None
            end
        end
      else absent
  end.

(** [underscoreOK]: an underscore stands only between digits, or between
    the base prefix and a digit. *)
Inductive Saw : Type := SawStart | SawDigit | SawUnderscore | SawOther.

Fixpoint underscoreLoop (hex : bool) (s : string) (saw : Saw) : bool :=
  match s with
  | EmptyString => match saw with SawUnderscore => false | _ => true end
  | String c r =>
      if isDigit c || (hex && isHexLetter c) then underscoreLoop hex r SawDigit
      else if Ascii.eqb c "_" then
        match saw with
        | SawDigit => underscoreLoop hex r SawUnderscore
        | _ => false
        end
      else
        match saw with
        | SawUnderscore => false
        | _ => underscoreLoop hex r SawOther
        end
  end.

Definition underscoreOK (s : string) : bool :=
  let s :=
    match s with
    | String c r => if Ascii.eqb c "-" || Ascii.eqb c "+" then r else s
    | EmptyString => s
    end in
  match s with
  | String c0 (String c1 r) =>
      if Ascii.eqb c0 "0" &&
         (Ascii.eqb (lower c1) "b" || Ascii.eqb (lower c1) "o" || Ascii.eqb (lower c1) "x")
      then underscoreLoop (Ascii.eqb (lower c1) "x") r SawDigit
      else underscoreLoop false s SawStart
  | _ => underscoreLoop false s SawStart
  end.

(** What [readFloat] hands on when [ok]: the sign, the exact value
    [readMantissa * readBase ^ readExp], and the unread rest. *)
Record ReadFloat : Type := mkReadFloat {
  readNeg : bool;
  readMantissa : Z;
  readBase : Z;
  readExp : Z;
  readRest : string
}.

Definition readFloat (s : string) : option ReadFloat :=
  match s with
  | EmptyString => None
  | String c0 r0 =>
      let '(neg, t) :=
        if Ascii.eqb c0 "+" then (false, r0)
        else if Ascii.eqb c0 "-" then (true, r0)
        else (false, s) in
      let '(base, t) :=
        match t with
        | String z (String x (String y r)) =>
            if Ascii.eqb z "0" && Ascii.eqb (lower x) "x"
            then (16%Z, String y r) else (10%Z, t)
        | _ => (10%Z, t)
        end in
      let '(st, t) := readDigits base t (mkDigits false false 0 0 0 false) in
      if negb (sawdigits st) then None
      else
        let dp := if sawdot st then dp st else nd st in
        let dp := if (base =? 16)%Z then (dp * 4)%Z else dp in
        let ndMant := if (base =? 16)%Z then (nd st * 4)%Z else nd st in
        match readExponent base t dp with
        | None => None
        | Some (dp, us, rest) =>
            let exp := if (mantissa st =? 0)%Z then 0%Z else (dp - ndMant)%Z in
            let read := substring 0 (String.length s - String.length rest) s in
            if (underscores st || us) && negb (underscoreOK read) then None
            else Some (mkReadFloat neg (mantissa st)
                         (if (base =? 16)%Z then 2 else 10) exp rest)
        end
  end.

(** Division rounded to the nearest integer, ties to even. *)
Definition roundHalfEven (n d : Z) : Z :=
  let q := (n / d)%Z in
  let r := (n mod d)%Z in
  if (2 * r <? d)%Z then q
  else if (d <? 2 * r)%Z then (q + 1)%Z
  else if Z.even q then q else (q + 1)%Z.

(** The positive rational [num / den] rounded to binary64: [inl] the
    mantissa and exponent ([0] mantissa on underflow), [inr] on overflow. *)
Definition roundBinary64 (num den : Z) : (Z * Z) + unit :=
  let l := (Z.log2 num - Z.log2 den)%Z in
  let below :=
    if (0 <=? l)%Z then (num <? den * 2 ^ l)%Z else (num * 2 ^ (- l) <? den)%Z in
  let e0 := if below then (l - 1)%Z else l in
  let e := Z.max (e0 - 52) (-1074) in
  let m :=
    if (0 <=? e)%Z then roundHalfEven num (den * 2 ^ e)
    else roundHalfEven (num * 2 ^ (- e)) den in
  let '(m, e) := if (m =? 2 ^ 53)%Z then ((2 ^ 52)%Z, (e + 1)%Z) else (m, e) in
  if (971 <? e)%Z then inr tt else inl (m, e).

(** The float64 of a literal read by [readFloat], and whether it
    overflowed. *)
Definition floatOfLiteral (r : ReadFloat) : float64 * bool :=
  if (readMantissa r =? 0)%Z then (S754_zero (readNeg r), false)
  else
    let '(num, den) :=
      if (0 <=? readExp r)%Z then ((readMantissa r * readBase r ^ readExp r)%Z, 1%Z)
      else (readMantissa r, (readBase r ^ (- readExp r))%Z) in
    match roundBinary64 num den with
    | inr _ => (S754_infinity (readNeg r), true)
    | inl (m, e) =>
        match m with
        | Zpos p => (S754_finite (readNeg r) p e, false)
        | _ => (S754_zero (readNeg r), false)
        end
    end.

(** [strconv.ParseFloat(s, 64)]: the value and the error ([None] is Go's
    [nil]).  The whole string must be read. *)
Definition ParseFloat (s : string) : float64 * option NumError :=
  match special s with
  | Some (v, n) =>
      if (n =? String.length s)%nat then (v, None)
      else (S754_zero false, Some ErrSyntax)
  | None =>
      match readFloat s with
      | None => (S754_zero false, Some ErrSyntax)
      | Some r =>
          if nonEmpty (readRest r) then (S754_zero false, Some ErrSyntax)
          else
            let '(f, ovf) := floatOfLiteral r in
            (f, if ovf then Some ErrRange else None)
      end
  end.

(** The decimal digits of a natural number. *)
Definition formatUint (n : Z) : string :=
  NilZero.string_of_uint (N.to_uint (Z.to_N n)).

Definition digitChar (d : Z) : ascii := ascii_of_N (Z.to_N d + 48).

Definition signString (s : bool) : string := if s then "-" else "".

(** [strconv.FormatFloat(v, 'f', 2, 64)] as [fmt] prints it for [%.2f]:
    the exact value rounded to hundredths, ties to even; the sign of a
    negative number, also of a negative zero; [+Inf], [-Inf] and [NaN]
    for the special values. *)
Definition formatF2 (v : float64) : string :=
  match v with
  | S754_zero s => signString s +:+ "0.00"
  | S754_finite s m e =>
      let h :=
        if (0 <=? e)%Z then (Zpos m * 2 ^ e * 100)%Z
        else roundHalfEven (Zpos m * 100) (2 ^ (- e)) in
      signString s +:+ formatUint (h / 100) +:+ "." +:+
        String (digitChar (h mod 100 / 10)) (String (digitChar (h mod 10)) "")
  | S754_infinity s => if s then "-Inf" else "+Inf"
  | S754_nan => "NaN"
  end.

(** [changeValue > 0] on float64: false for zeros, negatives and NaN. *)
Definition gtZero (v : float64) : bool := SFltb (S754_zero false) v.


(** ** Field assignments [info.F = v] on a [CryptoInfo] *)

Definition setImage (v : string) (info : CryptoInfo) : CryptoInfo :=
  mkCryptoInfo (Index info) v (Name info) (Price info) (Change24h info).

Definition setPrice (v : string) (info : CryptoInfo) : CryptoInfo :=
  mkCryptoInfo (Index info) (Image info) (Name info) v (Change24h info).

Definition setChange24h (v : string) (info : CryptoInfo) : CryptoInfo :=
  mkCryptoInfo (Index info) (Image info) (Name info) (Price info) v.

(** [imageFilename := strings.ReplaceAll(info.Name, " ", "_") + ".jpg"] *)
Definition imageFilenameOf (name : string) : string :=
  ReplaceAllSpaces name +:+ ".jpg".

(** main.go:97-99 and part_000:108-110:
    [if !imageExists(imageFilename) { downloadImage(info.Image, imageFilename) }] *)
Definition ensureImage (env : Env) (url filename : string) (w : World) : World :=
  if negb (imageExists w filename) then downloadImage env url filename w else w.

(** The number of [http.Get] calls in a trace. *)
Definition isHttpGet (e : Event) : bool :=
  match e with
  | EvHttpGet _ => true
  | _ => false
  end.

Definition httpGets (t : list Event) : nat := length (List.filter isHttpGet t).

(** * main.go *)

Module MainGo.

Section WithUnicode.
Context `{UnicodeTables}.

(** What the handler needs of [c *gin.Context]: [c.Request.TLS != nil]
    and [c.Request.Host]. *)
Record Request : Type := mkRequest {
  requestTLS : bool;
  requestHost : string
}.

(** How a call of [handleRequest] ends: [c.JSON(http.StatusOK, ...)], a
    run-time panic inside the handler, or [log.Fatal], which ends the
    process. *)
Inductive HandlerOutcome : Type :=
  | RespondJSON (body : gmap string (list CryptoInfo))
  | HandlerPanic (p : RuntimePanic)
  | ProcessExit.

(** formatChange (main.go:248-258) *)
Definition formatChange (change : string) (w : World) : string * World :=
  let '(changeValue, err) := ParseFloat change in
  match err with
  | Some _ => (change, emit (EvLog (LogParsingChangeValue change)) w)
  | None =>
      if gtZero changeValue
      then ("+" +:+ formatF2 changeValue +:+ "%", w)
      else (formatF2 changeValue +:+ "%", w)
  end.

Definition priceURL : string := "https://api.binance.com/api/v3/ticker/price".
Definition tickerURL : string := "https://api.binance.com/api/v3/ticker/24hr".

(** [for _, item := range priceData { prices[item.Symbol] = item.Price }] *)
Definition fillPrices (priceData : list BinancePriceInfo)
    (prices : gmap string string) : gmap string string :=
  fold_left (fun m item => <[priceSymbol item := priceValue item]> m) priceData prices.

(** [for _, item := range changeData
       { changes[item.Symbol] = formatChange(item.PriceChangePercent) }] *)
Definition fillChanges (changeData : list BinanceTickerInfo)
    (changes : gmap string string) (w : World) : gmap string string * World :=
  fold_left
    (fun (acc : gmap string string * World) item =>
       let '(v, w) := formatChange (tickerPriceChangePercent item) (snd acc) in
       (<[tickerSymbol item := v]> (fst acc), w))
    changeData (changes, w).

(** getPricesAndChanges (main.go:204-245) *)
Definition getPricesAndChanges (env : Env) (w : World)
    : gmap string string * gmap string string * World :=
  let prices : gmap string string := ∅ in
  let changes : gmap string string := ∅ in
  let w := emit (EvHttpGet priceURL) w in
  match priceApi env with
  | GetFailed => (prices, changes, emit (EvLog LogFetchingPrices) w)
  | DecodeFailed => (prices, changes, emit (EvLog LogDecodingPriceData) w)
  | Decoded priceData =>
      let prices := fillPrices priceData prices in
      let w := emit (EvHttpGet tickerURL) w in
      match tickerApi env with
      | GetFailed => (prices, changes, emit (EvLog LogFetching24hChange) w)
      | DecodeFailed => (prices, changes, emit (EvLog LogDecodingChangeData) w)
      | Decoded changeData =>
          let '(changes, w) := fillChanges changeData changes w in
          (prices, changes, w)
      end
  end.

(** The body of the [e.ForEach("div.css-1qyk0y6", ...)] callback
    (main.go:76-113) on one item block. *)
Definition onItem (env : Env) (c : Request) (prices changes : gmap string string)
    (st : World * list CryptoInfo) (div : Block) : World * list CryptoInfo :=
  let '(w, allResults) := st in
  let info := mkCryptoInfo (blockIndex div) (blockImgSrc div) (blockName div) "" "" in
  if nonEmpty (Name info) then
    let symbol := ToUpper (Name info) +:+ "USDT" in
    let info := setPrice (mapIndex prices symbol) info in
    let info := setChange24h (mapIndex changes symbol) info in
    let '(info, w) :=
      if nonEmpty (Image info) then
        let imageFilename := imageFilenameOf (Name info) in
        let w := ensureImage env (Image info) imageFilename w in
        let scheme := if requestTLS c then "https" else "http" in
        (setImage (scheme +:+ "://" +:+ requestHost c +:+ "/images/" +:+ imageFilename) info, w)
      else (info, w) in
    let w := emit EvMutexLock w in
    let allResults := allResults ++ [info] in
    let w := emit EvMutexUnlock w in
    (w, allResults)
  else (w, allResults).

(** [collyCollector.Visit(url)] with the two callbacks registered at
    main.go:75 and main.go:117; the boolean is [err != nil]. *)
Definition visit (env : Env) (c : Request) (prices changes : gmap string string)
    (w : World) : World * list CryptoInfo * bool :=
  match rankingPage env with
  | VisitOk containers =>
      (fold_left (onItem env c prices changes) (concat containers) (w, []), false)
  | VisitErr => (emit (EvLog LogRequestFailed) w, [], true)
  end.

(** handleRequest (main.go:56-140) *)
Definition handleRequest (env : Env) (c : Request) (w : World)
    : World * HandlerOutcome :=
  let '(prices, changes, w) := getPricesAndChanges env w in
  let '(w, allResults, err) := visit env c prices changes w in
  if err then (emit (EvLog LogFatalVisit) w, ProcessExit)
  else
    let groupedResults := categorizeResults allResults in
    match categorizedLiteral groupedResults with
    | Returned categorizedResults => (w, RespondJSON categorizedResults)
    | Panicked p => (w, HandlerPanic p)
    end.

End WithUnicode.

End MainGo.

(** * unnamed/part_000 *)

Module Part000.

(** The package variables [scheme] and [host] (part_000:30-31). *)
Definition scheme : string := "http".
Definition host : string := "localhost:8080".

(** The package variable [categorizedResults] (part_000:28): a map
    reference, [None] for the nil map it holds before the first store. *)
Definition Snapshot : Type := option (gmap string (list CryptoInfo)).

(** The body of the [e.ForEach] callback (part_000:85-119). *)
Definition onItem (env : Env) (st : World * list CryptoInfo) (div : Block)
    : World * list CryptoInfo :=
  let '(w, allResults) := st in
  let info := mkCryptoInfo (blockIndex div) (blockImgSrc div) (blockName div) "" "" in
  if nonEmpty (Name info) then
    let info := setPrice (blockPrice div) info in
    let info := setChange24h (blockChange24h div) info in
    let '(info, w) :=
      if nonEmpty (Image info) then
        let imageFilename := imageFilenameOf (Name info) in
        let w := ensureImage env (Image info) imageFilename w in
        (setImage (scheme +:+ "://" +:+ host +:+ "/images/" +:+ imageFilename) info, w)
      else (info, w) in
    let w := emit EvMutexLock w in
    let allResults := allResults ++ [info] in
    let w := emit EvMutexUnlock w in
    (w, allResults)
  else (w, allResults).

(** [collyCollector.Visit(url)] with the callbacks of part_000:84 and
    part_000:123, followed by [if err != nil { log.Printf(...) }]. *)
Definition visit (env : Env) (w : World) : World * list CryptoInfo :=
  match rankingPage env with
  | VisitOk containers => fold_left (onItem env) (concat containers) (w, [])
  | VisitErr => (emit (EvLog LogVisitingURL) (emit (EvLog LogRequestFailed) w), [])
  end.

(** updateDataFromBinance (part_000:70-143): the world after the call, and
    the new value of [categorizedResults], or the panic that ended the
    call before the assignment. *)
Definition updateDataFromBinance (env : Env) (categorizedResults : Snapshot)
    (w : World) : World * Exec Snapshot :=
  let '(w, allResults) := visit env w in
  let groupedResults := categorizeResults allResults in
  match categorizedLiteral groupedResults with
  | Returned m => (emit EvStoreCategorizedResults w, Returned (Some m))
  | Panicked p => (w, Panicked p)
  end.

(** The process: serving, or ended by a panic no goroutine recovered. *)
Inductive Process : Type :=
  | Running (categorizedResults : Snapshot)
  | Crashed (p : RuntimePanic).

(** updateDataRegularly (part_000:60-68), started by [go] in [main]: the
    first cycles of the endless loop, one [Env] per cycle.  Nothing
    recovers a panic of this goroutine, so it ends the process. *)
Fixpoint updateDataRegularly (cycles : list Env) (categorizedResults : Snapshot)
    (w : World) : World * Process :=
  match cycles with
  | [] => (w, Running categorizedResults)
  | env :: rest =>
      match updateDataFromBinance env categorizedResults w with
      | (w, Returned categorizedResults) => updateDataRegularly rest categorizedResults w
      | (w, Panicked p) => (w, Crashed p)
      end
  end.

(** handleRequest (part_000:55-58): the JSON body is the value read from
    the package variable. *)
Definition handleRequest (categorizedResults : Snapshot) (w : World)
    : World * Snapshot :=
  (emit EvLoadCategorizedResults w, categorizedResults).

(** Accesses to the shared variable made while [mutex] is not held. *)
Fixpoint unguardedAccesses (held : bool) (t : list Event) : nat :=
  match t with
  | [] => 0
  | EvMutexLock :: t => unguardedAccesses true t
  | EvMutexUnlock :: t => unguardedAccesses false t
  | EvLoadCategorizedResults :: t
  | EvStoreCategorizedResults :: t =>
      (if held then 0 else 1) + unguardedAccesses held t
  | _ :: t => unguardedAccesses held t
  end.

(** *** One cycle statement by statement

    To let requests run between the statements of a refresh cycle, the
    cycle is cut where the Go scheduler may cut it: after each run of the
    [ForEach] callback, and before the final assignment. *)

(** Where the refreshing goroutine stands. *)
Inductive Cycle : Type :=
  | Extracting (remaining : list Block) (allResults : list CryptoInfo)
  | Stored
  | Aborted (p : RuntimePanic).

Record Machine : Type := mkMachine {
  shared : Snapshot;
  cycle : Cycle;
  world : World;
  served : list Snapshot
}.

(** The goroutine that takes the next step. *)
Inductive Turn : Type :=
  | Refresher
  | Request.

(** The cycle entered: the page visited, no block processed yet. *)
Definition startCycle (env : Env) (categorizedResults : Snapshot) (w : World)
    : Machine :=
  match rankingPage env with
  | VisitOk containers =>
      mkMachine categorizedResults (Extracting (concat containers) []) w []
  | VisitErr =>
      mkMachine categorizedResults (Extracting [] [])
        (emit (EvLog LogVisitingURL) (emit (EvLog LogRequestFailed) w)) []
  end.

Definition step (env : Env) (m : Machine) (t : Turn) : Machine :=
  match t with
  | Request =>
      let '(w, body) := handleRequest (shared m) (world m) in
      mkMachine (shared m) (cycle m) w (served m ++ [body])
  | Refresher =>
      match cycle m with
      | Extracting (div :: remaining) allResults =>
          let '(w, allResults) := onItem env (world m, allResults) div in
          mkMachine (shared m) (Extracting remaining allResults) w (served m)
      | Extracting [] allResults =>
          match categorizedLiteral (categorizeResults allResults) with
          | Returned cat =>
              mkMachine (Some cat) Stored (emit EvStoreCategorizedResults (world m))
                (served m)
          | Panicked p => mkMachine (shared m) (Aborted p) (world m) (served m)
          end
      | Stored | Aborted _ => m
      end
  end.

Definition run (env : Env) (schedule : list Turn) (m : Machine) : Machine :=
  fold_left (step env) schedule m.

End Part000.

(** * Vocabulary of the statements *)

Definition hasName (div : Block) : bool := nonEmpty (blockName div).

(** The entry part_000 appends for an item block with a name. *)
Definition scrapedEntry (div : Block) : CryptoInfo :=
  mkCryptoInfo
    (blockIndex div)
    (if nonEmpty (blockImgSrc div)
     then Part000.scheme +:+ "://" +:+ Part000.host +:+ "/images/" +:+
          imageFilenameOf (blockName div)
     else blockImgSrc div)
    (blockName div)
    (blockPrice div)
    (blockChange24h div).

(** The blocks of the page a cycle works on. *)
Definition pageBlocks (env : Env) : list Block :=
  match rankingPage env with
  | VisitOk containers => concat containers
  | VisitErr => []
  end.

(** Buckets in which every one but the last holds exactly ten entries. *)
Definition fullButLast {A : Type} (buckets : list (list A)) : Prop :=
  forall k b, buckets !! k = Some b -> S k < length buckets -> length b = 10.

(** The four labels of the map literal, in source order. *)
Definition categoryLabels : list string :=
  ["Populares"; "Ganadores"; "Perdedores"; "MayorVolumen"].

(** The entries of a categorized map, bucket after bucket. *)
Definition snapshotEntries (body : gmap string (list CryptoInfo)) : list CryptoInfo :=
  concat (map (fun label => default [] (body !! label)) categoryLabels).

(** What [downloadImage] leaves behind: a file under the name exactly when
    the fetch, [os.MkdirAll] and [os.Create] all succeeded. *)
Definition downloadCreatesFile (env : Env) (url filename : string) : bool :=
  match imageGet env url with
  | None => false
  | Some _ =>
      negb (mkdirAllFails env) && negb (createFails env ("images/" +:+ filename))
  end.

(** Whether [mutex] is held at the end of a trace. *)
Definition mutexHeldAfter (held : bool) (t : list Event) : bool :=
  fold_left
    (fun h e =>
       match e with
       | EvMutexLock => true
       | EvMutexUnlock => false
       | _ => h
       end) t held.

(** A float64 that is a number: a zero or a finite value. *)
Definition isNumber (v : float64) : bool :=
  match v with
  | S754_zero _ | S754_finite _ _ _ => true
  | S754_infinity _ | S754_nan => false
  end.

(** The sign bit of a number. *)
Definition signBit (v : float64) : bool :=
  match v with
  | S754_zero s | S754_finite s _ _ | S754_infinity s => s
  | S754_nan => false
  end.

(** The trading-pair symbol of a display name (main.go:90). *)
Definition symbolOf `{UnicodeTables} (name : string) : string :=
  ToUpper name +:+ "USDT".

(** The entry main.go appends for an item block with a name. *)
Definition joinedEntry `{UnicodeTables} (c : MainGo.Request)
    (prices changes : gmap string string) (div : Block) : CryptoInfo :=
  mkCryptoInfo
    (blockIndex div)
    (if nonEmpty (blockImgSrc div)
     then (if MainGo.requestTLS c then "https" else "http") +:+ "://" +:+
          MainGo.requestHost c +:+ "/images/" +:+ imageFilenameOf (blockName div)
     else blockImgSrc div)
    (blockName div)
    (mapIndex prices (symbolOf (blockName div)))
    (mapIndex changes (symbolOf (blockName div))).

(** ** Sample worlds *)

(** Tables for evaluating the program on ASCII names, which never reach
    them. *)
Definition noUnicodeTables : UnicodeTables := fun s => s.

Definition emptyWorld : World := mkWorld ∅ [].

(** Item block number [i] of a sample ranking page: a name, no image. *)
Definition sampleBlock (i : nat) : Block :=
  mkBlock (formatUint (Z.of_nat (i + 1))) "" ("C" +:+ formatUint (Z.of_nat i))
    "1.00" "+1.00%".

(** A world whose ranking page holds [n] item blocks in one container,
    whose price API answers with empty lists and whose image hosts are
    unreachable. *)
Definition sampleEnv (n : nat) : Env :=
  mkEnv (fun _ => None) false (fun _ => false) (fun _ => None)
    (VisitOk [map sampleBlock (seq 0 n)]) (Decoded []) (Decoded []).

(** A world in which the ranking page cannot be fetched, whatever else
    it answers. *)
Definition pageDown (env : Env) : Env :=
  mkEnv (imageGet env) (mkdirAllFails env) (createFails env) (copyFails env)
    VisitErr (priceApi env) (tickerApi env).

(** A world in which the price endpoint cannot be fetched while the 24h
    endpoint answers with one ticker. *)
Definition pricesDown : Env :=
  mkEnv (fun _ => None) false (fun _ => false) (fun _ => None)
    (VisitOk []) GetFailed (Decoded [mkBinanceTickerInfo "BTCUSDT" "3.5"]).

Definition sampleRequest : MainGo.Request := MainGo.mkRequest false "localhost:8080".

(** Events that start with the mutex free, take no access to the shared
    map outside it, and leave it free. *)
Definition mutexNeutral (evs : list Event) : Prop :=
  mutexHeldAfter false evs = false /\ Part000.unguardedAccesses false evs = 0.

(** What holds of the machine at every moment of a cycle entered with
    the map [prior]: the shared variable is [prior] until the store and the
    map built from the whole result sequence after it, and every body
    served so far is one of the two. *)
Definition wholeMap (env : Env) (prior body : Part000.Snapshot) : Prop :=
  body = prior \/
  exists cat,
    body = Some cat /\
    categorizedLiteral
      (categorizeResults (map scrapedEntry (List.filter hasName (pageBlocks env)))) =
    Returned cat.

Definition cycleInvariant (env : Env) (prior : Part000.Snapshot)
    (m : Part000.Machine) : Prop :=
  let full := map scrapedEntry (List.filter hasName (pageBlocks env)) in
  match Part000.cycle m with
  | Part000.Extracting remaining allResults =>
      Part000.shared m = prior /\
      allResults ++ map scrapedEntry (List.filter hasName remaining) = full
  | Part000.Stored =>
      exists cat,
        Part000.shared m = Some cat /\
        categorizedLiteral (categorizeResults full) = Returned cat
  | Part000.Aborted p =>
      Part000.shared m = prior /\
      categorizedLiteral (categorizeResults full) = Panicked p
  end
  /\ Forall (wholeMap env prior) (Part000.served m).

(** A rendering with exactly two decimal digits: at least one digit, a
    point, two digits. *)
Definition twoDecimals (s : string) : Prop :=
  exists (whole : string) (d1 d2 : ascii),
    s = whole +:+ "." +:+ String d1 (String d2 "")
    /\ nonEmpty whole = true
    /\ allBytes isDigit whole = true
    /\ isDigit d1 = true
    /\ isDigit d2 = true.

(** The integer a decimal rendering stands for once its point is dropped:
    "12.50" stands for 1250, the hundredths of the number. *)
Fixpoint digitsValue (acc : Z) (s : string) : Z :=
  match s with
  | EmptyString => acc
  | String c r =>
      if Ascii.eqb c "."
      then digitsValue acc r
      else digitsValue (10 * acc + (Z.of_N (byteOf c) - 48)) r
  end.

Definition hundredthsOf (digits : string) : Z := digitsValue 0 digits.

(** No zero stands before another digit: "0.25" and "10.00", not
    "00.25". *)
Definition noLeadingZero (digits : string) : bool :=
  match digits with
  | String c (String c' _) => negb (Ascii.eqb c "0" && isDigit c')
  | _ => true
  end.

(** The exact absolute value of a number, as a fraction: a finite
    binary64 value with mantissa [m] and exponent [e] is [m * 2^e]. *)
Definition magnitude (v : float64) : Z * Z :=
  match v with
  | S754_finite _ m e =>
      if (0 <=? e)%Z then ((Zpos m * 2 ^ e)%Z, 1%Z) else (Zpos m, (2 ^ (- e))%Z)
  | _ => (0%Z, 1%Z)
  end.

(** [h] hundredths is the fraction rounded to the nearest hundredth, a
    fraction halfway between two hundredths going to the even one. *)
Definition nearestHundredths (x : Z * Z) (h : Z) : Prop :=
  (0 <= h)%Z
  /\ (2 * Z.abs (100 * x.1 - h * x.2) <= x.2)%Z
  /\ ((2 * Z.abs (100 * x.1 - h * x.2))%Z = x.2 -> Z.even h = true).

(** The digits [%.2f] prints for the absolute value of a number: two
    decimals, no leading zero, and the value of the number rounded to the
    nearest hundredth. *)
Definition rendersNumber (v : float64) (digits : string) : Prop :=
  twoDecimals digits
  /\ noLeadingZero digits = true
  /\ nearestHundredths (magnitude v) (hundredthsOf digits).

(** The number the digits of a [Decimal.uint] stand for, read after the
    digits that gave [acc]. *)
Fixpoint uintValue (d : Decimal.uint) (acc : Z) : Z :=
  match d with
  | Decimal.Nil => acc
  | Decimal.D0 l => uintValue l (10 * acc + 0)
  | Decimal.D1 l => uintValue l (10 * acc + 1)
  | Decimal.D2 l => uintValue l (10 * acc + 2)
  | Decimal.D3 l => uintValue l (10 * acc + 3)
  | Decimal.D4 l => uintValue l (10 * acc + 4)
  | Decimal.D5 l => uintValue l (10 * acc + 5)
  | Decimal.D6 l => uintValue l (10 * acc + 6)
  | Decimal.D7 l => uintValue l (10 * acc + 7)
  | Decimal.D8 l => uintValue l (10 * acc + 8)
  | Decimal.D9 l => uintValue l (10 * acc + 9)
  end.

(** A world whose image hosts answer, and whose asset directory refuses
    every new file. *)
Definition assetsReadOnly : Env :=
  mkEnv (fun _ => Some "JFIF") false (fun _ => true) (fun _ => None)
    (VisitOk []) (Decoded []) (Decoded []).

(** A world whose image hosts answer every request with the same bytes. *)
Definition imagesUp : Env :=
  mkEnv (fun _ => Some "JFIF") false (fun _ => false) (fun _ => None)
    (VisitOk []) (Decoded []) (Decoded []).


(** ** Vocabulary of the further properties *)

(** The text [formatChange] returns for a percentage; it does not depend
    on the world. *)
Definition renderChange (change : string) : string :=
  (MainGo.formatChange change emptyWorld).1.

(** [strconv.ParseFloat] returns an error for the string. *)
Definition parseFails (change : string) : bool :=
  match (ParseFloat change).2 with
  | Some _ => true
  | None => false
  end.

(** Every image file present in [w] is present in [w']. *)
Definition imagesKept (w w' : World) : Prop :=
  forall filename, imageExists w filename = true -> imageExists w' filename = true.

(** An item block for which the callback resolves an image: it has a name
    and an image address. *)
Definition needsImage (div : Block) : bool :=
  hasName div && nonEmpty (blockImgSrc div).

(** The [http.Get] calls of a trace made while [mutex] is held. *)
Fixpoint fetchesUnderLock (held : bool) (t : list Event) : nat :=
  match t with
  | [] => 0
  | EvMutexLock :: t => fetchesUnderLock true t
  | EvMutexUnlock :: t => fetchesUnderLock false t
  | EvHttpGet _ :: t => (if held then 1 else 0) + fetchesUnderLock held t
  | _ :: t => fetchesUnderLock held t
  end.

Definition isMutexLock (e : Event) : bool :=
  match e with
  | EvMutexLock => true
  | _ => false
  end.

Definition isMutexUnlock (e : Event) : bool :=
  match e with
  | EvMutexUnlock => true
  | _ => false
  end.

(** What a list of events adds to the counts kept of a trace: nothing is
    fetched under the mutex, the mutex ends free, [locks] critical
    sections are entered and left, and at most [fetches] images are
    fetched. *)
Record Tally (evs : list Event) (locks fetches : nat) : Prop := mkTally {
  tallyFree : mutexHeldAfter false evs = false;
  tallyUnder : fetchesUnderLock false evs = 0;
  tallyShared : Part000.unguardedAccesses false evs = 0;
  tallyLocks : length (List.filter isMutexLock evs) = locks;
  tallyUnlocks : length (List.filter isMutexUnlock evs) = locks;
  tallyFetches : httpGets evs <= fetches
}.


(** [c == ' '] *)
Definition isSpace (c : ascii) : bool := Ascii.eqb c " ".

(** The bytes a literal accepted by [strconv.ParseFloat] is made of:
    digits, letters, signs, the point and the underscore. *)
Definition numericByte (c : ascii) : bool :=
  isDigit c
  || ((65 <=? byteOf c)%N && (byteOf c <=? 90)%N)
  || ((97 <=? byteOf c)%N && (byteOf c <=? 122)%N)
  || Ascii.eqb c "+" || Ascii.eqb c "-" || Ascii.eqb c "." || Ascii.eqb c "_".

(** A reader takes a prefix made of numeric bytes and leaves the rest. *)
Definition takesNumeric (s rest : string) : Prop :=
  exists pre, s = pre +:+ rest /\ allBytes numericByte pre = true.


(** ** Sample markets *)

(** A ranking page with one container: a block with a name and an image
    address, and a block without a name. *)
Definition listedBlock : Block :=
  mkBlock "1" "https://bin.bnbstatic.com/btc.png" "Btc" "65000" "+1.00%".

Definition listedPage : VisitResult :=
  VisitOk [[listedBlock; mkBlock "2" "" "" "" ""]].

(** The price endpoint lists "BTCUSDT" twice. *)
Definition listedPrices : list BinancePriceInfo :=
  [mkBinancePriceInfo "BTCUSDT" "1"; mkBinancePriceInfo "ETHUSDT" "2";
   mkBinancePriceInfo "BTCUSDT" "3"].

(** The 24h endpoint lists a percentage that parses and one that does
    not. *)
Definition listedTickers : list BinanceTickerInfo :=
  [mkBinanceTickerInfo "BTCUSDT" "3.5"; mkBinanceTickerInfo "ETHUSDT" "abc"].

(** A world in which the page is [listedPage], the price endpoint answers
    [listedPrices], the 24h endpoint answers [tickers], and the image
    hosts answer every request. *)
Definition marketEnv (tickers : ApiReply BinanceTickerInfo) : Env :=
  mkEnv (fun _ => Some "JFIF") false (fun _ => false) (fun _ => None)
    listedPage (Decoded listedPrices) tickers.

(** The same world with its image hosts unreachable. *)
Definition imagesDown (env : Env) : Env :=
  mkEnv (fun _ => None) (mkdirAllFails env) (createFails env) (copyFails env)
    (rankingPage env) (priceApi env) (tickerApi env).

(** A world in which the image of "Btc" is stored. *)
Definition cachedWorld : World :=
  mkWorld {["images/Btc.jpg" := RegularFile "JFIF"]} [].

(** * Theorems *)

(** ** categorizeResults *)

Section Categorize.
Context {A : Type}.
Implicit Types (allResults : list A) (groupedResults : list (list A)).

Lemma categorizeLoop_step allResults i groupedResults :
  i < length allResults ->
  categorizeLoop allResults i groupedResults =
  categorizeLoop allResults (i + 10)
    (groupedResults ++ [slice allResults i (Nat.min (i + 10) (length allResults))]).
Proof.
  intros Hi. rewrite categorizeLoop_equation_1.
  destruct (lt_dec i (length allResults)) as [Hl|Hn]; [|lia].
  cbn -[Nat.ltb slice]. destruct (Nat.ltb_spec (length allResults) (i + 10)).
  - now rewrite Nat.min_r by lia.
  - now rewrite Nat.min_l by lia.
Qed.

Lemma categorizeLoop_done allResults i groupedResults :
  length allResults <= i ->
  categorizeLoop allResults i groupedResults = groupedResults.
Proof.
  intros Hi. rewrite categorizeLoop_equation_1.
  destruct (lt_dec i (length allResults)); [lia|reflexivity].
Qed.

(** The loop only ever appends to the buckets it was entered with. *)
Lemma categorizeLoop_acc allResults i groupedResults :
  categorizeLoop allResults i groupedResults =
  groupedResults ++ categorizeLoop allResults i [].
Proof.
  remember (length allResults - i) as n eqn:Hn.
  revert i groupedResults Hn.
  induction n as [n IH] using lt_wf_ind. intros i groupedResults Hn.
  destruct (le_lt_dec (length allResults) i) as [Hle|Hlt].
  - rewrite !categorizeLoop_done by assumption. now rewrite app_nil_r.
  - rewrite !(categorizeLoop_step _ i) by assumption.
    rewrite (IH (length allResults - (i + 10))) by lia.
    rewrite (IH (length allResults - (i + 10)) ltac:(lia) (i + 10) ([] ++ _)) by lia.
    now rewrite <- !app_assoc.
Qed.

Lemma categorizeLoop_cons allResults i :
  i < length allResults ->
  categorizeLoop allResults i [] =
  slice allResults i (Nat.min (i + 10) (length allResults))
    :: categorizeLoop allResults (i + 10) [].
Proof.
  intros Hi. rewrite categorizeLoop_step by assumption.
  now rewrite categorizeLoop_acc.
Qed.

Lemma slice_length allResults i e :
  i <= e -> e <= length allResults -> length (slice allResults i e) = e - i.
Proof.
  intros. unfold slice. rewrite length_take, length_drop. lia.
Qed.

Lemma slice_drop allResults i e :
  i <= e -> slice allResults i e ++ drop e allResults = drop i allResults.
Proof.
  intros Hie. unfold slice.
  replace (drop e allResults) with (drop (e - i) (drop i allResults))
    by (rewrite drop_drop; f_equal; lia).
  apply take_drop.
Qed.

Lemma categorizeLoop_spec allResults i :
  let buckets := categorizeLoop allResults i [] in
  length buckets = (length allResults - i + 9) / 10
  /\ fullButLast buckets
  /\ Forall (fun b => 1 <= length b <= 10) buckets
  /\ concat buckets = drop i allResults.
Proof.
  remember (length allResults - i) as n eqn:Hn.
  revert i Hn. induction n as [n IH] using lt_wf_ind. intros i Hn. cbn zeta.
  subst n.
  destruct (le_lt_dec (length allResults) i) as [Hle|Hlt].
  - rewrite categorizeLoop_done by assumption.
    replace (length allResults - i) with 0 by lia.
    split_and!.
    + reflexivity.
    + intros k b Hk. now rewrite lookup_nil in Hk.
    + constructor.
    + cbn. symmetry. now apply drop_ge.
  - rewrite categorizeLoop_cons by assumption.
    destruct (IH (length allResults - (i + 10)) ltac:(lia) (i + 10) eq_refl)
      as (Hlen & Hfull & Hsize & Hcat).
    set (e := Nat.min (i + 10) (length allResults)).
    assert (He : length (slice allResults i e) = e - i)
      by (apply slice_length; unfold e; lia).
    split_and!.
    + cbn [length]. rewrite Hlen. clear - Hlt.
      pose proof (Nat.div_mod_eq (length allResults - (i + 10) + 9) 10).
      pose proof (Nat.div_mod_eq (length allResults - i + 9) 10).
      pose proof (Nat.mod_upper_bound (length allResults - (i + 10) + 9) 10).
      pose proof (Nat.mod_upper_bound (length allResults - i + 9) 10).
      lia.
    + intros k b Hk Hlast. destruct k as [|k]; cbn in Hk.
      * injection Hk as <-. rewrite He.
        cbn [length] in Hlast.
        assert (0 < length (categorizeLoop allResults (i + 10) [])) by lia.
        destruct (le_lt_dec (length allResults) (i + 10)).
        -- rewrite categorizeLoop_done in H by lia. cbn in H. lia.
        -- unfold e. lia.
      * apply (Hfull k b Hk). cbn [length] in Hlast. lia.
    + constructor; [|assumption]. rewrite He. unfold e. lia.
    + cbn [concat]. rewrite Hcat.
      destruct (le_lt_dec (length allResults) (i + 10)).
      * rewrite (drop_ge allResults (i + 10)) by lia.
        rewrite <- (slice_drop allResults i e) by (unfold e; lia).
        f_equal. rewrite drop_ge; [reflexivity|unfold e; lia].
      * replace (i + 10) with e by (unfold e; lia).
        apply slice_drop. unfold e. lia.
Qed.

(** C1.  For every input of N entries, [categorizeResults] returns exactly
    ceil(N/10) buckets, every bucket but the last holds exactly ten
    entries, and the buckets concatenated in order are the input itself:
    same order, nothing duplicated, nothing dropped. *)
Theorem categorizeResults_partition allResults :
  let buckets := categorizeResults allResults in
  length buckets = (length allResults + 9) / 10
  /\ (forall k b, buckets !! k = Some b -> S k < length buckets -> length b = 10)
  /\ concat buckets = allResults.
Proof.
  destruct (categorizeLoop_spec allResults 0) as (Hlen & Hfull & _ & Hcat).
  unfold categorizeResults. cbn zeta. split_and!.
  - rewrite Hlen. now rewrite Nat.sub_0_r.
  - exact Hfull.
  - exact Hcat.
Qed.

End Categorize.

(** ** The categorized map *)

Lemma indexSlice_in_range {A : Type} (s : list A) (k : nat) (x : A) :
  nth_error s k = Some x -> indexSlice s k = Returned x.
Proof. unfold indexSlice. now intros ->. Qed.

Lemma indexSlice_out_of_range {A : Type} (s : list A) (k : nat) :
  length s <= k -> indexSlice s k = Panicked (IndexOutOfRange k (length s)).
Proof.
  unfold indexSlice. intros Hk.
  now rewrite (proj2 (nth_error_None s k) Hk).
Qed.

(** With fewer than four buckets the literal panics at the first bucket
    that is missing. *)
Lemma categorizedLiteral_short (groupedResults : list (list CryptoInfo)) :
  length groupedResults < 4 ->
  categorizedLiteral groupedResults =
  Panicked (IndexOutOfRange (length groupedResults) (length groupedResults)).
Proof.
  destruct groupedResults as [|g0 [|g1 [|g2 [|g3 rest]]]]; cbn [length]; intros Hlen;
    try reflexivity.
  lia.
Qed.

(** With four buckets or more it returns the first four under the fixed
    labels. *)
Lemma categorizedLiteral_four (g0 g1 g2 g3 : list CryptoInfo) rest :
  categorizedLiteral (g0 :: g1 :: g2 :: g3 :: rest) =
  Returned (<["MayorVolumen" := g3]> (<["Perdedores" := g2]>
           (<["Ganadores" := g1]> (<["Populares" := g0]> ∅)))).
Proof. reflexivity. Qed.

Lemma categorizeResults_length {A : Type} (allResults : list A) :
  length (categorizeResults allResults) = (length allResults + 9) / 10.
Proof.
  unfold categorizeResults.
  destruct (categorizeLoop_spec allResults 0) as (Hlen & _).
  rewrite Hlen. now rewrite Nat.sub_0_r.
Qed.

Lemma categorizeResults_concat {A : Type} (allResults : list A) :
  concat (categorizeResults allResults) = allResults.
Proof. apply (categorizeLoop_spec allResults 0). Qed.

Lemma categorizeResults_short {A : Type} (allResults : list A) :
  length allResults < 31 -> length (categorizeResults allResults) < 4.
Proof.
  intros Hlen. rewrite categorizeResults_length.
  apply Nat.Div0.div_lt_upper_bound. lia.
Qed.

(** C2.  For every result sequence with fewer than 31 entries
    [categorizeResults] yields fewer than four buckets, and building the
    categorized map indexes a bucket that is not there: the index is at
    most 3 and not below the number of buckets, nothing guards it, and the
    run-time panic ends the refresh cycle before anything is stored (in
    main.go it ends the handler before anything is sent). *)
Theorem categorized_map_underflow `{UnicodeTables}
    (allResults : list CryptoInfo) :
  length allResults < 31 ->
  let groupedResults := categorizeResults allResults in
  let missing := length groupedResults in
  missing <= 3
  /\ categorizedLiteral groupedResults = Panicked (IndexOutOfRange missing missing)
  /\ (forall env prior w,
        (Part000.visit env w).2 = allResults ->
        Part000.updateDataFromBinance env prior w =
          ((Part000.visit env w).1, Panicked (IndexOutOfRange missing missing)))
  /\ (forall env c w w1 w2 prices changes,
        MainGo.getPricesAndChanges env w = (prices, changes, w1) ->
        MainGo.visit env c prices changes w1 = (w2, allResults, false) ->
        MainGo.handleRequest env c w =
          (w2, MainGo.HandlerPanic (IndexOutOfRange missing missing))).
Proof.
  intros Hlen groupedResults missing.
  pose proof (categorizeResults_short allResults Hlen) as Hshort.
  pose proof (categorizedLiteral_short groupedResults Hshort) as Hpanic.
  fold missing in Hpanic. split_and!.
  - unfold missing, groupedResults. lia.
  - exact Hpanic.
  - intros env prior w Hvisit. unfold Part000.updateDataFromBinance.
    destruct (Part000.visit env w) as [w' results]. cbn in Hvisit. subst results.
    fold groupedResults. now rewrite Hpanic.
  - intros env c w w1 w2 prices changes Hprices Hvisit.
    unfold MainGo.handleRequest. rewrite Hprices, Hvisit.
    fold groupedResults. now rewrite Hpanic.
Qed.

(** ** The image cache *)

Lemma emit_trace e w : trace (emit e w) = trace w ++ [e].
Proof. reflexivity. Qed.

Lemma httpGets_app t1 t2 : httpGets (t1 ++ t2) = httpGets t1 + httpGets t2.
Proof. unfold httpGets. now rewrite List.filter_app, length_app. Qed.

Lemma writeFile_trace path content w : trace (writeFile path content w) = trace w.
Proof. reflexivity. Qed.

Lemma mkdirAll_trace path w : trace (mkdirAll path w) = trace w.
Proof. unfold mkdirAll. now destruct (files w !! path). Qed.

Lemma mkdirAll_other path w p :
  p <> path -> files (mkdirAll path w) !! p = files w !! p.
Proof.
  intros Hp. unfold mkdirAll. destruct (files w !! path); [reflexivity|].
  cbn [files]. now apply lookup_insert_ne.
Qed.

Lemma imageExists_mkdirAll w filename :
  imageExists (mkdirAll "images" w) filename = imageExists w filename.
Proof.
  unfold imageExists, osStat. now rewrite mkdirAll_other by discriminate.
Qed.

Lemma imageExists_emit e w filename :
  imageExists (emit e w) filename = imageExists w filename.
Proof. reflexivity. Qed.

Lemma imageExists_writeFile w filename content :
  imageExists (writeFile ("images/" +:+ filename) content w) filename = true.
Proof.
  unfold imageExists, osStat, writeFile. cbn [files].
  now rewrite lookup_insert_eq.
Qed.

(** C10.  [imageExists] reports a file as present for every outcome of
    [os.Stat] that is not a not-exist error: success, and any other
    failure such as a permission error, count as a cache hit.  The
    download is skipped in those cases (the world is left as it was) and
    attempted exactly when the error is not-exist. *)
Theorem imageExists_unless_not_exist (env : Env) (w : World) (url filename : string) :
  let err := osStat w ("images/" +:+ filename) in
  imageExists w filename = match err with Some ErrNotExist => false | _ => true end
  /\ (err = None -> ensureImage env url filename w = w)
  /\ (forall f, err = Some (ErrFault f) ->
        imageExists w filename = true /\ ensureImage env url filename w = w)
  /\ (err = Some ErrNotExist ->
        ensureImage env url filename w = downloadImage env url filename w)
  /\ (ensureImage env url filename w = w \/
      ensureImage env url filename w = downloadImage env url filename w /\
      err = Some ErrNotExist).
Proof.
  unfold ensureImage, imageExists. cbn zeta.
  destruct (osStat w ("images/" +:+ filename)) as [[|f]|]; cbn; split_and!;
    try reflexivity; try discriminate; auto.
Qed.

(** An example: a path that [os.Stat] cannot reach for lack
    of permission is taken for a cached image. *)
Lemma imageExists_permission_denied (env : Env) (url : string) :
  let w := mkWorld {["images/Bitcoin.jpg" := Unstatable PermissionDenied]} [] in
  imageExists w "Bitcoin.jpg" = true
  /\ ensureImage env url "Bitcoin.jpg" w = w.
Proof. split; reflexivity. Qed.

Lemma downloadImage_gets env url filename w :
  httpGets (trace (downloadImage env url filename w)) = httpGets (trace w) + 1.
Proof.
  unfold downloadImage.
  destruct (imageGet env url); [destruct (mkdirAllFails env)|];
    [| destruct (createFails env _); [|destruct (copyFails env _)] |];
    repeat first [rewrite emit_trace | rewrite writeFile_trace | rewrite mkdirAll_trace
                 | rewrite httpGets_app];
    unfold httpGets; cbn [List.filter isHttpGet length]; lia.
Qed.

Lemma downloadImage_exists env url filename w :
  imageExists w filename = false ->
  imageExists (downloadImage env url filename w) filename =
  downloadCreatesFile env url filename.
Proof.
  intros Hmiss. unfold downloadImage, downloadCreatesFile.
  destruct (imageGet env url) as [body|].
  - destruct (mkdirAllFails env); cbn [negb andb].
    + now rewrite imageExists_emit, imageExists_emit.
    + destruct (createFails env ("images/" +:+ filename)); cbn [negb].
      * now rewrite imageExists_emit, imageExists_mkdirAll, imageExists_emit.
      * destruct (copyFails env ("images/" +:+ filename)).
        -- rewrite imageExists_emit. apply imageExists_writeFile.
        -- apply imageExists_writeFile.
  - now rewrite imageExists_emit, imageExists_emit.
Qed.

Lemma ensureImage_hit env url filename w :
  imageExists w filename = true -> ensureImage env url filename w = w.
Proof. unfold ensureImage. now intros ->. Qed.

Lemma ensureImage_miss env url filename w :
  imageExists w filename = false ->
  ensureImage env url filename w = downloadImage env url filename w.
Proof. unfold ensureImage. now intros ->. Qed.

Lemma ensureImage_gets_le env url filename w :
  httpGets (trace (ensureImage env url filename w)) <= httpGets (trace w) + 1.
Proof.
  unfold ensureImage. destruct (imageExists w filename); cbn [negb].
  - lia.
  - rewrite downloadImage_gets. lia.
Qed.

(** C9, as the code has it.  Two image resolutions for one filename, under
    whatever the world answers each time, perform at most one network
    fetch whenever the first leaves something under that filename (the
    file was there already, or the download got as far as creating it):
    the second call finds it and returns without touching the network or
    the file system.  The first call leaves it exactly when it was there
    before or the fetch, [MkdirAll] and [Create] of the download all
    succeeded; otherwise the second call downloads again. *)
Theorem ensureImage_second_call_hits (env1 env2 : Env) (url1 url2 filename : string)
    (w : World) :
  let w1 := ensureImage env1 url1 filename w in
  let w2 := ensureImage env2 url2 filename w1 in
  imageExists w1 filename =
    (imageExists w filename || downloadCreatesFile env1 url1 filename)
  /\ (imageExists w1 filename = true ->
        w2 = w1 /\ httpGets (trace w2) <= httpGets (trace w) + 1)
  /\ (imageExists w1 filename = false ->
        w2 = downloadImage env2 url2 filename w1 /\
        httpGets (trace w2) = httpGets (trace w) + 2).
Proof.
  cbn zeta. split_and!.
  - unfold ensureImage at 1. destruct (imageExists w filename) eqn:Hw; cbn [negb orb].
    + exact Hw.
    + now apply downloadImage_exists.
  - intros Hhit. rewrite (ensureImage_hit env2 url2 filename _ Hhit).
    split; [reflexivity|apply ensureImage_gets_le].
  - intros Hmiss. rewrite (ensureImage_miss env2 url2 filename _ Hmiss).
    split; [reflexivity|].
    rewrite downloadImage_gets.
    destruct (imageExists w filename) eqn:Hw.
    + rewrite (ensureImage_hit env1 url1 filename w Hw) in Hmiss. congruence.
    + rewrite (ensureImage_miss env1 url1 filename w Hw), downloadImage_gets. lia.
Qed.

(** ** The join of main.go *)

Section Join.
Context `{UnicodeTables}.
Implicit Types (env : Env) (c : MainGo.Request) (prices changes : gmap string string).

(** What one run of the [ForEach] callback appends. *)
Lemma onItem_results env c prices changes w allResults div :
  (MainGo.onItem env c prices changes (w, allResults) div).2 =
  if hasName div then allResults ++ [joinedEntry c prices changes div] else allResults.
Proof.
  unfold MainGo.onItem, hasName, joinedEntry, symbolOf, setPrice, setChange24h.
  cbn [Name Image Index Price Change24h].
  destruct (nonEmpty (blockName div)); [|reflexivity].
  destruct (nonEmpty (blockImgSrc div)); reflexivity.
Qed.

Lemma fold_onItem_results env c prices changes blocks w allResults :
  (fold_left (MainGo.onItem env c prices changes) blocks (w, allResults)).2 =
  allResults ++ map (joinedEntry c prices changes) (List.filter hasName blocks).
Proof.
  revert w allResults. induction blocks as [|div blocks IH]; intros w allResults.
  - cbn. now rewrite app_nil_r.
  - cbn [fold_left List.filter].
    pose proof (onItem_results env c prices changes w allResults div) as Hitem.
    destruct (MainGo.onItem env c prices changes (w, allResults) div) as [w' results].
    cbn [snd] in Hitem. subst results. rewrite IH.
    destruct (hasName div); [|reflexivity].
    cbn [map]. now rewrite <- app_assoc.
Qed.

(** The result sequence of a visit that found the page. *)
Lemma visit_results env c prices changes w containers :
  rankingPage env = VisitOk containers ->
  (MainGo.visit env c prices changes w).1.2 =
  map (joinedEntry c prices changes) (List.filter hasName (concat containers)).
Proof.
  intros Hpage. unfold MainGo.visit. rewrite Hpage. cbn [fst snd].
  now rewrite fold_onItem_results.
Qed.

Lemma visit_failed env c prices changes w :
  rankingPage env = VisitErr ->
  MainGo.visit env c prices changes w = (emit (EvLog LogRequestFailed) w, [], true).
Proof. intros Hpage. unfold MainGo.visit. now rewrite Hpage. Qed.

Lemma mapIndex_empty k : mapIndex ∅ k = "".
Proof. unfold mapIndex. now rewrite lookup_empty. Qed.

Lemma mapIndex_missing (m : gmap string string) k : m !! k = None -> mapIndex m k = "".
Proof. unfold mapIndex. now intros ->. Qed.

Lemma mapIndex_present (m : gmap string string) k v : m !! k = Some v -> mapIndex m k = v.
Proof. unfold mapIndex. now intros ->. Qed.

Lemma ToUpper_Btc : ToUpper "Btc" = "BTC".
Proof. reflexivity. Qed.

(** C6.  Every entry of the result sequence has a non-empty name and, as
    its price, the value of the price map at the key
    [strings.ToUpper(name) + "USDT"] (the empty string when the key is
    absent); one entry is appended for each item block with a name.  With
    the price map {"BTCUSDT": "65000.00"} the block named "Btc" is joined
    to the price "65000.00". *)
Theorem joined_price_is_map_value env c prices changes w :
  Forall (fun info =>
            nonEmpty (Name info) = true /\
            Price info = mapIndex prices (ToUpper (Name info) +:+ "USDT"))
         (MainGo.visit env c prices changes w).1.2
  /\ (forall allResults div,
        nonEmpty (blockName div) = true ->
        exists info,
          (MainGo.onItem env c prices changes (w, allResults) div).2 = allResults ++ [info]
          /\ Name info = blockName div
          /\ Price info = mapIndex prices (ToUpper (blockName div) +:+ "USDT"))
  /\ (forall index img,
        map Price (MainGo.onItem env c {["BTCUSDT" := "65000.00"]} changes (w, [])
                     (mkBlock index img "Btc" "" "")).2 = ["65000.00"]).
Proof.
  split_and!.
  - unfold MainGo.visit. destruct (rankingPage env) as [containers|].
    + cbn [fst snd]. rewrite fold_onItem_results. cbn [app].
      apply List.Forall_forall. intros info Hin.
      apply in_map_iff in Hin as (div & <- & Hdiv).
      apply List.filter_In in Hdiv as [_ Hname].
      split; [exact Hname|reflexivity].
    + constructor.
  - intros allResults div Hname. rewrite onItem_results. unfold hasName. rewrite Hname.
    eexists. split_and!; reflexivity.
  - intros index img. rewrite onItem_results. cbn.
    unfold symbolOf. cbn [blockName]. rewrite ToUpper_Btc.
    now rewrite (mapIndex_present _ _ "65000.00") by apply lookup_singleton_eq.
Qed.

Lemma categorizedLiteral_entries (allResults : list CryptoInfo) body :
  categorizedLiteral (categorizeResults allResults) = Returned body ->
  snapshotEntries body = take 40 allResults.
Proof.
  intros Hbody.
  pose proof (categorizeLoop_spec allResults 0) as (Hlen & Hfull & Hsize & Hcat).
  fold (categorizeResults allResults) in Hlen, Hfull, Hsize, Hcat.
  destruct (categorizeResults allResults) as [|g0 [|g1 [|g2 [|g3 rest]]]];
    try discriminate Hbody.
  rewrite categorizedLiteral_four in Hbody. injection Hbody as <-.
  assert (Hentries :
    snapshotEntries (<["MayorVolumen" := g3]> (<["Perdedores" := g2]>
      (<["Ganadores" := g1]> (<["Populares" := g0]> ∅)))) = g0 ++ g1 ++ g2 ++ g3).
  { unfold snapshotEntries, categoryLabels. cbn [map concat].
    rewrite !lookup_insert.
    repeat first [rewrite decide_True by reflexivity | rewrite decide_False by discriminate].
    cbn [default]. now rewrite app_nil_r. }
  rewrite Hentries. rewrite drop_0 in Hcat. rewrite <- Hcat. cbn [concat].
  assert (H0 : length g0 = 10) by (apply (Hfull 0); [reflexivity|cbn; lia]).
  assert (H1 : length g1 = 10) by (apply (Hfull 1); [reflexivity|cbn; lia]).
  assert (H2 : length g2 = 10) by (apply (Hfull 2); [reflexivity|cbn; lia]).
  rewrite !app_assoc.
  destruct rest as [|g4 rest].
  - cbn [concat]. rewrite app_nil_r. symmetry. apply take_ge.
    pose proof (proj1 (List.Forall_forall _ _) Hsize g3 ltac:(cbn; tauto)) as H3.
    cbn beta in H3. rewrite !length_app. lia.
  - assert (H3 : length g3 = 10) by (apply (Hfull 3); [reflexivity|cbn; lia]).
    rewrite take_app_length'; [reflexivity|].
    rewrite !length_app. lia.
Qed.

(** C7, as the code has it.  When the extractor succeeds, the result
    sequence holds one entry for every item block with a non-empty name,
    in page order, and none for a block without a name.  The price (the
    change) of an entry is the map's value at the entry's symbol, and the
    empty string when the symbol is missing from that map; a missing
    symbol never ends the request.  With both maps empty every entry has
    empty price and change.  A block without a name leaves the world and
    the result sequence as they were.  The response, when the literal does
    not panic, holds the first forty entries of the result sequence. *)
Theorem join_tolerates_missing_prices env c prices changes w containers :
  rankingPage env = VisitOk containers ->
  let named := List.filter hasName (concat containers) in
  let allResults := (MainGo.visit env c prices changes w).1.2 in
  (MainGo.visit env c prices changes w).2 = false
  /\ map Name allResults = map blockName named
  /\ map Index allResults = map blockIndex named
  /\ map Price allResults = map (fun div => mapIndex prices (symbolOf (blockName div))) named
  /\ map Change24h allResults =
       map (fun div => mapIndex changes (symbolOf (blockName div))) named
  /\ (forall info, In info allResults ->
        (prices !! symbolOf (Name info) = None -> Price info = "") /\
        (changes !! symbolOf (Name info) = None -> Change24h info = ""))
  /\ (prices = ∅ -> changes = ∅ ->
        Forall (fun info => Price info = "" /\ Change24h info = "") allResults)
  /\ (forall st div,
        nonEmpty (blockName div) = false ->
        MainGo.onItem env c prices changes st div = st)
  /\ (forall body,
        categorizedLiteral (categorizeResults allResults) = Returned body ->
        snapshotEntries body = take 40 allResults).
Proof.
  intros Hpage named allResults.
  assert (Hall : allResults = map (joinedEntry c prices changes) named)
    by (apply visit_results; exact Hpage).
  split_and!.
  - unfold MainGo.visit. now rewrite Hpage.
  - rewrite Hall, map_map. reflexivity.
  - rewrite Hall, map_map. reflexivity.
  - rewrite Hall, map_map. reflexivity.
  - rewrite Hall, map_map. reflexivity.
  - intros info Hin. rewrite Hall in Hin.
    apply in_map_iff in Hin as (div & <- & _). cbn [joinedEntry Name Price Change24h].
    split; apply mapIndex_missing.
  - intros -> ->. rewrite Hall. apply List.Forall_forall. intros info Hin.
    apply in_map_iff in Hin as (div & <- & _). cbn [joinedEntry Price Change24h].
    now rewrite !mapIndex_empty.
  - intros [w0 results] div Hname. unfold MainGo.onItem. cbn [Name].
    now rewrite Hname.
  - intros body. apply categorizedLiteral_entries.
Qed.

End Join.

(** ** The price source adapter *)

(** The second endpoint failing leaves the prices in place: the
    degradation is partial in this direction. *)
Lemma ticker_failure_keeps_prices (env : Env) (w : World) priceData :
  priceApi env = Decoded priceData ->
  tickerApi env = GetFailed \/ tickerApi env = DecodeFailed ->
  exists w',
    MainGo.getPricesAndChanges env w = (MainGo.fillPrices priceData ∅, ∅, w')
    /\ httpGets (trace w') = httpGets (trace w) + 2.
Proof.
  intros Hprice Hticker. unfold MainGo.getPricesAndChanges. rewrite Hprice.
  destruct Hticker as [-> | ->]; eexists; (split; [reflexivity|]);
    rewrite !emit_trace, !httpGets_app; cbn; lia.
Qed.

(** C8 on the code.  When the price endpoint fails (the fetch or the
    decoding), [getPricesAndChanges] returns at once with both maps empty:
    the 24h endpoint is not fetched, whatever it would have answered, so
    the changes are never populated while the prices are empty.  The only
    [http.Get] of the call is the one to the price endpoint. *)
Theorem price_failure_empties_both_maps
    (images : string -> option string) (mkdir : bool) (create : string -> bool)
    (copy : string -> option nat) (page : VisitResult)
    (ticker : ApiReply BinanceTickerInfo) (w : World) :
  MainGo.getPricesAndChanges (mkEnv images mkdir create copy page GetFailed ticker) w =
    (∅, ∅, emit (EvLog LogFetchingPrices) (emit (EvHttpGet MainGo.priceURL) w))
  /\ MainGo.getPricesAndChanges (mkEnv images mkdir create copy page DecodeFailed ticker) w =
    (∅, ∅, emit (EvLog LogDecodingPriceData) (emit (EvHttpGet MainGo.priceURL) w))
  /\ MainGo.getPricesAndChanges pricesDown emptyWorld =
    (∅, ∅, mkWorld ∅ [EvHttpGet MainGo.priceURL; EvLog LogFetchingPrices]).
Proof. split_and!; reflexivity. Qed.

(** ** The refresh cycle of part_000 *)

Lemma Part000_visit_failed (env : Env) (w : World) :
  Part000.visit (pageDown env) w =
  (emit (EvLog LogVisitingURL) (emit (EvLog LogRequestFailed) w), []).
Proof. reflexivity. Qed.

(** C4 on the code.  When the ranking page cannot be fetched or parsed,
    the error is logged and no entry is extracted; [categorizeResults]
    then returns no bucket, [groupedResults[0]] panics, and the panic, in
    the goroutine started by [main], ends the process: the later cycles do
    not run and no snapshot is served any more.  In main.go the same
    failure reaches [log.Fatal], which exits the process. *)
Theorem page_failure_ends_process `{UnicodeTables} (env : Env) (later : list Env)
    (prior : Part000.Snapshot) (c : MainGo.Request) (w : World) :
  Part000.visit (pageDown env) w =
    (emit (EvLog LogVisitingURL) (emit (EvLog LogRequestFailed) w), [])
  /\ Part000.updateDataFromBinance (pageDown env) prior w =
    (emit (EvLog LogVisitingURL) (emit (EvLog LogRequestFailed) w),
     Panicked (IndexOutOfRange 0 0))
  /\ Part000.updateDataRegularly (pageDown env :: later) prior w =
    (emit (EvLog LogVisitingURL) (emit (EvLog LogRequestFailed) w),
     Part000.Crashed (IndexOutOfRange 0 0))
  /\ (MainGo.handleRequest (pageDown env) c w).2 = MainGo.ProcessExit.
Proof.
  split_and!; try reflexivity.
  unfold MainGo.handleRequest.
  destruct (MainGo.getPricesAndChanges (pageDown env) w) as [[prices changes] w1].
  reflexivity.
Qed.

(** *** The mutex and the shared map *)

Lemma mutexHeldAfter_app held t1 t2 :
  mutexHeldAfter held (t1 ++ t2) = mutexHeldAfter (mutexHeldAfter held t1) t2.
Proof. unfold mutexHeldAfter. apply fold_left_app. Qed.

Lemma unguardedAccesses_app held t1 t2 :
  Part000.unguardedAccesses held (t1 ++ t2) =
  Part000.unguardedAccesses held t1 +
  Part000.unguardedAccesses (mutexHeldAfter held t1) t2.
Proof.
  revert held. induction t1 as [|e t1 IH]; intros held; [reflexivity|].
  destruct e; cbn [app Part000.unguardedAccesses]; rewrite IH;
    unfold mutexHeldAfter; cbn [fold_left]; lia.
Qed.

Lemma mutexNeutral_nil : mutexNeutral [].
Proof. split; reflexivity. Qed.

Lemma mutexNeutral_app evs1 evs2 :
  mutexNeutral evs1 -> mutexNeutral evs2 -> mutexNeutral (evs1 ++ evs2).
Proof.
  intros [Hm1 Hu1] [Hm2 Hu2]. split.
  - now rewrite mutexHeldAfter_app, Hm1.
  - rewrite unguardedAccesses_app, Hm1, Hu1, Hu2. reflexivity.
Qed.

Lemma downloadImage_neutral env url filename w :
  exists evs, trace (downloadImage env url filename w) = trace w ++ evs /\ mutexNeutral evs.
Proof.
  unfold downloadImage.
  destruct (imageGet env url); [destruct (mkdirAllFails env)|];
    [| destruct (createFails env _); [|destruct (copyFails env _)] |];
    repeat first [rewrite emit_trace | rewrite writeFile_trace | rewrite mkdirAll_trace];
    rewrite <- ?app_assoc; eexists; (split; [reflexivity|]); split; reflexivity.
Qed.

Lemma ensureImage_neutral env url filename w :
  exists evs, trace (ensureImage env url filename w) = trace w ++ evs /\ mutexNeutral evs.
Proof.
  unfold ensureImage. destruct (imageExists w filename); cbn [negb].
  - exists []. split; [now rewrite app_nil_r|apply mutexNeutral_nil].
  - apply downloadImage_neutral.
Qed.

Lemma Part000_onItem_neutral env w allResults div :
  exists evs,
    trace (Part000.onItem env (w, allResults) div).1 = trace w ++ evs /\ mutexNeutral evs.
Proof.
  unfold Part000.onItem, setPrice, setChange24h. cbn [Name Image].
  destruct (nonEmpty (blockName div)).
  - destruct (nonEmpty (blockImgSrc div)); cbn [fst].
    + destruct (ensureImage_neutral env (blockImgSrc div)
                  (imageFilenameOf (blockName div)) w) as (evs & Hevs & Hneutral).
      exists (evs ++ [EvMutexLock; EvMutexUnlock]). split.
      * rewrite !emit_trace, Hevs. now rewrite <- !app_assoc.
      * apply mutexNeutral_app; [exact Hneutral|split; reflexivity].
    + exists [EvMutexLock; EvMutexUnlock]. split.
      * rewrite !emit_trace. now rewrite <- !app_assoc.
      * split; reflexivity.
  - exists []. split; [now rewrite app_nil_r|apply mutexNeutral_nil].
Qed.

Lemma Part000_fold_neutral env blocks w allResults :
  exists evs,
    trace (fold_left (Part000.onItem env) blocks (w, allResults)).1 = trace w ++ evs
    /\ mutexNeutral evs.
Proof.
  revert w allResults. induction blocks as [|div blocks IH]; intros w allResults.
  - exists []. split; [now rewrite app_nil_r|apply mutexNeutral_nil].
  - cbn [fold_left].
    destruct (Part000_onItem_neutral env w allResults div) as (evs1 & H1 & Hn1).
    destruct (Part000.onItem env (w, allResults) div) as [w1 results]. cbn [fst] in H1.
    destruct (IH w1 results) as (evs2 & H2 & Hn2).
    exists (evs1 ++ evs2). split.
    + now rewrite H2, H1, app_assoc.
    + now apply mutexNeutral_app.
Qed.

Lemma Part000_visit_neutral env w :
  exists evs, trace (Part000.visit env w).1 = trace w ++ evs /\ mutexNeutral evs.
Proof.
  unfold Part000.visit. destruct (rankingPage env) as [containers|].
  - apply Part000_fold_neutral.
  - eexists. split; [cbn [fst]; rewrite !emit_trace, <- app_assoc; reflexivity|].
    split; reflexivity.
Qed.

(** Whenever a refresh cycle completes from a state with the mutex free,
    its one store to [categorizedResults] is made with the mutex free. *)
Lemma update_store_unguarded env prior w w1 m :
  mutexHeldAfter false (trace w) = false ->
  Part000.updateDataFromBinance env prior w = (w1, Returned m) ->
  mutexHeldAfter false (trace w1) = false
  /\ Part000.unguardedAccesses false (trace w1) =
     Part000.unguardedAccesses false (trace w) + 1.
Proof.
  intros Hfree. unfold Part000.updateDataFromBinance.
  destruct (Part000_visit_neutral env w) as (evs & Hevs & Hm & Hu).
  destruct (Part000.visit env w) as [wv allResults]. cbn [fst] in Hevs.
  destruct (categorizedLiteral (categorizeResults allResults)); [|discriminate].
  intros [= <- _]. rewrite emit_trace, Hevs. split.
  - now rewrite !mutexHeldAfter_app, Hfree, Hm.
  - rewrite !unguardedAccesses_app, !mutexHeldAfter_app, Hfree, Hm, Hu. cbn. lia.
Qed.

(** So is every load of it by [handleRequest]. *)
Lemma handleRequest_load_unguarded categorizedResults w :
  mutexHeldAfter false (trace w) = false ->
  Part000.unguardedAccesses false (trace (Part000.handleRequest categorizedResults w).1) =
  Part000.unguardedAccesses false (trace w) + 1.
Proof.
  intros Hfree. cbn [Part000.handleRequest fst]. rewrite emit_trace.
  rewrite unguardedAccesses_app, Hfree. cbn. lia.
Qed.

(** *** Requests between the statements of a cycle *)

Lemma Part000_onItem_results env w allResults div :
  (Part000.onItem env (w, allResults) div).2 =
  if hasName div then allResults ++ [scrapedEntry div] else allResults.
Proof.
  unfold Part000.onItem, hasName, scrapedEntry, setPrice, setChange24h.
  cbn [Name Image Index Price Change24h].
  destruct (nonEmpty (blockName div)); [|reflexivity].
  destruct (nonEmpty (blockImgSrc div)); reflexivity.
Qed.

Lemma Part000_fold_results env blocks w allResults :
  (fold_left (Part000.onItem env) blocks (w, allResults)).2 =
  allResults ++ map scrapedEntry (List.filter hasName blocks).
Proof.
  revert w allResults. induction blocks as [|div blocks IH]; intros w allResults.
  - cbn. now rewrite app_nil_r.
  - cbn [fold_left List.filter].
    pose proof (Part000_onItem_results env w allResults div) as Hitem.
    destruct (Part000.onItem env (w, allResults) div) as [w' results].
    cbn [snd] in Hitem. subst results. rewrite IH.
    destruct (hasName div); [|reflexivity].
    cbn [map]. now rewrite <- app_assoc.
Qed.

Lemma Part000_visit_results env w :
  (Part000.visit env w).2 = map scrapedEntry (List.filter hasName (pageBlocks env)).
Proof.
  unfold Part000.visit, pageBlocks. destruct (rankingPage env) as [containers|].
  - now rewrite Part000_fold_results.
  - reflexivity.
Qed.

(** The steps of the refresher alone are the function
    [updateDataFromBinance]. *)
Lemma run_refresher_extracting env remaining allResults prior w :
  Part000.run env (repeat Part000.Refresher (S (length remaining)))
    (Part000.mkMachine prior (Part000.Extracting remaining allResults) w []) =
  let '(w1, results) := fold_left (Part000.onItem env) remaining (w, allResults) in
  match categorizedLiteral (categorizeResults results) with
  | Returned cat =>
      Part000.mkMachine (Some cat) Part000.Stored (emit EvStoreCategorizedResults w1) []
  | Panicked p => Part000.mkMachine prior (Part000.Aborted p) w1 []
  end.
Proof.
  revert allResults w. induction remaining as [|div remaining IH]; intros allResults w.
  - cbn. now destruct (categorizedLiteral (categorizeResults allResults)).
  - cbn [length repeat Part000.run fold_left]. cbn [Part000.step Part000.cycle].
    cbn [Part000.world Part000.shared Part000.served].
    destruct (Part000.onItem env (w, allResults) div) as [w' results].
    apply IH.
Qed.

Lemma run_refresher_alone env prior w :
  Part000.run env (repeat Part000.Refresher (S (length (pageBlocks env))))
    (Part000.startCycle env prior w) =
  match Part000.updateDataFromBinance env prior w with
  | (w1, Returned categorizedResults) =>
      Part000.mkMachine categorizedResults Part000.Stored w1 []
  | (w1, Panicked p) => Part000.mkMachine prior (Part000.Aborted p) w1 []
  end.
Proof.
  unfold Part000.startCycle, Part000.updateDataFromBinance, Part000.visit, pageBlocks.
  destruct (rankingPage env) as [containers|].
  - rewrite run_refresher_extracting.
    destruct (fold_left (Part000.onItem env) (concat containers) (w, [])) as [w1 results].
    now destruct (categorizedLiteral (categorizeResults results)).
  - reflexivity.
Qed.

Lemma startCycle_invariant env prior w :
  cycleInvariant env prior (Part000.startCycle env prior w).
Proof.
  unfold cycleInvariant, Part000.startCycle, pageBlocks.
  destruct (rankingPage env); cbn; (split; [split; reflexivity|constructor]).
Qed.

Lemma step_invariant env prior m t :
  cycleInvariant env prior m -> cycleInvariant env prior (Part000.step env m t).
Proof.
  intros [Hcycle Hserved]. destruct t.
  - (* the refresher *)
    unfold Part000.step. destruct (Part000.cycle m) as [remaining allResults| |p] eqn:Hpc.
    + destruct Hcycle as [Hshared Hfull]. destruct remaining as [|div remaining].
      * cbn [List.filter map] in Hfull. rewrite app_nil_r in Hfull. subst allResults.
        destruct (categorizedLiteral _) as [cat|p] eqn:Hlit; split; cbn; eauto.
      * pose proof (Part000_onItem_results env (Part000.world m) allResults div) as Hitem.
        destruct (Part000.onItem env (Part000.world m, allResults) div) as [w' results].
        cbn [snd] in Hitem. subst results. split; [|exact Hserved].
        cbn. split; [exact Hshared|]. rewrite <- Hfull. cbn [List.filter].
        destruct (hasName div); [|reflexivity].
        cbn [map]. now rewrite <- app_assoc.
    + split; [|exact Hserved]. unfold cycleInvariant in *. now rewrite Hpc.
    + split; [|exact Hserved]. unfold cycleInvariant in *. now rewrite Hpc.
  - (* a request *)
    cbn. split; [exact Hcycle|].
    apply Forall_app. split; [exact Hserved|]. constructor; [|constructor].
    unfold wholeMap. destruct (Part000.cycle m) as [remaining allResults| |p].
    + left. apply Hcycle.
    + right. exact Hcycle.
    + left. apply Hcycle.
Qed.

Lemma run_invariant env prior schedule m :
  cycleInvariant env prior m -> cycleInvariant env prior (Part000.run env schedule m).
Proof.
  revert m. induction schedule as [|t schedule IH]; intros m Hm; [exact Hm|].
  cbn [Part000.run fold_left]. apply IH. now apply step_invariant.
Qed.

(** With the statements of the two goroutines interleaved in any order,
    and each statement taken as one step, a request is served either the
    map the cycle started with or the map built from the whole result
    sequence.  Go promises this order of events only to accesses that are
    synchronised. *)
Lemma requests_served_whole_maps env prior w schedule :
  Forall (wholeMap env prior)
    (Part000.served (Part000.run env schedule (Part000.startCycle env prior w))).
Proof. apply run_invariant, startCycle_invariant. Qed.

(** C3 on the code.  A refresh cycle over a page of forty named blocks
    builds its map aside and stores it with one assignment, the last
    event of the cycle; [mutex] is free at that moment, as it is when
    [handleRequest] loads the shared variable: the only critical sections
    are the appends to the local [allResults].  Store and load are both
    counted as accesses made without the lock. *)
Theorem shared_map_accessed_without_mutex :
  let cycle := Part000.updateDataFromBinance (sampleEnv 40) None emptyWorld in
  isPanicked cycle.2 = false
  /\ last (trace cycle.1) = Some EvStoreCategorizedResults
  /\ mutexHeldAfter false (removelast (trace cycle.1)) = false
  /\ Part000.unguardedAccesses false (trace cycle.1) = 1
  /\ forall categorizedResults,
       Part000.unguardedAccesses false
         (trace (Part000.handleRequest categorizedResults cycle.1).1) = 2.
Proof.
  cbn zeta. split_and!.
  - vm_compute. reflexivity.
  - vm_compute. reflexivity.
  - vm_compute. reflexivity.
  - vm_compute. reflexivity.
  - intros categorizedResults. cbn [Part000.handleRequest fst]. vm_compute. reflexivity.
Qed.

(** ** formatChange *)

Lemma isDigit_digitChar (d : Z) : (0 <= d < 10)%Z -> isDigit (digitChar d) = true.
Proof.
  intros Hd.
  assert (Hcases : d = 0%Z \/ d = 1%Z \/ d = 2%Z \/ d = 3%Z \/ d = 4%Z \/
                   d = 5%Z \/ d = 6%Z \/ d = 7%Z \/ d = 8%Z \/ d = 9%Z) by lia.
  repeat (destruct Hcases as [-> | Hcases]; [reflexivity|]).
  now subst d.
Qed.

Lemma string_of_uint_digits (d : Decimal.uint) :
  allBytes isDigit (NilEmpty.string_of_uint d) = true.
Proof. induction d; cbn; auto. Qed.

Lemma formatUint_digits (n : Z) : allBytes isDigit (formatUint n) = true.
Proof.
  unfold formatUint, NilZero.string_of_uint.
  destruct (N.to_uint (Z.to_N n)) eqn:Hd; try reflexivity;
    rewrite <- Hd; apply string_of_uint_digits.
Qed.

Lemma formatUint_nonEmpty (n : Z) : nonEmpty (formatUint n) = true.
Proof.
  unfold formatUint, NilZero.string_of_uint.
  destruct (N.to_uint (Z.to_N n)); reflexivity.
Qed.

(** *** The value of the digits printed *)

Lemma roundHalfEven_nearest (n d : Z) :
  (0 <= n)%Z -> (0 < d)%Z ->
  (0 <= roundHalfEven n d)%Z
  /\ (2 * Z.abs (n - roundHalfEven n d * d) <= d)%Z
  /\ ((2 * Z.abs (n - roundHalfEven n d * d))%Z = d -> Z.even (roundHalfEven n d) = true).
Proof.
  intros Hn Hd. unfold roundHalfEven.
  pose proof (Z.div_mod n d ltac:(lia)) as Hdiv.
  pose proof (Z.mod_pos_bound n d Hd) as Hmod.
  pose proof (Z.div_pos n d Hn Hd) as Hq.
  set (q := (n / d)%Z) in *. set (r := (n mod d)%Z) in *.
  destruct (Z.ltb_spec (2 * r) d) as [Hlow|Hlow].
  - replace (n - q * d)%Z with r by lia. split_and!; lia.
  - destruct (Z.ltb_spec d (2 * r)) as [Hhigh|Hhigh].
    + replace (n - (q + 1) * d)%Z with (r - d)%Z by lia. split_and!; lia.
    + destruct (Z.even q) eqn:Heven.
      * replace (n - q * d)%Z with r by lia. split_and!; [lia|lia|auto].
      * replace (n - (q + 1) * d)%Z with (r - d)%Z by lia.
        split_and!; [lia|lia|]. intros _.
        rewrite Z.add_1_r, Z.even_succ, <- Z.negb_even, Heven. reflexivity.
Qed.

(** A rounding to the nearest hundredth, ties to even, is the only one. *)
Lemma nearestHundredths_unique (x : Z * Z) (h h' : Z) :
  (0 < x.2)%Z -> nearestHundredths x h -> nearestHundredths x h' -> h = h'.
Proof.
  destruct x as [num den]. unfold nearestHundredths. cbn [fst snd].
  intros Hden (_ & Hnear & Htie) (_ & Hnear' & Htie').
  assert (Hdiff : (- den <= h * den - h' * den <= den)%Z) by lia.
  assert (Hclose : (h' - 1 <= h <= h' + 1)%Z) by nia.
  destruct (Z.eq_dec h h') as [|Hne]; [assumption|exfalso].
  assert (Hstep : h = (h' + 1)%Z \/ h' = (h + 1)%Z) by lia.
  destruct Hstep as [-> | ->].
  - replace ((h' + 1) * den)%Z with (h' * den + den)%Z in * by ring.
    assert (E1 : Z.even (h' + 1) = true) by (apply Htie; lia).
    assert (E2 : Z.even h' = true) by (apply Htie'; lia).
    rewrite Z.add_1_r, Z.even_succ, <- Z.negb_even, E2 in E1. discriminate E1.
  - replace ((h + 1) * den)%Z with (h * den + den)%Z in * by ring.
    assert (E1 : Z.even h = true) by (apply Htie; lia).
    assert (E2 : Z.even (h + 1) = true) by (apply Htie'; lia).
    rewrite Z.add_1_r, Z.even_succ, <- Z.negb_even, E1 in E2. discriminate E2.
Qed.

Lemma uintValue_acc (d : Decimal.uint) (acc : positive) :
  uintValue d (Zpos acc) = Zpos (Pos.of_uint_acc d acc).
Proof.
  revert acc. induction d as [|d IH|d IH|d IH|d IH|d IH|d IH|d IH|d IH|d IH|d IH];
    intros acc; cbn [uintValue Pos.of_uint_acc]; [reflexivity|..];
    rewrite <- IH; f_equal; lia.
Qed.

Lemma uintValue_of_uint (d : Decimal.uint) : uintValue d 0 = Z.of_N (N.of_uint d).
Proof.
  unfold N.of_uint.
  induction d as [|d IH|d IH|d IH|d IH|d IH|d IH|d IH|d IH|d IH|d IH];
    cbn [uintValue Pos.of_uint]; [reflexivity|exact IH|..];
    apply (uintValue_acc d).
Qed.

Lemma append_cons (c : ascii) (s r : string) : String c s +:+ r = String c (s +:+ r).
Proof. reflexivity. Qed.

Lemma digitsValue_uint (d : Decimal.uint) (acc : Z) (rest : string) :
  digitsValue acc (NilEmpty.string_of_uint d +:+ rest) = digitsValue (uintValue d acc) rest.
Proof.
  revert acc. induction d as [|d IH|d IH|d IH|d IH|d IH|d IH|d IH|d IH|d IH|d IH];
    intros acc; cbn [NilEmpty.string_of_uint uintValue]; [reflexivity|..];
    rewrite append_cons, <- IH; reflexivity.
Qed.

Lemma N_to_uint_nonnil (n : N) : N.to_uint n <> Decimal.Nil.
Proof. destruct n as [|p]; [discriminate|]. apply DecimalPos.Unsigned.to_uint_nonnil. Qed.

(** The digits of [formatUint] read back as the number. *)
Lemma digitsValue_formatUint (q : Z) (rest : string) :
  (0 <= q)%Z -> digitsValue 0 (formatUint q +:+ rest) = digitsValue q rest.
Proof.
  intros Hq. unfold formatUint, NilZero.string_of_uint.
  pose proof (N_to_uint_nonnil (Z.to_N q)) as Hnil.
  pose proof (uintValue_of_uint (N.to_uint (Z.to_N q))) as Hvalue.
  rewrite DecimalN.Unsigned.of_to, Z2N.id in Hvalue by exact Hq.
  destruct (N.to_uint (Z.to_N q)) eqn:Hd; [now contradiction Hnil|..];
    now rewrite digitsValue_uint, Hvalue.
Qed.

Lemma digitsValue_digitChar (acc d : Z) (rest : string) :
  (0 <= d < 10)%Z ->
  digitsValue acc (String (digitChar d) rest) = digitsValue (10 * acc + d) rest.
Proof.
  intros Hd.
  assert (Hcases : d = 0%Z \/ d = 1%Z \/ d = 2%Z \/ d = 3%Z \/ d = 4%Z \/
                   d = 5%Z \/ d = 6%Z \/ d = 7%Z \/ d = 8%Z \/ d = 9%Z) by lia.
  repeat (destruct Hcases as [-> | Hcases]; [reflexivity|]).
  now subst d.
Qed.

(** The digits printed for [h] hundredths stand for [h]. *)
Lemma hundredthsOf_rendering (h : Z) :
  (0 <= h)%Z ->
  hundredthsOf (formatUint (h / 100) +:+ "." +:+
                String (digitChar (h mod 100 / 10)) (String (digitChar (h mod 10)) "")) = h.
Proof.
  intros Hh. unfold hundredthsOf.
  pose proof (Z.div_mod h 100 ltac:(lia)) as Hdiv.
  pose proof (Z.mod_pos_bound h 100 ltac:(lia)) as Hmod.
  pose proof (Z.div_mod (h mod 100) 10 ltac:(lia)) as Hdiv'.
  pose proof (Z.mod_pos_bound (h mod 100) 10 ltac:(lia)) as Hmod'.
  assert (Hunits : (h mod 10 = (h mod 100) mod 10)%Z).
  { rewrite Hdiv at 1. replace (100 * (h / 100) + h mod 100)%Z
      with (h mod 100 + (10 * (h / 100)) * 10)%Z by lia.
    apply Z_mod_plus_full. }
  rewrite digitsValue_formatUint by (apply Z.div_pos; lia).
  change ("." +:+ ?s) with (String "." s).
  change (digitsValue ?acc (String "." ?s)) with (digitsValue acc s).
  rewrite !digitsValue_digitChar by lia.
  cbn [digitsValue]. lia.
Qed.

Lemma nzhead_head (d : Decimal.uint) :
  match Decimal.nzhead d with
  | Decimal.D0 _ => False
  | _ => True
  end.
Proof. induction d; cbn [Decimal.nzhead]; auto. Qed.

Lemma to_uint_head (n : N) (l : Decimal.uint) :
  N.to_uint n = Decimal.D0 l -> l = Decimal.Nil.
Proof.
  intros Hd. pose proof (DecimalN.Unsigned.to_of (N.to_uint n)) as Hnorm.
  rewrite DecimalN.Unsigned.of_to, Hd in Hnorm.
  unfold Decimal.unorm in Hnorm. pose proof (nzhead_head (Decimal.D0 l)) as Hhead.
  destruct (Decimal.nzhead (Decimal.D0 l)); try discriminate Hnorm; try contradiction.
  now injection Hnorm as <-.
Qed.

(** [formatUint] prints no zero before another digit. *)
Lemma noLeadingZero_rendering (q : Z) (rest : string) :
  noLeadingZero (formatUint q +:+ "." +:+ rest) = true.
Proof.
  unfold formatUint, NilZero.string_of_uint.
  pose proof (to_uint_head (Z.to_N q)) as Hhead.
  destruct (N.to_uint (Z.to_N q)) as [|l|l|l|l|l|l|l|l|l|l]; try reflexivity;
    cbn [NilEmpty.string_of_uint]; rewrite append_cons.
  - rewrite (Hhead l eq_refl). reflexivity.
  - unfold noLeadingZero. now destruct (NilEmpty.string_of_uint l +:+ "." +:+ rest).
  - unfold noLeadingZero. now destruct (NilEmpty.string_of_uint l +:+ "." +:+ rest).
  - unfold noLeadingZero. now destruct (NilEmpty.string_of_uint l +:+ "." +:+ rest).
  - unfold noLeadingZero. now destruct (NilEmpty.string_of_uint l +:+ "." +:+ rest).
  - unfold noLeadingZero. now destruct (NilEmpty.string_of_uint l +:+ "." +:+ rest).
  - unfold noLeadingZero. now destruct (NilEmpty.string_of_uint l +:+ "." +:+ rest).
  - unfold noLeadingZero. now destruct (NilEmpty.string_of_uint l +:+ "." +:+ rest).
  - unfold noLeadingZero. now destruct (NilEmpty.string_of_uint l +:+ "." +:+ rest).
  - unfold noLeadingZero. now destruct (NilEmpty.string_of_uint l +:+ "." +:+ rest).
Qed.

Lemma twoDecimals_rendering (h : Z) :
  twoDecimals (formatUint (h / 100) +:+ "." +:+
               String (digitChar (h mod 100 / 10)) (String (digitChar (h mod 10)) "")).
Proof.
  exists (formatUint (h / 100)), (digitChar (h mod 100 / 10)), (digitChar (h mod 10)).
  split_and!.
  - reflexivity.
  - apply formatUint_nonEmpty.
  - apply formatUint_digits.
  - apply isDigit_digitChar.
    pose proof (Z.mod_pos_bound h 100 ltac:(lia)).
    split; [apply Z.div_pos; lia|apply Z.div_lt_upper_bound; lia].
  - apply isDigit_digitChar. apply Z.mod_pos_bound. lia.
Qed.

(** The digits printed by [%.2f] for a finite value: the value rounded to
    the nearest hundredth. *)
Lemma formatF2_finite (s : bool) (m : positive) (e : Z) :
  exists digits, rendersNumber (S754_finite s m e) digits
    /\ formatF2 (S754_finite s m e) = signString s +:+ digits.
Proof.
  unfold formatF2, rendersNumber.
  set (h := if (0 <=? e)%Z then (Z.pos m * 2 ^ e * 100)%Z
            else roundHalfEven (Z.pos m * 100) (2 ^ (- e))).
  assert (Hnear : nearestHundredths (magnitude (S754_finite s m e)) h).
  { subst h. unfold nearestHundredths, magnitude.
    destruct (Z.leb_spec 0 e) as [He|He]; cbn [fst snd].
    - assert (0 < 2 ^ e)%Z by (apply Z.pow_pos_nonneg; lia).
      replace (100 * (Z.pos m * 2 ^ e) - Z.pos m * 2 ^ e * 100 * 1)%Z with 0%Z by lia.
      split_and!; [nia|cbn; lia|cbn; lia].
    - assert (Hden : (0 < 2 ^ (- e))%Z) by (apply Z.pow_pos_nonneg; lia).
      replace (100 * Z.pos m)%Z with (Z.pos m * 100)%Z by lia.
      apply roundHalfEven_nearest; lia. }
  exists (formatUint (h / 100) +:+ "." +:+
          String (digitChar (h mod 100 / 10)) (String (digitChar (h mod 10)) "")).
  split; [|reflexivity]. split_and!.
  - apply twoDecimals_rendering.
  - apply noLeadingZero_rendering.
  - rewrite hundredthsOf_rendering by apply Hnear. exact Hnear.
Qed.

Lemma formatF2_zero (s : bool) :
  rendersNumber (S754_zero s) "0.00" /\ formatF2 (S754_zero s) = signString s +:+ "0.00".
Proof.
  split; [|reflexivity]. split_and!.
  - exists "0", "0"%char, "0"%char. split_and!; reflexivity.
  - reflexivity.
  - split_and!; cbn; [lia|lia|discriminate].
Qed.

Lemma formatF2_number (v : float64) :
  isNumber v = true ->
  exists digits, rendersNumber v digits /\ formatF2 v = signString (signBit v) +:+ digits.
Proof.
  destruct v as [s|s| |s m e]; try discriminate; intros _.
  - exists "0.00". apply formatF2_zero.
  - apply formatF2_finite.
Qed.

Lemma gtZero_positive (v : float64) :
  isNumber v = true -> gtZero v = true -> signBit v = false.
Proof. destruct v as [s|s| |[|] m e]; cbn; congruence. Qed.

Lemma formatChange_parsed (change : string) (w : World) (v : float64) :
  ParseFloat change = (v, None) ->
  MainGo.formatChange change w =
  (if gtZero v then "+" +:+ formatF2 v +:+ "%" else formatF2 v +:+ "%", w).
Proof.
  intros Hparse. unfold MainGo.formatChange. rewrite Hparse.
  now destruct (gtZero v).
Qed.

Lemma append_assoc (a b c : string) : (a +:+ b) +:+ c = a +:+ (b +:+ c).
Proof.
  induction a as [|x a IH]; [reflexivity|].
  change (String x ((a +:+ b) +:+ c) = String x (a +:+ (b +:+ c))).
  now rewrite IH.
Qed.

(** C5, as the code has it.  [formatChange] renders an input that parses
    as a positive finite number as ["+"], the digits of the number, and
    ["%"]; an input that parses as a zero or a negative finite number as
    the digits of the number with no sign but the number's own minus.
    The digits are those of the absolute value of the parsed number
    rounded to the nearest hundredth (halfway cases to the even
    hundredth), written with exactly two decimals and no leading zero.
    An input that [ParseFloat] rejects is returned as it came, and the
    parse error is logged.  The infinities and NaN, which [ParseFloat]
    accepts, are rendered without decimals.  So "3.5" gives "+3.50%",
    "-2" gives "-2.00%" and "abc" gives "abc". *)
Theorem formatChange_rendering (change : string) (w : World) :
  (forall v, ParseFloat change = (v, None) -> isNumber v = true -> gtZero v = true ->
     exists digits, rendersNumber v digits
       /\ MainGo.formatChange change w = ("+" +:+ digits +:+ "%", w))
  /\ (forall v, ParseFloat change = (v, None) -> isNumber v = true -> gtZero v = false ->
     exists digits, rendersNumber v digits
       /\ MainGo.formatChange change w =
          ((if signBit v then "-" else "") +:+ digits +:+ "%", w))
  /\ (forall v err, ParseFloat change = (v, Some err) ->
     MainGo.formatChange change w =
       (change, emit (EvLog (LogParsingChangeValue change)) w))
  /\ (forall v, ParseFloat change = (v, None) -> isNumber v = false ->
     MainGo.formatChange change w =
       (match v with
        | S754_infinity false => "++Inf%"
        | S754_infinity true => "-Inf%"
        | _ => "NaN%"
        end, w))
  /\ MainGo.formatChange "3.5" w = ("+3.50%", w)
  /\ MainGo.formatChange "-2" w = ("-2.00%", w)
  /\ MainGo.formatChange "abc" w = ("abc", emit (EvLog (LogParsingChangeValue "abc")) w).
Proof.
  split_and!.
  - intros v Hparse Hnum Hpos.
    destruct (formatF2_number v Hnum) as (digits & Hdigits & Hfmt).
    exists digits. split; [exact Hdigits|].
    rewrite (formatChange_parsed change w v Hparse), Hpos, Hfmt.
    now rewrite (gtZero_positive v Hnum Hpos).
  - intros v Hparse Hnum Hpos.
    destruct (formatF2_number v Hnum) as (digits & Hdigits & Hfmt).
    exists digits. split; [exact Hdigits|].
    rewrite (formatChange_parsed change w v Hparse), Hpos, Hfmt.
    unfold signString. now rewrite append_assoc.
  - intros v err Hparse. unfold MainGo.formatChange. now rewrite Hparse.
  - intros v Hparse Hnum. rewrite (formatChange_parsed change w v Hparse).
    destruct v as [s|[|]| |s m e]; try discriminate Hnum; reflexivity.
  - reflexivity.
  - reflexivity.
  - reflexivity.
Qed.

(** * The theorems at concrete inputs *)

Section AtInputs.
#[local] Existing Instance noUnicodeTables.

(** Twenty-five entries fall into three buckets, the last one short. *)
Lemma categorizeResults_partition_witness :
  length (categorizeResults (seq 0 25)) = 3
  /\ (forall k b, categorizeResults (seq 0 25) !! k = Some b -> S k < 3 -> length b = 10)
  /\ concat (categorizeResults (seq 0 25)) = seq 0 25.
Proof. exact (categorizeResults_partition (seq 0 25)). Defined.

(** Twenty-five entries: the literal panics on [groupedResults[3]]. *)
Lemma categorized_map_underflow_witness :
  length (repeat (mkCryptoInfo "1" "" "Bitcoin" "" "") 25) < 31
  /\ categorizedLiteral (categorizeResults (repeat (mkCryptoInfo "1" "" "Bitcoin" "" "") 25))
     = Panicked (IndexOutOfRange 3 3).
Proof.
  assert (Hlen : length (repeat (mkCryptoInfo "1" "" "Bitcoin" "" "") 25) < 31)
    by (cbn; lia).
  split; [exact Hlen|].
  exact (proj1 (proj2 (categorized_map_underflow _ Hlen))).
Defined.

(** No entry at all, as after a failed visit: the literal panics on
    [groupedResults[0]]. *)
Lemma categorizedLiteral_no_entries :
  categorizedLiteral (categorizeResults []) = Panicked (IndexOutOfRange 0 0).
Proof. reflexivity. Qed.

(** "3.5" parses as a positive number and is rendered with a plus sign and
    the digits of 350 hundredths. *)
Lemma formatChange_rendering_witness :
  ParseFloat "3.5" = (S754_finite false 7881299347898368 (-51), None)
  /\ exists digits, rendersNumber (S754_finite false 7881299347898368 (-51)) digits
       /\ MainGo.formatChange "3.5" emptyWorld = ("+" +:+ digits +:+ "%", emptyWorld).
Proof.
  split; [reflexivity|].
  exact (proj1 (formatChange_rendering "3.5" emptyWorld)
           (S754_finite false 7881299347898368 (-51)) eq_refl eq_refl eq_refl).
Defined.

(** The literal "Inf" parses without error as a value above zero, and is
    rendered without any decimal digit. *)
Lemma formatChange_infinity_has_no_decimals :
  ParseFloat "Inf" = (S754_infinity false, None)
  /\ gtZero (S754_infinity false) = true
  /\ MainGo.formatChange "Inf" emptyWorld = ("++Inf%", emptyWorld)
  /\ ~ (exists digits, twoDecimals digits
          /\ MainGo.formatChange "Inf" emptyWorld = ("+" +:+ digits +:+ "%", emptyWorld)).
Proof.
  split_and!; try reflexivity.
  intros (digits & (whole & d1 & d2 & -> & Hne & Hdigits & _) & Hfmt).
  destruct whole as [|c whole]; [discriminate Hne|].
  change (MainGo.formatChange "Inf" emptyWorld) with ("++Inf%", emptyWorld) in Hfmt.
  injection Hfmt as Hc _. subst c. discriminate Hdigits.
Qed.

(** The block named "Btc" against the price map {"BTCUSDT": "65000.00"}. *)
Lemma joined_price_is_map_value_witness :
  nonEmpty "Btc" = true
  /\ exists info,
       (MainGo.onItem (sampleEnv 0) sampleRequest
          {["BTCUSDT" := "65000.00"]} ∅ (emptyWorld, [])
          (mkBlock "1" "" "Btc" "" "")).2 = [] ++ [info]
       /\ Name info = "Btc"
       /\ Price info = mapIndex {["BTCUSDT" := "65000.00"]} (ToUpper "Btc" +:+ "USDT").
Proof.
  split; [reflexivity|].
  exact (proj1 (proj2 (joined_price_is_map_value (sampleEnv 0)
                         sampleRequest {["BTCUSDT" := "65000.00"]} ∅ emptyWorld))
           [] (mkBlock "1" "" "Btc" "" "") eq_refl).
Defined.

(** Three named blocks and empty maps: three entries, all without price
    and change. *)
Lemma join_tolerates_missing_prices_witness :
  rankingPage (sampleEnv 3) = VisitOk [map sampleBlock (seq 0 3)]
  /\ map Name (MainGo.visit (sampleEnv 3) sampleRequest ∅ ∅
                 emptyWorld).1.2 = ["C0"; "C1"; "C2"]
  /\ Forall (fun info => Price info = "" /\ Change24h info = "")
       (MainGo.visit (sampleEnv 3) sampleRequest ∅ ∅ emptyWorld).1.2.
Proof.
  split; [reflexivity|].
  pose proof (join_tolerates_missing_prices (sampleEnv 3)
                sampleRequest ∅ ∅ emptyWorld [map sampleBlock (seq 0 3)] eq_refl)
    as (_ & Hnames & _ & _ & _ & _ & Hempty & _ & _).
  split; [exact Hnames|exact (Hempty eq_refl eq_refl)].
Defined.

(** Forty-one named blocks and an empty price source: the request is
    answered, the forty-first entry is in the result sequence and in no
    bucket of the answer. *)
Lemma snapshot_omits_entry_41 :
  match (MainGo.handleRequest (sampleEnv 41) sampleRequest
           emptyWorld).2 with
  | MainGo.RespondJSON body =>
      In "C40" (map Name (MainGo.visit (sampleEnv 41)
                            sampleRequest ∅ ∅ emptyWorld).1.2)
      /\ length (snapshotEntries body) = 40
      /\ ~ In "C40" (map Name (snapshotEntries body))
  | _ => False
  end.
Proof.
  vm_compute. split_and!.
  - do 40 right. left. reflexivity.
  - reflexivity.
  - intros Hin. repeat (destruct Hin as [Hin|Hin]; [discriminate Hin|]). exact Hin.
Qed.

(** The image host answers: the first resolution downloads, the second
    finds the file. *)
Lemma ensureImage_second_call_hits_witness :
  imageExists (ensureImage imagesUp "https://bin.bnbstatic.com/btc.png" "Bitcoin.jpg"
                 emptyWorld) "Bitcoin.jpg" = true
  /\ httpGets (trace (ensureImage imagesUp "https://bin.bnbstatic.com/btc.png" "Bitcoin.jpg"
                        (ensureImage imagesUp "https://bin.bnbstatic.com/btc.png"
                           "Bitcoin.jpg" emptyWorld))) <= 0 + 1.
Proof.
  assert (Hhit : imageExists (ensureImage imagesUp "https://bin.bnbstatic.com/btc.png"
                                "Bitcoin.jpg" emptyWorld) "Bitcoin.jpg" = true)
    by reflexivity.
  split; [exact Hhit|].
  exact (proj2 (proj1 (proj2 (ensureImage_second_call_hits imagesUp imagesUp
                  "https://bin.bnbstatic.com/btc.png" "https://bin.bnbstatic.com/btc.png"
                  "Bitcoin.jpg" emptyWorld)) Hhit)).
Defined.

(** The image host answers but the file cannot be created: nothing is
    stored, and each of the two resolutions fetches the image. *)
Lemma ensureImage_twice_fetches_twice :
  let w1 := ensureImage assetsReadOnly "https://bin.bnbstatic.com/btc.png" "Bitcoin.jpg"
              emptyWorld in
  let w2 := ensureImage assetsReadOnly "https://bin.bnbstatic.com/btc.png" "Bitcoin.jpg" w1 in
  trace w2 =
    [EvHttpGet "https://bin.bnbstatic.com/btc.png"; EvLog LogCreatingFile;
     EvHttpGet "https://bin.bnbstatic.com/btc.png"; EvLog LogCreatingFile]
  /\ httpGets (trace w2) = 2
  /\ ~ httpGets (trace w2) <= 1.
Proof. vm_compute. split_and!; [reflexivity|reflexivity|lia]. Qed.

(** A path that [os.Stat] cannot reach for lack of permission counts as a
    cached image. *)
Lemma imageExists_unless_not_exist_witness :
  osStat (mkWorld {["images/Bitcoin.jpg" := Unstatable PermissionDenied]} [])
    ("images/" +:+ "Bitcoin.jpg") = Some (ErrFault PermissionDenied)
  /\ imageExists (mkWorld {["images/Bitcoin.jpg" := Unstatable PermissionDenied]} [])
       "Bitcoin.jpg" = true
  /\ ensureImage imagesUp "https://bin.bnbstatic.com/btc.png" "Bitcoin.jpg"
       (mkWorld {["images/Bitcoin.jpg" := Unstatable PermissionDenied]} []) =
     mkWorld {["images/Bitcoin.jpg" := Unstatable PermissionDenied]} [].
Proof.
  assert (Herr : osStat (mkWorld {["images/Bitcoin.jpg" := Unstatable PermissionDenied]} [])
                   ("images/" +:+ "Bitcoin.jpg") = Some (ErrFault PermissionDenied))
    by reflexivity.
  split; [exact Herr|].
  exact (proj1 (proj2 (proj2 (imageExists_unless_not_exist imagesUp
                  (mkWorld {["images/Bitcoin.jpg" := Unstatable PermissionDenied]} [])
                  "https://bin.bnbstatic.com/btc.png" "Bitcoin.jpg")))
           PermissionDenied Herr).
Defined.

End AtInputs.

(** * Further properties of the code *)

#[local] Set Warnings "-clear-no-such-hyp".

(** ** categorizeResults, bucket by bucket *)

Lemma slice_take_ten {A : Type} (l : list A) (i : nat) :
  i < length l -> slice l i (Nat.min (i + 10) (length l)) = take 10 (drop i l).
Proof.
  intros Hi. unfold slice. destruct (le_lt_dec (i + 10) (length l)) as [Hle|Hlt].
  - rewrite Nat.min_l by lia. f_equal. lia.
  - rewrite Nat.min_r by lia.
    rewrite !take_ge; [reflexivity| |]; rewrite length_drop; lia.
Qed.

Lemma categorizeLoop_lookup {A : Type} (l : list A) (k i : nat) :
  categorizeLoop l i [] !! k =
  if (i + 10 * k <? length l)%nat then Some (take 10 (drop (i + 10 * k) l)) else None.
Proof.
  revert i. induction k as [|k IH]; intros i.
  - replace (i + 10 * 0) with i by lia.
    destruct (Nat.ltb_spec i (length l)) as [Hlt|Hge].
    + rewrite categorizeLoop_cons by assumption. cbn.
      now rewrite slice_take_ten.
    + now rewrite categorizeLoop_done.
  - destruct (le_lt_dec (length l) i) as [Hge|Hlt].
    + rewrite categorizeLoop_done by assumption.
      destruct (Nat.ltb_spec (i + 10 * S k) (length l)); [lia|reflexivity].
    + rewrite categorizeLoop_cons by assumption. cbn [lookup list_lookup].
      rewrite IH. now replace (i + 10 + 10 * k) with (i + 10 * S k) by lia.
Qed.

Lemma categorizeResults_lookup {A : Type} (l : list A) (k : nat) :
  categorizeResults l !! k =
  if (10 * k <? length l)%nat then Some (take 10 (drop (10 * k) l)) else None.
Proof. unfold categorizeResults. now rewrite categorizeLoop_lookup. Qed.

(** X1.  Bucket number [k] of [categorizeResults] holds the entries at
    positions [10k .. 10k+9] of the input (fewer when the input ends
    there), and there is a bucket number [k] exactly when the input has
    more than [10k] entries. *)
Theorem categorizeResults_bucket_positions {A : Type} (allResults : list A) (k : nat) :
  categorizeResults allResults !! k =
  if (10 * k <? length allResults)%nat
  then Some (take 10 (drop (10 * k) allResults))
  else None.
Proof. apply categorizeResults_lookup. Qed.

(** X2.  No bucket is empty and none holds more than ten entries; the
    empty input, and only it, gives no bucket at all. *)
Theorem categorizeResults_bucket_sizes {A : Type} (allResults : list A) :
  Forall (fun b => 1 <= length b <= 10) (categorizeResults allResults)
  /\ (categorizeResults allResults = [] <-> allResults = []).
Proof.
  destruct (categorizeLoop_spec allResults 0) as (Hlen & _ & Hsize & Hcat).
  fold (categorizeResults allResults) in Hlen, Hsize, Hcat.
  split; [exact Hsize|]. split.
  - intros Hnil. rewrite Hnil in Hcat. now rewrite drop_0 in Hcat.
  - intros ->. reflexivity.
Qed.

Lemma categorizeResults_map {A B : Type} (f : A -> B) (l : list A) :
  categorizeResults (map f l) = map (map f) (categorizeResults l).
Proof.
  apply list_eq. intros k.
  change (map (map f) (categorizeResults l)) with (map f <$> categorizeResults l).
  rewrite list_lookup_fmap.
  rewrite !categorizeResults_lookup, length_map.
  destruct (10 * k <? length l)%nat; [|reflexivity].
  cbn. now rewrite skipn_map, firstn_map.
Qed.

(** X3.  The buckets depend on the positions of the entries only:
    transforming every entry and then categorizing gives the transformed
    buckets. *)
Theorem categorizeResults_commutes_with_map {A B : Type} (f : A -> B)
    (allResults : list A) :
  categorizeResults (map f allResults) = map (map f) (categorizeResults allResults).
Proof. apply categorizeResults_map. Qed.

Lemma categorizeResults_app {A : Type} (l1 l2 : list A) (n : nat) :
  length l1 = 10 * n ->
  categorizeResults (l1 ++ l2) = categorizeResults l1 ++ categorizeResults l2.
Proof.
  intros Hlen. apply list_eq. intros k.
  assert (Hbuckets : length (categorizeResults l1) = n).
  { rewrite categorizeResults_length, Hlen.
    replace (10 * n + 9) with (9 + n * 10) by lia.
    rewrite Nat.div_add by lia. reflexivity. }
  destruct (le_lt_dec n k) as [Hge|Hlt].
  - rewrite lookup_app_r by lia. rewrite Hbuckets.
    rewrite !categorizeResults_lookup, length_app, Hlen.
    destruct (Nat.ltb_spec (10 * k) (10 * n + length l2));
      destruct (Nat.ltb_spec (10 * (k - n)) (length l2)); try lia; [|reflexivity].
    f_equal. f_equal. rewrite drop_app_ge by lia. f_equal. lia.
  - rewrite lookup_app_l by lia.
    rewrite !categorizeResults_lookup, length_app, Hlen.
    destruct (Nat.ltb_spec (10 * k) (10 * n + length l2));
      destruct (Nat.ltb_spec (10 * k) (10 * n)); try lia.
    f_equal. rewrite drop_app_le by lia.
    rewrite take_app_le; [reflexivity|]. rewrite length_drop. lia.
Qed.

(** X4.  Entries appended after a whole number of full buckets open new
    buckets and leave the earlier ones as they were. *)
Theorem categorizeResults_after_full_buckets {A : Type} (l1 l2 : list A) (n : nat) :
  length l1 = 10 * n ->
  categorizeResults (l1 ++ l2) = categorizeResults l1 ++ categorizeResults l2.
Proof. apply categorizeResults_app. Qed.

(** ** The categorized map and the request of main.go *)

Lemma categorizedMap_lookups (g0 g1 g2 g3 : list CryptoInfo) :
  let body : gmap string (list CryptoInfo) :=
    <["MayorVolumen" := g3]> (<["Perdedores" := g2]>
      (<["Ganadores" := g1]> (<["Populares" := g0]> ∅))) in
  body !! "Populares" = Some g0
  /\ body !! "Ganadores" = Some g1
  /\ body !! "Perdedores" = Some g2
  /\ body !! "MayorVolumen" = Some g3
  /\ dom body = list_to_set categoryLabels.
Proof.
  cbn zeta. split_and!.
  - rewrite !lookup_insert.
    now repeat first [rewrite decide_True by reflexivity | rewrite decide_False by discriminate].
  - rewrite !lookup_insert.
    now repeat first [rewrite decide_True by reflexivity | rewrite decide_False by discriminate].
  - rewrite !lookup_insert.
    now repeat first [rewrite decide_True by reflexivity | rewrite decide_False by discriminate].
  - rewrite !lookup_insert.
    now repeat first [rewrite decide_True by reflexivity | rewrite decide_False by discriminate].
  - rewrite !dom_insert_L, dom_empty_L. cbn. set_solver.
Qed.

(** X5.  The map literal returns exactly when there are at least four
    buckets.  The map then has the four fixed labels and no other key,
    each label bound to the bucket of its rank, and buckets from the fifth
    on have no influence on it. *)
Theorem categorizedLiteral_first_four (groupedResults : list (list CryptoInfo)) :
  (4 <= length groupedResults ->
     exists body,
       categorizedLiteral groupedResults = Returned body
       /\ dom body = list_to_set categoryLabels
       /\ body !! "Populares" = groupedResults !! 0
       /\ body !! "Ganadores" = groupedResults !! 1
       /\ body !! "Perdedores" = groupedResults !! 2
       /\ body !! "MayorVolumen" = groupedResults !! 3)
  /\ (length groupedResults < 4 -> isPanicked (categorizedLiteral groupedResults) = true)
  /\ categorizedLiteral (take 4 groupedResults) = categorizedLiteral groupedResults.
Proof.
  split_and!.
  - intros Hlen.
    destruct groupedResults as [|g0 [|g1 [|g2 [|g3 rest]]]]; cbn [length] in Hlen; try lia.
    rewrite categorizedLiteral_four. eexists. split; [reflexivity|].
    destruct (categorizedMap_lookups g0 g1 g2 g3) as (Hb0 & Hb1 & Hb2 & Hb3 & Hdom).
    now split_and!.
  - intros Hlen. now rewrite categorizedLiteral_short.
  - now destruct groupedResults as [|g0 [|g1 [|g2 [|g3 rest]]]].
Qed.

Lemma categorizedLiteral_of_entries (allResults : list CryptoInfo) :
  31 <= length allResults ->
  exists body,
    categorizedLiteral (categorizeResults allResults) = Returned body
    /\ body !! "Populares" = Some (take 10 allResults)
    /\ body !! "Ganadores" = Some (take 10 (drop 10 allResults))
    /\ body !! "Perdedores" = Some (take 10 (drop 20 allResults))
    /\ body !! "MayorVolumen" = Some (take 10 (drop 30 allResults)).
Proof.
  intros Hlen.
  pose proof (categorizeResults_lookup allResults 0) as L0.
  pose proof (categorizeResults_lookup allResults 1) as L1.
  pose proof (categorizeResults_lookup allResults 2) as L2.
  pose proof (categorizeResults_lookup allResults 3) as L3.
  destruct (Nat.ltb_spec (10 * 0) (length allResults)); [|lia].
  destruct (Nat.ltb_spec (10 * 1) (length allResults)); [|lia].
  destruct (Nat.ltb_spec (10 * 2) (length allResults)); [|lia].
  destruct (Nat.ltb_spec (10 * 3) (length allResults)); [|lia].
  destruct (categorizeResults allResults) as [|g0 [|g1 [|g2 [|g3 rest]]]];
    try discriminate.
  cbn in L0, L1, L2, L3.
  injection L0 as ->. injection L1 as ->. injection L2 as ->. injection L3 as ->.
  rewrite categorizedLiteral_four. eexists. split; [reflexivity|].
  destruct (categorizedMap_lookups (take 10 allResults) (take 10 (drop 10 allResults))
              (take 10 (drop 20 allResults)) (take 10 (drop 30 allResults)))
    as (Hb0 & Hb1 & Hb2 & Hb3 & _).
  now split_and!.
Qed.

(** X6.  With at least 31 entries the categorized map is built, and its
    buckets are the entries at positions 0-9, 10-19, 20-29 and 30-39 of
    the result sequence in that order under "Populares", "Ganadores",
    "Perdedores" and "MayorVolumen". *)
Theorem categorized_map_buckets (allResults : list CryptoInfo) :
  31 <= length allResults ->
  exists body,
    categorizedLiteral (categorizeResults allResults) = Returned body
    /\ body !! "Populares" = Some (take 10 allResults)
    /\ body !! "Ganadores" = Some (take 10 (drop 10 allResults))
    /\ body !! "Perdedores" = Some (take 10 (drop 20 allResults))
    /\ body !! "MayorVolumen" = Some (take 10 (drop 30 allResults)).
Proof. apply categorizedLiteral_of_entries. Qed.

Section Request.
Context `{UnicodeTables}.

(** X7.  How a request to main.go ends is decided by the ranking page
    alone: a failed visit ends the process, a page with fewer than 31
    named item blocks makes the handler panic, and any other page is
    answered with the first forty joined entries.  Neither the price API
    nor the image hosts nor the file system can change which of the three
    happens. *)
Theorem handleRequest_outcome (env : Env) (c : MainGo.Request) (w : World) :
  let outcome := (MainGo.handleRequest env c w).2 in
  let prices := (MainGo.getPricesAndChanges env w).1.1 in
  let changes := (MainGo.getPricesAndChanges env w).1.2 in
  match rankingPage env with
  | VisitErr => outcome = MainGo.ProcessExit
  | VisitOk containers =>
      let named := List.filter hasName (concat containers) in
      let buckets := (length named + 9) / 10 in
      (length named < 31 ->
         outcome = MainGo.HandlerPanic (IndexOutOfRange buckets buckets))
      /\ (31 <= length named ->
         exists body,
           outcome = MainGo.RespondJSON body
           /\ snapshotEntries body = take 40 (map (joinedEntry c prices changes) named))
  end.
Proof.
  cbn zeta. unfold MainGo.handleRequest.
  destruct (MainGo.getPricesAndChanges env w) as [[prices changes] w1]. cbn [fst snd].
  destruct (rankingPage env) as [containers|] eqn:Hpage.
  - pose proof (visit_results env c prices changes w1 containers Hpage) as Hres.
    assert (Herr : (MainGo.visit env c prices changes w1).2 = false)
      by (unfold MainGo.visit; now rewrite Hpage).
    destruct (MainGo.visit env c prices changes w1) as [[w2 allResults] err].
    cbn [fst snd] in Hres, Herr. subst err allResults.
    set (all := map (joinedEntry c prices changes) (List.filter hasName (concat containers))).
    assert (Hlen : length all = length (List.filter hasName (concat containers)))
      by apply length_map.
    split.
    + intros Hshort.
      rewrite categorizedLiteral_short by (apply categorizeResults_short; lia).
      cbn [snd]. now rewrite categorizeResults_length, Hlen.
    + intros Hlong.
      destruct (categorizedLiteral_of_entries all ltac:(lia)) as (body & Hbody & _).
      rewrite Hbody. cbn [snd]. exists body. split; [reflexivity|].
      now apply categorizedLiteral_entries.
  - rewrite (visit_failed env c prices changes w1 Hpage). reflexivity.
Qed.

End Request.

(** ** The price source adapter, map by map *)

Section InsertAll.
Context {A : Type} (key val : A -> string).

Lemma insertAll_absent (data : list A) (m : gmap string string) (k : string) :
  (forall it, In it data -> key it <> k) ->
  fold_left (fun m it => <[key it := val it]> m) data m !! k = m !! k.
Proof.
  revert m. induction data as [|it data IH]; intros m Hnone; [reflexivity|].
  cbn [fold_left]. rewrite IH by (intros it' Hin; apply Hnone; now right).
  apply lookup_insert_ne. apply Hnone. now left.
Qed.

Lemma insertAll_last (pre post : list A) (it : A) (m : gmap string string) :
  (forall it', In it' post -> key it' <> key it) ->
  fold_left (fun m it => <[key it := val it]> m) (pre ++ it :: post) m !! key it =
  Some (val it).
Proof.
  intros Hlast. rewrite fold_left_app. cbn [fold_left].
  rewrite insertAll_absent by exact Hlast. apply lookup_insert_eq.
Qed.

Lemma insertAll_dom (data : list A) (m : gmap string string) :
  dom (fold_left (fun m it => <[key it := val it]> m) data m) =
  dom m ∪ list_to_set (map key data).
Proof.
  revert m. induction data as [|it data IH]; intros m.
  - cbn. set_solver.
  - cbn [fold_left map list_to_set]. rewrite IH, dom_insert_L. set_solver.
Qed.

End InsertAll.

Lemma formatChange_text (change : string) (w : World) :
  (MainGo.formatChange change w).1 = renderChange change.
Proof.
  unfold renderChange, MainGo.formatChange.
  destruct (ParseFloat change) as [v [err|]]; [reflexivity|].
  now destruct (gtZero v).
Qed.

Lemma formatChange_world (change : string) (w : World) :
  (MainGo.formatChange change w).2 =
  if parseFails change then emit (EvLog (LogParsingChangeValue change)) w else w.
Proof.
  unfold parseFails, MainGo.formatChange.
  destruct (ParseFloat change) as [v [err|]]; [reflexivity|].
  now destruct (gtZero v).
Qed.

Lemma fillChanges_map (changeData : list BinanceTickerInfo)
    (changes : gmap string string) (w : World) :
  (MainGo.fillChanges changeData changes w).1 =
  fold_left
    (fun m it => <[tickerSymbol it := renderChange (tickerPriceChangePercent it)]> m)
    changeData changes.
Proof.
  unfold MainGo.fillChanges. revert changes w.
  induction changeData as [|it data IH]; intros changes w; [reflexivity|].
  cbn [fold_left fst snd].
  pose proof (formatChange_text (tickerPriceChangePercent it) w) as Htext.
  destruct (MainGo.formatChange (tickerPriceChangePercent it) w) as [v w'].
  cbn [fst] in Htext. subst v. apply IH.
Qed.

Lemma fillChanges_world (changeData : list BinanceTickerInfo)
    (changes : gmap string string) (w : World) :
  (MainGo.fillChanges changeData changes w).2 =
  mkWorld (files w)
    (trace w ++
     map (fun change => EvLog (LogParsingChangeValue change))
       (List.filter parseFails (map tickerPriceChangePercent changeData))).
Proof.
  unfold MainGo.fillChanges. revert changes w.
  induction changeData as [|it data IH]; intros changes w.
  - cbn. rewrite app_nil_r. now destruct w.
  - cbn [fold_left fst snd map List.filter].
    pose proof (formatChange_world (tickerPriceChangePercent it) w) as Hworld.
    destruct (MainGo.formatChange (tickerPriceChangePercent it) w) as [v w'].
    cbn [snd] in Hworld. subst w'. rewrite IH.
    destruct (parseFails (tickerPriceChangePercent it)); [|reflexivity].
    cbn [emit files trace map]. now rewrite <- app_assoc.
Qed.

(** X8.  When the price endpoint answers, the price map holds exactly the
    symbols of the answer: a symbol no item carries is absent, and a
    symbol carried by several items is bound to the price of the last of
    them. *)
Theorem prices_last_item_wins (env : Env) (w : World) (priceData : list BinancePriceInfo) :
  priceApi env = Decoded priceData ->
  let prices := (MainGo.getPricesAndChanges env w).1.1 in
  dom prices = list_to_set (map priceSymbol priceData)
  /\ (forall k, (forall it, In it priceData -> priceSymbol it <> k) -> prices !! k = None)
  /\ (forall pre it post,
        priceData = pre ++ it :: post ->
        (forall it', In it' post -> priceSymbol it' <> priceSymbol it) ->
        prices !! priceSymbol it = Some (priceValue it)).
Proof.
  intros Hprice.
  assert (Hprices : (MainGo.getPricesAndChanges env w).1.1 = MainGo.fillPrices priceData ∅).
  { unfold MainGo.getPricesAndChanges. rewrite Hprice.
    destruct (tickerApi env); try reflexivity.
    now destruct (MainGo.fillChanges items ∅ _). }
  cbn zeta. rewrite Hprices. unfold MainGo.fillPrices. split_and!.
  - rewrite insertAll_dom, dom_empty_L. set_solver.
  - intros k Hnone. rewrite insertAll_absent by exact Hnone. apply lookup_empty.
  - intros pre it post -> Hlast. now apply insertAll_last.
Qed.

(** X9.  When both endpoints answer, the change map binds every symbol of
    the 24h answer to the text [formatChange] gives for the last
    percentage listed under it; the call logs one parse error for each
    percentage that does not parse, in the order of the answer, after its
    two fetches, and leaves the file system alone. *)
Theorem changes_are_formatted (env : Env) (w : World)
    (priceData : list BinancePriceInfo) (changeData : list BinanceTickerInfo) :
  priceApi env = Decoded priceData ->
  tickerApi env = Decoded changeData ->
  let changes := (MainGo.getPricesAndChanges env w).1.2 in
  let w' := (MainGo.getPricesAndChanges env w).2 in
  dom changes = list_to_set (map tickerSymbol changeData)
  /\ (forall pre it post,
        changeData = pre ++ it :: post ->
        (forall it', In it' post -> tickerSymbol it' <> tickerSymbol it) ->
        changes !! tickerSymbol it = Some (renderChange (tickerPriceChangePercent it)))
  /\ files w' = files w
  /\ trace w' =
       trace w ++ [EvHttpGet MainGo.priceURL; EvHttpGet MainGo.tickerURL] ++
       map (fun change => EvLog (LogParsingChangeValue change))
         (List.filter parseFails (map tickerPriceChangePercent changeData)).
Proof.
  intros Hprice Hticker. cbn zeta.
  unfold MainGo.getPricesAndChanges. rewrite Hprice, Hticker.
  set (w2 := emit (EvHttpGet MainGo.tickerURL) (emit (EvHttpGet MainGo.priceURL) w)).
  pose proof (fillChanges_map changeData ∅ w2) as Hmap.
  pose proof (fillChanges_world changeData ∅ w2) as Hworld.
  destruct (MainGo.fillChanges changeData ∅ w2) as [changes w3].
  cbn [fst snd] in *. subst changes w3. split_and!.
  - rewrite insertAll_dom, dom_empty_L. set_solver.
  - intros pre it post -> Hlast.
    now apply (insertAll_last tickerSymbol
                 (fun it => renderChange (tickerPriceChangePercent it))).
  - reflexivity.
  - cbn [trace]. unfold w2. rewrite !emit_trace. now rewrite <- !app_assoc.
Qed.

(** X10.  Whatever the endpoints answer, [getPricesAndChanges] leaves the
    file system as it was and calls [http.Get] once when the price
    endpoint fails and twice otherwise, the price endpoint first. *)
Theorem getPricesAndChanges_fetches (env : Env) (w : World) :
  let w' := (MainGo.getPricesAndChanges env w).2 in
  files w' = files w
  /\ httpGets (trace w') =
       httpGets (trace w) +
       match priceApi env with
       | Decoded _ => 2
       | _ => 1
       end
  /\ exists evs, trace w' = trace w ++ EvHttpGet MainGo.priceURL :: evs.
Proof.
  cbn zeta. unfold MainGo.getPricesAndChanges.
  destruct (priceApi env) as [| |priceData].
  - cbn [snd]. split_and!; [reflexivity| |].
    + rewrite !emit_trace, !httpGets_app. cbn. lia.
    + eexists. rewrite !emit_trace, <- app_assoc. reflexivity.
  - cbn [snd]. split_and!; [reflexivity| |].
    + rewrite !emit_trace, !httpGets_app. cbn. lia.
    + eexists. rewrite !emit_trace, <- app_assoc. reflexivity.
  - destruct (tickerApi env) as [| |changeData].
    + cbn [snd]. split_and!; [reflexivity| |].
      * rewrite !emit_trace, !httpGets_app. cbn. lia.
      * eexists. rewrite !emit_trace, <- !app_assoc. reflexivity.
    + cbn [snd]. split_and!; [reflexivity| |].
      * rewrite !emit_trace, !httpGets_app. cbn. lia.
      * eexists. rewrite !emit_trace, <- !app_assoc. reflexivity.
    + set (w2 := emit (EvHttpGet MainGo.tickerURL) (emit (EvHttpGet MainGo.priceURL) w)).
      pose proof (fillChanges_world changeData ∅ w2) as Hworld.
      destruct (MainGo.fillChanges changeData ∅ w2) as [changes w3].
      cbn [snd] in *. subst w3. cbn [files trace]. split_and!; [reflexivity| |].
      * unfold w2. rewrite !emit_trace, !httpGets_app.
        assert (Hlogs : forall l, httpGets (map (fun change =>
                  EvLog (LogParsingChangeValue change)) l) = 0)
          by (induction l; [reflexivity|assumption]).
        rewrite Hlogs. cbn. lia.
      * eexists. unfold w2. rewrite !emit_trace, <- !app_assoc. reflexivity.
Qed.

(** X11.  When the 24h endpoint fails after the price endpoint answered,
    the prices are returned in full and the changes empty. *)
Theorem ticker_failure_returns_prices (env : Env) (w : World)
    (priceData : list BinancePriceInfo) :
  priceApi env = Decoded priceData ->
  tickerApi env = GetFailed \/ tickerApi env = DecodeFailed ->
  (MainGo.getPricesAndChanges env w).1 = (MainGo.fillPrices priceData ∅, ∅)
  /\ httpGets (trace (MainGo.getPricesAndChanges env w).2) = httpGets (trace w) + 2.
Proof.
  intros Hprice Hticker. unfold MainGo.getPricesAndChanges. rewrite Hprice.
  destruct Hticker as [-> | ->]; (split; [reflexivity|]);
    cbn [snd]; rewrite !emit_trace, !httpGets_app; cbn; lia.
Qed.

(** ** From the price API to the entries *)

Section PriceJoin.
Context `{UnicodeTables}.

(** X12.  An item block with a name is joined to the price the API lists
    last under the symbol of the name, and to the empty string when the
    API lists none: for every such block the entry with that price is in
    the result sequence of the request. *)
Theorem entry_price_from_api (env : Env) (c : MainGo.Request) (w : World)
    (priceData : list BinancePriceInfo) (containers : list (list Block)) (div : Block) :
  priceApi env = Decoded priceData ->
  rankingPage env = VisitOk containers ->
  In div (concat containers) ->
  nonEmpty (blockName div) = true ->
  let prices := (MainGo.getPricesAndChanges env w).1.1 in
  let changes := (MainGo.getPricesAndChanges env w).1.2 in
  let w1 := (MainGo.getPricesAndChanges env w).2 in
  let info := joinedEntry c prices changes div in
  In info (MainGo.visit env c prices changes w1).1.2
  /\ Name info = blockName div
  /\ ((forall it, In it priceData -> priceSymbol it <> symbolOf (blockName div)) ->
      Price info = "")
  /\ (forall pre it post,
        priceData = pre ++ it :: post ->
        priceSymbol it = symbolOf (blockName div) ->
        (forall it', In it' post -> priceSymbol it' <> priceSymbol it) ->
        Price info = priceValue it).
Proof.
  intros Hprice Hpage Hin Hname. cbn zeta.
  assert (Hprices : (MainGo.getPricesAndChanges env w).1.1 = MainGo.fillPrices priceData ∅).
  { unfold MainGo.getPricesAndChanges. rewrite Hprice.
    destruct (tickerApi env); try reflexivity.
    now destruct (MainGo.fillChanges items ∅ _). }
  split_and!.
  - rewrite (visit_results env c _ _ _ containers Hpage).
    apply in_map. apply List.filter_In. split; [exact Hin|exact Hname].
  - reflexivity.
  - intros Hnone. cbn [joinedEntry Price]. apply mapIndex_missing.
    rewrite Hprices. unfold MainGo.fillPrices.
    rewrite insertAll_absent by exact Hnone. apply lookup_empty.
  - intros pre it post -> Hsym Hlast. cbn [joinedEntry Price]. apply mapIndex_present.
    rewrite Hprices, <- Hsym. unfold MainGo.fillPrices. now apply insertAll_last.
Qed.

End PriceJoin.

(** ** downloadImage and the files it leaves *)


Lemma getPricesAndChanges_files (env : Env) (w : World) :
  files (MainGo.getPricesAndChanges env w).2 = files w.
Proof.
  unfold MainGo.getPricesAndChanges.
  destruct (priceApi env) as [| |priceData]; try reflexivity.
  destruct (tickerApi env) as [| |changeData]; try reflexivity.
  set (w2 := emit (EvHttpGet MainGo.tickerURL) (emit (EvHttpGet MainGo.priceURL) w)).
  pose proof (fillChanges_world changeData ∅ w2) as Hworld.
  destruct (MainGo.fillChanges changeData ∅ w2) as [changes w3].
  cbn [snd] in *. now subst w3.
Qed.

Lemma imageExists_files (w w' : World) (filename : string) :
  files w' = files w -> imageExists w' filename = imageExists w filename.
Proof. unfold imageExists, osStat. now intros ->. Qed.


Lemma imageExists_writeFile_kept (path content : string) (w : World) (filename : string) :
  imageExists w filename = true ->
  imageExists (writeFile path content w) filename = true.
Proof.
  unfold imageExists, osStat. cbn [writeFile files].
  destruct (decide (path = "images/" +:+ filename)) as [->|Hne].
  - now rewrite lookup_insert_eq.
  - now rewrite lookup_insert_ne.
Qed.





(** *** Nothing removes a cached image *)

Lemma imagesKept_refl w : imagesKept w w.
Proof. intros filename. auto. Qed.

Lemma imagesKept_trans w1 w2 w3 :
  imagesKept w1 w2 -> imagesKept w2 w3 -> imagesKept w1 w3.
Proof. intros H12 H23 filename Hex. auto. Qed.

Lemma imagesKept_emit e w : imagesKept w (emit e w).
Proof. intros filename. auto. Qed.

Lemma imagesKept_downloadImage env url filename w :
  imagesKept w (downloadImage env url filename w).
Proof.
  intros f Hex. unfold downloadImage.
  destruct (imageGet env url); [destruct (mkdirAllFails env)|];
    [| destruct (createFails env _); [|destruct (copyFails env _)] |];
    rewrite ?imageExists_emit, ?imageExists_mkdirAll, ?imageExists_emit; try exact Hex.
  - apply imageExists_writeFile_kept. now rewrite imageExists_mkdirAll, imageExists_emit.
  - apply imageExists_writeFile_kept. now rewrite imageExists_mkdirAll, imageExists_emit.
Qed.

Lemma imagesKept_ensureImage env url filename w :
  imagesKept w (ensureImage env url filename w).
Proof.
  unfold ensureImage. destruct (imageExists w filename); cbn [negb].
  - apply imagesKept_refl.
  - apply imagesKept_downloadImage.
Qed.

Lemma Part000_onItem_world env w allResults div :
  (Part000.onItem env (w, allResults) div).1 =
  if hasName div then
    emit EvMutexUnlock (emit EvMutexLock
      (if nonEmpty (blockImgSrc div)
       then ensureImage env (blockImgSrc div) (imageFilenameOf (blockName div)) w
       else w))
  else w.
Proof.
  unfold Part000.onItem, hasName, setPrice, setChange24h. cbn [Name Image].
  destruct (nonEmpty (blockName div)); [|reflexivity].
  destruct (nonEmpty (blockImgSrc div)); reflexivity.
Qed.

Lemma MainGo_onItem_world `{UnicodeTables} env c prices changes w allResults div :
  (MainGo.onItem env c prices changes (w, allResults) div).1 =
  if hasName div then
    emit EvMutexUnlock (emit EvMutexLock
      (if nonEmpty (blockImgSrc div)
       then ensureImage env (blockImgSrc div) (imageFilenameOf (blockName div)) w
       else w))
  else w.
Proof.
  unfold MainGo.onItem, hasName, setPrice, setChange24h. cbn [Name Image].
  destruct (nonEmpty (blockName div)); [|reflexivity].
  destruct (nonEmpty (blockImgSrc div)); reflexivity.
Qed.

Lemma imagesKept_item env div w :
  imagesKept w
    (if hasName div then
       emit EvMutexUnlock (emit EvMutexLock
         (if nonEmpty (blockImgSrc div)
          then ensureImage env (blockImgSrc div) (imageFilenameOf (blockName div)) w
          else w))
     else w).
Proof.
  destruct (hasName div); [|apply imagesKept_refl].
  intros filename Hex. rewrite !imageExists_emit.
  destruct (nonEmpty (blockImgSrc div)); [|exact Hex].
  now apply imagesKept_ensureImage.
Qed.

Lemma imagesKept_Part000_fold env blocks w allResults :
  imagesKept w (fold_left (Part000.onItem env) blocks (w, allResults)).1.
Proof.
  revert w allResults. induction blocks as [|div blocks IH]; intros w allResults.
  - apply imagesKept_refl.
  - cbn [fold_left].
    pose proof (Part000_onItem_world env w allResults div) as Hw.
    destruct (Part000.onItem env (w, allResults) div) as [w1 results].
    cbn [fst] in Hw. eapply imagesKept_trans; [|apply IH].
    rewrite Hw. apply imagesKept_item.
Qed.

Lemma imagesKept_MainGo_fold `{UnicodeTables} env c prices changes blocks w allResults :
  imagesKept w (fold_left (MainGo.onItem env c prices changes) blocks (w, allResults)).1.
Proof.
  revert w allResults. induction blocks as [|div blocks IH]; intros w allResults.
  - apply imagesKept_refl.
  - cbn [fold_left].
    pose proof (MainGo_onItem_world env c prices changes w allResults div) as Hw.
    destruct (MainGo.onItem env c prices changes (w, allResults) div) as [w1 results].
    cbn [fst] in Hw. eapply imagesKept_trans; [|apply IH].
    rewrite Hw. apply imagesKept_item.
Qed.

Lemma imagesKept_Part000_visit env w : imagesKept w (Part000.visit env w).1.
Proof.
  unfold Part000.visit. destruct (rankingPage env).
  - apply imagesKept_Part000_fold.
  - intros filename Hex. exact Hex.
Qed.

Lemma imagesKept_update env prior w :
  imagesKept w (Part000.updateDataFromBinance env prior w).1.
Proof.
  unfold Part000.updateDataFromBinance.
  pose proof (imagesKept_Part000_visit env w) as Hvisit.
  destruct (Part000.visit env w) as [w1 allResults]. cbn [fst] in Hvisit.
  destruct (categorizedLiteral (categorizeResults allResults)); exact Hvisit.
Qed.

Lemma imagesKept_regularly cycles prior w :
  imagesKept w (Part000.updateDataRegularly cycles prior w).1.
Proof.
  revert prior w. induction cycles as [|env cycles IH]; intros prior w.
  - apply imagesKept_refl.
  - cbn [Part000.updateDataRegularly].
    pose proof (imagesKept_update env prior w) as Hcycle.
    destruct (Part000.updateDataFromBinance env prior w) as [w1 [s|p]]; cbn [fst] in Hcycle.
    + eapply imagesKept_trans; [exact Hcycle|apply IH].
    + exact Hcycle.
Qed.

Lemma imagesKept_getPrices env w : imagesKept w (MainGo.getPricesAndChanges env w).2.
Proof.
  intros filename Hex.
  rewrite (imageExists_files w); [exact Hex|].
  apply (getPricesAndChanges_files env w).
Qed.

(** X14.  Nothing the programs do removes a cached image: a file that
    [imageExists] finds before any number of refresh cycles, or before a
    request to main.go, is found after them, however the downloads and
    the cycles end. *)
Theorem cached_images_are_kept `{UnicodeTables} (filename : string) (w : World) :
  imageExists w filename = true ->
  (forall cycles prior,
     imageExists (Part000.updateDataRegularly cycles prior w).1 filename = true)
  /\ (forall env c, imageExists (MainGo.handleRequest env c w).1 filename = true).
Proof.
  intros Hex. split.
  - intros cycles prior. now apply imagesKept_regularly.
  - intros env c. unfold MainGo.handleRequest.
    pose proof (imagesKept_getPrices env w filename Hex) as H1.
    destruct (MainGo.getPricesAndChanges env w) as [[prices changes] w1]. cbn [snd] in H1.
    unfold MainGo.visit. destruct (rankingPage env) as [containers|].
    + pose proof (imagesKept_MainGo_fold env c prices changes (concat containers) w1 []
                    filename H1) as H2.
      destruct (fold_left _ _ _) as [w2 allResults]. cbn [fst] in H2.
      now destruct (categorizedLiteral (categorizeResults allResults)).
    + exact H1.
Qed.

(** ** The refresh cycle of part_000, event by event *)

Lemma fetchesUnderLock_app held t1 t2 :
  fetchesUnderLock held (t1 ++ t2) =
  fetchesUnderLock held t1 + fetchesUnderLock (mutexHeldAfter held t1) t2.
Proof.
  revert held. induction t1 as [|e t1 IH]; intros held; [reflexivity|].
  destruct e; cbn [app fetchesUnderLock]; rewrite IH;
    unfold mutexHeldAfter; cbn [fold_left]; lia.
Qed.

Lemma downloadImage_events env url filename w :
  exists logs, trace (downloadImage env url filename w) =
               trace w ++ EvHttpGet url :: map EvLog logs.
Proof.
  unfold downloadImage.
  destruct (imageGet env url); [destruct (mkdirAllFails env)|];
    [| destruct (createFails env _); [|destruct (copyFails env _)] |];
    repeat first [rewrite emit_trace | rewrite writeFile_trace | rewrite mkdirAll_trace];
    rewrite <- ?app_assoc.
  - now exists [LogCreatingDirectory].
  - now exists [LogCreatingFile].
  - now exists [LogWritingImage].
  - now exists [].
  - now exists [LogDownloadingImage url].
Qed.

Lemma Tally_nil : Tally [] 0 0.
Proof. split; cbn; auto. Qed.

Lemma Tally_app evs1 evs2 l1 l2 f1 f2 :
  Tally evs1 l1 f1 -> Tally evs2 l2 f2 -> Tally (evs1 ++ evs2) (l1 + l2) (f1 + f2).
Proof.
  intros [A1 B1 C1 D1 E1 F1] [A2 B2 C2 D2 E2 F2]. split.
  - now rewrite mutexHeldAfter_app, A1.
  - now rewrite fetchesUnderLock_app, A1, B1, B2.
  - now rewrite unguardedAccesses_app, A1, C1, C2.
  - rewrite List.filter_app, length_app. lia.
  - rewrite List.filter_app, length_app. lia.
  - rewrite httpGets_app. lia.
Qed.

Lemma Tally_weaken evs l f f' : f <= f' -> Tally evs l f -> Tally evs l f'.
Proof. intros Hle [A B C D E F]. split; auto. lia. Qed.

Lemma Tally_logs logs : Tally (map EvLog logs) 0 0.
Proof.
  induction logs as [|m logs [A B C D E F]]; [apply Tally_nil|].
  split; cbn; auto.
Qed.

Lemma Tally_fetch url logs : Tally (EvHttpGet url :: map EvLog logs) 0 1.
Proof.
  destruct (Tally_logs logs) as [A B C D E F].
  split; cbn; auto. unfold httpGets in *. cbn. lia.
Qed.

Lemma Tally_critical : Tally [EvMutexLock; EvMutexUnlock] 1 0.
Proof. split; cbn; auto. Qed.

Lemma ensureImage_tally env url filename w :
  exists evs, trace (ensureImage env url filename w) = trace w ++ evs /\ Tally evs 0 1.
Proof.
  unfold ensureImage. destruct (imageExists w filename); cbn [negb].
  - exists []. split; [now rewrite app_nil_r|].
    apply (Tally_weaken [] 0 0 1); [lia|apply Tally_nil].
  - destruct (downloadImage_events env url filename w) as (logs & Hlogs).
    eexists. split; [exact Hlogs|apply Tally_fetch].
Qed.

Lemma item_tally env div w :
  exists evs,
    trace (if hasName div then
             emit EvMutexUnlock (emit EvMutexLock
               (if nonEmpty (blockImgSrc div)
                then ensureImage env (blockImgSrc div) (imageFilenameOf (blockName div)) w
                else w))
           else w) = trace w ++ evs
    /\ Tally evs (if hasName div then 1 else 0) (if needsImage div then 1 else 0).
Proof.
  unfold needsImage. destruct (hasName div); cbn [andb].
  - destruct (nonEmpty (blockImgSrc div)).
    + destruct (ensureImage_tally env (blockImgSrc div)
                  (imageFilenameOf (blockName div)) w) as (evs & Hevs & Htally).
      exists (evs ++ [EvMutexLock; EvMutexUnlock]). split.
      * rewrite !emit_trace, Hevs. now rewrite <- !app_assoc.
      * apply (Tally_app evs _ 0 1 1 0 Htally Tally_critical).
    + exists [EvMutexLock; EvMutexUnlock]. split.
      * rewrite !emit_trace. now rewrite <- !app_assoc.
      * apply Tally_critical.
  - exists []. split; [now rewrite app_nil_r|apply Tally_nil].
Qed.

Lemma Part000_fold_tally env blocks w allResults :
  exists evs,
    trace (fold_left (Part000.onItem env) blocks (w, allResults)).1 = trace w ++ evs
    /\ Tally evs (length (List.filter hasName blocks))
         (length (List.filter needsImage blocks)).
Proof.
  revert w allResults. induction blocks as [|div blocks IH]; intros w allResults.
  - exists []. split; [now rewrite app_nil_r|apply Tally_nil].
  - cbn [fold_left List.filter].
    pose proof (Part000_onItem_world env w allResults div) as Hw.
    destruct (Part000.onItem env (w, allResults) div) as [w1 results]. cbn [fst] in Hw.
    destruct (item_tally env div w) as (evs1 & H1 & T1). rewrite <- Hw in H1.
    destruct (IH w1 results) as (evs2 & H2 & T2).
    exists (evs1 ++ evs2). split; [now rewrite H2, H1, app_assoc|].
    pose proof (Tally_app _ _ _ _ _ _ T1 T2) as T.
    destruct (hasName div), (needsImage div); exact T.
Qed.

(** X15.  In a refresh cycle that finds the page, the mutex is taken once
    for every named item block and released each time, no [http.Get] is
    made while it is held, and at most one image is fetched for every
    named block that has an image address. *)
Theorem cycle_locks_and_fetches (env : Env) (w : World) (containers : list (list Block)) :
  rankingPage env = VisitOk containers ->
  exists evs,
    trace (Part000.visit env w).1 = trace w ++ evs
    /\ length (List.filter isMutexLock evs) = length (List.filter hasName (concat containers))
    /\ length (List.filter isMutexUnlock evs) =
       length (List.filter hasName (concat containers))
    /\ mutexHeldAfter false evs = false
    /\ fetchesUnderLock false evs = 0
    /\ httpGets evs <= length (List.filter needsImage (concat containers)).
Proof.
  intros Hpage. unfold Part000.visit. rewrite Hpage.
  destruct (Part000_fold_tally env (concat containers) w []) as (evs & Hevs & [A B C D E F]).
  exists evs. now split_and!.
Qed.

(** *** What a cycle stores *)

Lemma update_result env prior w :
  (Part000.updateDataFromBinance env prior w).2 =
  match categorizedLiteral
          (categorizeResults (map scrapedEntry (List.filter hasName (pageBlocks env)))) with
  | Returned m => Returned (Some m)
  | Panicked p => Panicked p
  end.
Proof.
  unfold Part000.updateDataFromBinance.
  pose proof (Part000_visit_results env w) as Hres.
  destruct (Part000.visit env w) as [w1 allResults]. cbn [snd] in Hres. subst allResults.
  now destruct (categorizedLiteral _).
Qed.

(** X16.  What a refresh cycle stores, or the panic that ends it, is
    decided by the ranking page alone: the map stored before, the files
    present and the fate of the image downloads have no part in it. *)
Theorem cycle_result_from_page (env env' : Env) (prior prior' : Part000.Snapshot)
    (w w' : World) :
  rankingPage env = rankingPage env' ->
  (Part000.updateDataFromBinance env prior w).2 =
  (Part000.updateDataFromBinance env' prior' w').2.
Proof.
  intros Hpage. rewrite !update_result. unfold pageBlocks. now rewrite Hpage.
Qed.

(** X17.  An entry's image address is rewritten to the local address even
    when the image could not be stored: after a download that creates no
    file, the entry of part_000 points to
    [http://localhost:8080/images/<file>] while no such file exists. *)
Theorem image_address_without_file (env : Env) (w : World)
    (allResults : list CryptoInfo) (div : Block) :
  nonEmpty (blockName div) = true ->
  nonEmpty (blockImgSrc div) = true ->
  imageExists w (imageFilenameOf (blockName div)) = false ->
  downloadCreatesFile env (blockImgSrc div) (imageFilenameOf (blockName div)) = false ->
  exists info,
    (Part000.onItem env (w, allResults) div).2 = allResults ++ [info]
    /\ Image info = "http://localhost:8080/images/" +:+ imageFilenameOf (blockName div)
    /\ imageExists (Part000.onItem env (w, allResults) div).1
         (imageFilenameOf (blockName div)) = false.
Proof.
  intros Hname Himg Hmiss Hfail.
  rewrite Part000_onItem_results, Part000_onItem_world. unfold hasName.
  rewrite Hname, Himg. eexists. split; [reflexivity|]. split.
  - unfold scrapedEntry. cbn [Image]. now rewrite Himg.
  - rewrite !imageExists_emit, (ensureImage_miss _ _ _ _ Hmiss).
    now rewrite downloadImage_exists.
Qed.

(** *** The cache from cycle to cycle *)

Lemma warm_item env div w :
  (needsImage div = true -> imageExists w (imageFilenameOf (blockName div)) = true) ->
  let w1 := if hasName div then
              emit EvMutexUnlock (emit EvMutexLock
                (if nonEmpty (blockImgSrc div)
                 then ensureImage env (blockImgSrc div) (imageFilenameOf (blockName div)) w
                 else w))
            else w in
  files w1 = files w /\ httpGets (trace w1) = httpGets (trace w).
Proof.
  unfold needsImage. intros Hwarm. cbn zeta.
  destruct (hasName div); [|split; reflexivity]. cbn [andb] in Hwarm.
  destruct (nonEmpty (blockImgSrc div)).
  - rewrite (ensureImage_hit _ _ _ _ (Hwarm eq_refl)).
    split; [reflexivity|]. rewrite !emit_trace, !httpGets_app. cbn. lia.
  - split; [reflexivity|]. rewrite !emit_trace, !httpGets_app. cbn. lia.
Qed.

Lemma Part000_fold_warm env blocks w allResults :
  (forall div, In div blocks -> needsImage div = true ->
     imageExists w (imageFilenameOf (blockName div)) = true) ->
  let w1 := (fold_left (Part000.onItem env) blocks (w, allResults)).1 in
  files w1 = files w /\ httpGets (trace w1) = httpGets (trace w).
Proof.
  revert w allResults. induction blocks as [|div blocks IH]; intros w allResults Hwarm.
  - split; reflexivity.
  - cbn zeta. cbn [fold_left].
    pose proof (Part000_onItem_world env w allResults div) as Hw.
    destruct (Part000.onItem env (w, allResults) div) as [w1 results]. cbn [fst] in Hw.
    destruct (warm_item env div w (Hwarm div (or_introl eq_refl))) as [Hf Hg].
    rewrite <- Hw in Hf, Hg.
    destruct (IH w1 results) as [Hf' Hg'].
    { intros div' Hin Hneeds. rewrite (imageExists_files w); [|exact Hf].
      apply Hwarm; [now right|exact Hneeds]. }
    split; [now rewrite Hf', Hf|now rewrite Hg', Hg].
Qed.

Lemma update_world env prior w :
  files (Part000.updateDataFromBinance env prior w).1 = files (Part000.visit env w).1
  /\ httpGets (trace (Part000.updateDataFromBinance env prior w).1) =
     httpGets (trace (Part000.visit env w).1).
Proof.
  unfold Part000.updateDataFromBinance.
  destruct (Part000.visit env w) as [w1 allResults].
  destruct (categorizedLiteral (categorizeResults allResults)); cbn [fst].
  - split; [reflexivity|]. rewrite emit_trace, httpGets_app. cbn. lia.
  - split; reflexivity.
Qed.

Lemma visit_warm env w :
  (forall div, In div (pageBlocks env) -> needsImage div = true ->
     imageExists w (imageFilenameOf (blockName div)) = true) ->
  files (Part000.visit env w).1 = files w
  /\ httpGets (trace (Part000.visit env w).1) = httpGets (trace w).
Proof.
  unfold Part000.visit, pageBlocks. intros Hwarm.
  destruct (rankingPage env) as [containers|].
  - now apply Part000_fold_warm.
  - cbn [fst]. split; [reflexivity|]. rewrite !emit_trace, !httpGets_app. cbn. lia.
Qed.

(** X18.  A refresh cycle whose images are all in the cache already
    fetches nothing and leaves the file system as it was. *)
Theorem warm_cycle_fetches_nothing (env : Env) (prior : Part000.Snapshot) (w : World) :
  (forall div, In div (pageBlocks env) -> needsImage div = true ->
     imageExists w (imageFilenameOf (blockName div)) = true) ->
  let w1 := (Part000.updateDataFromBinance env prior w).1 in
  files w1 = files w /\ httpGets (trace w1) = httpGets (trace w).
Proof.
  intros Hwarm. cbn zeta.
  destruct (update_world env prior w) as [Hf Hg].
  destruct (visit_warm env w Hwarm) as [Hf' Hg'].
  split; congruence.
Qed.




(** ** updateDataRegularly over many cycles *)

Lemma regularly_app (cycles1 cycles2 : list Env) (prior : Part000.Snapshot) (w : World) :
  Part000.updateDataRegularly (cycles1 ++ cycles2) prior w =
  match Part000.updateDataRegularly cycles1 prior w with
  | (w1, Part000.Running s) => Part000.updateDataRegularly cycles2 s w1
  | (w1, Part000.Crashed p) => (w1, Part000.Crashed p)
  end.
Proof.
  revert prior w. induction cycles1 as [|env cycles1 IH]; intros prior w; [reflexivity|].
  cbn [app Part000.updateDataRegularly].
  destruct (Part000.updateDataFromBinance env prior w) as [w1 [s|p]]; [apply IH|reflexivity].
Qed.

Lemma update_returns_iff env prior w :
  (31 <= length (List.filter hasName (pageBlocks env)) ->
     exists m,
       (Part000.updateDataFromBinance env prior w).2 = Returned (Some m)
       /\ categorizedLiteral
            (categorizeResults (map scrapedEntry (List.filter hasName (pageBlocks env)))) =
          Returned m)
  /\ (length (List.filter hasName (pageBlocks env)) < 31 ->
     exists p, (Part000.updateDataFromBinance env prior w).2 = Panicked p).
Proof.
  rewrite update_result. split; intros Hlen.
  - destruct (categorizedLiteral_of_entries
                (map scrapedEntry (List.filter hasName (pageBlocks env))))
      as (m & Hm & _); [now rewrite length_map|].
    rewrite Hm. now exists m.
  - rewrite categorizedLiteral_short; [now eexists|].
    apply categorizeResults_short. now rewrite length_map.
Qed.

Lemma regularly_all_enough cycles prior w :
  Forall (fun env => 31 <= length (List.filter hasName (pageBlocks env))) cycles ->
  exists s, (Part000.updateDataRegularly cycles prior w).2 = Part000.Running s.
Proof.
  revert prior w. induction cycles as [|env cycles IH]; intros prior w Hall.
  - now exists prior.
  - inversion Hall as [|? ? Henv Hrest]; subst. cbn [Part000.updateDataRegularly].
    destruct (proj1 (update_returns_iff env prior w) Henv) as (m & Hm & _).
    destruct (Part000.updateDataFromBinance env prior w) as [w1 r]. cbn [snd] in Hm.
    subst r. now apply IH.
Qed.

(** X20.  The process outlives a sequence of refresh cycles exactly when
    every page has at least 31 named item blocks.  The first page with
    fewer ends it, and the cycles after that one never run.  While it
    lives, the map it serves is the one built from the page of the last
    cycle alone. *)
Theorem process_survives_full_pages (cycles : list Env) (prior : Part000.Snapshot)
    (w : World) :
  (Forall (fun env => 31 <= length (List.filter hasName (pageBlocks env))) cycles ->
     exists s, (Part000.updateDataRegularly cycles prior w).2 = Part000.Running s)
  /\ (forall before env after,
        cycles = before ++ env :: after ->
        Forall (fun env => 31 <= length (List.filter hasName (pageBlocks env))) before ->
        length (List.filter hasName (pageBlocks env)) < 31 ->
        (exists p, (Part000.updateDataRegularly cycles prior w).2 = Part000.Crashed p)
        /\ Part000.updateDataRegularly cycles prior w =
           Part000.updateDataRegularly (before ++ [env]) prior w)
  /\ (forall before env s,
        cycles = before ++ [env] ->
        (Part000.updateDataRegularly cycles prior w).2 = Part000.Running s ->
        exists m,
          s = Some m
          /\ categorizedLiteral
               (categorizeResults (map scrapedEntry (List.filter hasName (pageBlocks env)))) =
             Returned m).
Proof.
  split_and!.
  - apply regularly_all_enough.
  - intros before env after -> Hbefore Hshort.
    rewrite !regularly_app.
    destruct (regularly_all_enough before prior w Hbefore) as (s & Hs).
    destruct (Part000.updateDataRegularly before prior w) as [w1 out]. cbn [snd] in Hs.
    subst out. cbn [Part000.updateDataRegularly].
    destruct (proj2 (update_returns_iff env s w1) Hshort) as (p & Hp).
    destruct (Part000.updateDataFromBinance env s w1) as [w2 r]. cbn [snd] in Hp. subst r.
    split; [now exists p|reflexivity].
  - intros before env s -> Hrun. rewrite regularly_app in Hrun.
    destruct (Part000.updateDataRegularly before prior w) as [w1 [s1|p]];
      [|discriminate Hrun].
    cbn [Part000.updateDataRegularly] in Hrun.
    pose proof (update_result env s1 w1) as Hres.
    destruct (Part000.updateDataFromBinance env s1 w1) as [w2 [s2|p]];
      cbn [snd] in Hres, Hrun; [|discriminate Hrun].
    injection Hrun as ->.
    destruct (categorizedLiteral _) as [m|p]; [|discriminate Hres].
    injection Hres as ->. now exists m.
Qed.

(** X21.  Let the statements of a refresh cycle and of any number of
    requests run interleaved in any order, each statement as one step.
    Then every request is served either the map stored before the cycle
    or the map built from the whole page, never a part of it; and the
    steps of the cycle taken alone are [updateDataFromBinance]. *)
Theorem interleaved_requests_see_whole_maps (env : Env) (prior : Part000.Snapshot)
    (w : World) (schedule : list Part000.Turn) :
  Forall (wholeMap env prior)
    (Part000.served (Part000.run env schedule (Part000.startCycle env prior w)))
  /\ Part000.run env (repeat Part000.Refresher (S (length (pageBlocks env))))
       (Part000.startCycle env prior w) =
     match Part000.updateDataFromBinance env prior w with
     | (w1, Returned categorizedResults) =>
         Part000.mkMachine categorizedResults Part000.Stored w1 []
     | (w1, Panicked p) => Part000.mkMachine prior (Part000.Aborted p) w1 []
     end.
Proof.
  split.
  - apply run_invariant, startCycle_invariant.
  - apply run_refresher_alone.
Qed.

(** ** Symbols and file names *)

Lemma upperByte_not_lower (c : ascii) : isLowerLetter (upperByte c) = false.
Proof. destruct c as [[] [] [] [] [] [] [] []]; reflexivity. Qed.

Lemma upperByte_below (c : ascii) :
  belowRuneSelf c = true -> belowRuneSelf (upperByte c) = true.
Proof. destruct c as [[] [] [] [] [] [] [] []]; intros Hc; try reflexivity; discriminate Hc. Qed.

Lemma upperByte_fixed (c : ascii) : isLowerLetter c = false -> upperByte c = c.
Proof. unfold upperByte. now intros ->. Qed.

Lemma mapBytes_upper_fixed (s : string) :
  anyByte isLowerLetter s = false -> mapBytes upperByte s = s.
Proof.
  induction s as [|c s IH]; [reflexivity|]. cbn [anyByte mapBytes].
  intros Hs. apply orb_false_iff in Hs as [Hc Hs].
  now rewrite upperByte_fixed, IH.
Qed.

Lemma mapBytes_upper_no_lower (s : string) :
  anyByte isLowerLetter (mapBytes upperByte s) = false.
Proof.
  induction s as [|c s IH]; [reflexivity|]. cbn [anyByte mapBytes].
  now rewrite upperByte_not_lower, IH.
Qed.

Lemma mapBytes_upper_below (s : string) :
  allBytes belowRuneSelf s = true -> allBytes belowRuneSelf (mapBytes upperByte s) = true.
Proof.
  induction s as [|c s IH]; [reflexivity|]. cbn [allBytes mapBytes].
  intros Hs. apply andb_true_iff in Hs as [Hc Hs].
  now rewrite upperByte_below, IH.
Qed.

Lemma mapBytes_length (f : ascii -> ascii) (s : string) :
  String.length (mapBytes f s) = String.length s.
Proof. induction s as [|c s IH]; [reflexivity|]. cbn. now rewrite IH. Qed.

Lemma ToUpper_ascii `{UnicodeTables} (s : string) :
  allBytes belowRuneSelf s = true -> ToUpper s = mapBytes upperByte s.
Proof.
  intros Hs. unfold ToUpper. rewrite Hs.
  destruct (anyByte isLowerLetter s) eqn:Hlow; [reflexivity|].
  now rewrite mapBytes_upper_fixed.
Qed.

(** X22.  On a name of ASCII bytes [strings.ToUpper] needs no Unicode
    table: the result has the same length, is ASCII, has no lower-case
    letter left, and is left as it is by a second application.  Two such
    names that differ in the case of their letters only have the same
    symbol, and so are joined to the same price. *)
Theorem symbol_ignores_ascii_case `{UnicodeTables} (name : string)
    (prices : gmap string string) :
  allBytes belowRuneSelf name = true ->
  String.length (ToUpper name) = String.length name
  /\ allBytes belowRuneSelf (ToUpper name) = true
  /\ anyByte isLowerLetter (ToUpper name) = false
  /\ ToUpper (ToUpper name) = ToUpper name
  /\ (forall name',
        allBytes belowRuneSelf name' = true ->
        mapBytes upperByte name' = mapBytes upperByte name ->
        symbolOf name' = symbolOf name
        /\ mapIndex prices (symbolOf name') = mapIndex prices (symbolOf name)).
Proof.
  intros Hascii. rewrite (ToUpper_ascii name Hascii). split_and!.
  - apply mapBytes_length.
  - now apply mapBytes_upper_below.
  - apply mapBytes_upper_no_lower.
  - rewrite ToUpper_ascii by now apply mapBytes_upper_below.
    apply mapBytes_upper_fixed, mapBytes_upper_no_lower.
  - intros name' Hascii' Hsame.
    assert (Hsym : symbolOf name' = symbolOf name).
    { unfold symbolOf. now rewrite !ToUpper_ascii, Hsame by assumption. }
    split; [exact Hsym|now rewrite Hsym].
Qed.

Lemma append_length (a b : string) :
  String.length (a +:+ b) = String.length a + String.length b.
Proof.
  induction a as [|x a IH]; [reflexivity|].
  change (S (String.length (a +:+ b)) = S (String.length a + String.length b)).
  now rewrite IH.
Qed.

Lemma append_cancel_r (a b c : string) : a +:+ c = b +:+ c -> a = b.
Proof.
  intros Heq.
  assert (Hlen : String.length a = String.length b).
  { apply (f_equal String.length) in Heq. rewrite !append_length in Heq. lia. }
  revert b Heq Hlen. induction a as [|x a IH]; intros [|y b] Heq Hlen;
    cbn [String.length] in Hlen; try discriminate Hlen; [reflexivity|].
  change (String x (a +:+ c) = String y (b +:+ c)) in Heq.
  injection Heq as -> Heq. f_equal. apply IH; [exact Heq|lia].
Qed.

Lemma ReplaceAllSpaces_no_space (s : string) :
  anyByte isSpace (ReplaceAllSpaces s) = false.
Proof.
  induction s as [|c s IH]; [reflexivity|].
  unfold ReplaceAllSpaces in *. cbn [mapBytes anyByte]. rewrite IH.
  unfold isSpace. destruct (Ascii.eqb c " ") eqn:Hc; [reflexivity|].
  now rewrite Hc.
Qed.

Lemma ReplaceAllSpaces_fixed (s : string) :
  anyByte isSpace s = false -> ReplaceAllSpaces s = s.
Proof.
  induction s as [|c s IH]; [reflexivity|].
  unfold ReplaceAllSpaces in *. cbn [mapBytes anyByte]. unfold isSpace at 1.
  intros Hs. apply orb_false_iff in Hs as [Hc Hs]. now rewrite Hc, IH.
Qed.

Lemma anyByte_append (p : ascii -> bool) (a b : string) :
  anyByte p (a +:+ b) = anyByte p a || anyByte p b.
Proof.
  induction a as [|x a IH]; [reflexivity|].
  change (anyByte p (String x (a +:+ b)) = anyByte p (String x a) || anyByte p b).
  cbn [anyByte]. now rewrite IH, orb_assoc.
Qed.

(** X23.  The file name of an image never holds a space.  A name without
    spaces keeps its bytes and gets ".jpg" appended, so two such names
    have different files; a name and the same name with its spaces
    written as underscores have the same file, so once the image of one
    is stored the image of the other is never fetched. *)
Theorem image_file_names (name : string) :
  anyByte isSpace (imageFilenameOf name) = false
  /\ (anyByte isSpace name = false -> imageFilenameOf name = name +:+ ".jpg")
  /\ (forall name',
        anyByte isSpace name = false -> anyByte isSpace name' = false ->
        imageFilenameOf name = imageFilenameOf name' -> name = name')
  /\ imageFilenameOf (ReplaceAllSpaces name) = imageFilenameOf name
  /\ (forall env url w,
        imageExists w (imageFilenameOf name) = true ->
        ensureImage env url (imageFilenameOf (ReplaceAllSpaces name)) w = w).
Proof.
  assert (Hidem : imageFilenameOf (ReplaceAllSpaces name) = imageFilenameOf name).
  { unfold imageFilenameOf.
    now rewrite (ReplaceAllSpaces_fixed _ (ReplaceAllSpaces_no_space name)). }
  split_and!.
  - unfold imageFilenameOf. rewrite anyByte_append, ReplaceAllSpaces_no_space. reflexivity.
  - intros Hname. unfold imageFilenameOf. now rewrite ReplaceAllSpaces_fixed.
  - intros name' Hname Hname'. unfold imageFilenameOf.
    rewrite !ReplaceAllSpaces_fixed by assumption. apply append_cancel_r.
  - exact Hidem.
  - intros env url w Hex. rewrite Hidem. now apply ensureImage_hit.
Qed.

(** ** formatChange on its own output *)

Lemma allBytes_append (p : ascii -> bool) (a b : string) :
  allBytes p (a +:+ b) = allBytes p a && allBytes p b.
Proof.
  induction a as [|x a IH]; [reflexivity|].
  change (allBytes p (String x (a +:+ b)) = allBytes p (String x a) && allBytes p b).
  cbn [allBytes]. now rewrite IH, andb_assoc.
Qed.

Lemma numericByte_digit (c : ascii) : isDigit c = true -> numericByte c = true.
Proof. unfold numericByte. now intros ->. Qed.

Lemma numericByte_hexLetter (c : ascii) : isHexLetter c = true -> numericByte c = true.
Proof. destruct c as [[] [] [] [] [] [] [] []]; intros Hc; try reflexivity; discriminate Hc. Qed.

Lemma numericByte_lower_letter (c p : ascii) :
  isLowerLetter p = true -> lower c = p -> numericByte c = true.
Proof.
  intros Hp <-. revert Hp.
  destruct c as [[] [] [] [] [] [] [] []]; intros Hc; try reflexivity; discriminate Hc.
Qed.

Lemma numericByte_folded (c : ascii) :
  isLowerLetter (foldUpper c) = true -> numericByte c = true.
Proof. destruct c as [[] [] [] [] [] [] [] []]; intros Hc; try reflexivity; discriminate Hc. Qed.

Lemma takesNumeric_refl (s : string) : takesNumeric s s.
Proof. now exists "". Qed.

Lemma takesNumeric_step (c : ascii) (s rest : string) :
  numericByte c = true -> takesNumeric s rest -> takesNumeric (String c s) rest.
Proof.
  intros Hc (pre & -> & Hpre). exists (String c pre). split; [reflexivity|].
  cbn [allBytes]. now rewrite Hc, Hpre.
Qed.

Lemma takesNumeric_trans (s t rest : string) :
  takesNumeric s t -> takesNumeric t rest -> takesNumeric s rest.
Proof.
  intros (p1 & -> & H1) (p2 & -> & H2). exists (p1 +:+ p2). split.
  - now rewrite append_assoc.
  - now rewrite allBytes_append, H1, H2.
Qed.

Lemma takesNumeric_all (s : string) : takesNumeric s "" -> allBytes numericByte s = true.
Proof.
  intros (pre & -> & Hpre). now rewrite allBytes_append, Hpre.
Qed.

Lemma readDigits_takes (base : Z) (s : string) (st : Digits) :
  takesNumeric s (readDigits base s st).2.
Proof.
  revert st. induction s as [|c s IH]; intros st; [apply takesNumeric_refl|].
  cbn [readDigits].
  destruct (Ascii.eqb c "_") eqn:Hus.
  { apply takesNumeric_step; [|apply IH]. apply Ascii.eqb_eq in Hus. now subst c. }
  destruct (Ascii.eqb c ".") eqn:Hdot.
  { destruct (sawdot st); [apply takesNumeric_refl|].
    apply takesNumeric_step; [|apply IH]. apply Ascii.eqb_eq in Hdot. now subst c. }
  destruct (isDigit c) eqn:Hdig.
  { destruct (Ascii.eqb c "0" && (nd st =? 0)%Z);
      (apply takesNumeric_step; [now apply numericByte_digit|apply IH]). }
  destruct ((base =? 16)%Z && isHexLetter c) eqn:Hhex; [|apply takesNumeric_refl].
  apply andb_true_iff in Hhex as [_ Hhex].
  apply takesNumeric_step; [now apply numericByte_hexLetter|apply IH].
Qed.

Lemma readExponentDigits_takes (s : string) (e : Z) (us : bool) :
  takesNumeric s (readExponentDigits s e us).2.
Proof.
  revert e us. induction s as [|c s IH]; intros e us; [apply takesNumeric_refl|].
  cbn [readExponentDigits].
  destruct (Ascii.eqb c "_") eqn:Hus.
  { apply takesNumeric_step; [|apply IH]. apply Ascii.eqb_eq in Hus. now subst c. }
  destruct (isDigit c) eqn:Hdig; [|apply takesNumeric_refl].
  apply takesNumeric_step; [now apply numericByte_digit|apply IH].
Qed.

Lemma readExponent_takes (base : Z) (s : string) (dp dp' : Z) (us : bool) (rest : string) :
  readExponent base s dp = Some (dp', us, rest) -> takesNumeric s rest.
Proof.
  intros Hread. unfold readExponent in Hread.
  destruct s as [|c r].
  { destruct (base =? 16)%Z; [discriminate Hread|].
    injection Hread as _ _ <-. apply takesNumeric_refl. }
  destruct (Ascii.eqb (lower c) (if (base =? 16)%Z then "p"%char else "e"%char)) eqn:Hc.
  - assert (Hnum : numericByte c = true).
    { apply Ascii.eqb_eq in Hc. eapply numericByte_lower_letter; [|exact Hc].
      now destruct (base =? 16)%Z. }
    destruct r as [|c1 r1]; [discriminate Hread|].
    assert (Hdigits : forall t esign,
      match t with
      | EmptyString => None
      | String d _ =>
          if isDigit d then
            let '(e, us, rest) := readExponentDigits t 0 false in
            Some ((dp + e * esign)%Z, us, rest)
          else None
      end = Some (dp', us, rest) -> takesNumeric t rest).
    { intros t esign Ht. destruct t as [|d t']; [discriminate Ht|].
      destruct (isDigit d); [|discriminate Ht].
      pose proof (readExponentDigits_takes (String d t') 0 false) as Htakes.
      destruct (readExponentDigits (String d t') 0 false) as [[e us'] rest'].
      injection Ht as _ _ <-. exact Htakes. }
    apply takesNumeric_step; [exact Hnum|].
    destruct (Ascii.eqb c1 "+") eqn:Hplus.
    + apply Ascii.eqb_eq in Hplus. subst c1.
      apply takesNumeric_step; [reflexivity|]. now apply (Hdigits r1 1%Z).
    + destruct (Ascii.eqb c1 "-") eqn:Hminus.
      * apply Ascii.eqb_eq in Hminus. subst c1.
        apply takesNumeric_step; [reflexivity|]. now apply (Hdigits r1 (-1)%Z).
      * now apply (Hdigits (String c1 r1) 1%Z).
  - destruct (base =? 16)%Z; [discriminate Hread|].
    injection Hread as _ _ <-. apply takesNumeric_refl.
Qed.

Lemma readFloat_takes (s : string) (r : ReadFloat) :
  readFloat s = Some r -> takesNumeric s (readRest r).
Proof.
  intros Hread. unfold readFloat in Hread.
  destruct s as [|c0 r0]; [discriminate Hread|].
  (* the sign *)
  assert (Hsign : exists neg t,
    (if Ascii.eqb c0 "+" then (false, r0)
     else if Ascii.eqb c0 "-" then (true, r0) else (false, String c0 r0)) = (neg, t)
    /\ takesNumeric (String c0 r0) t).
  { destruct (Ascii.eqb c0 "+") eqn:Hplus.
    - apply Ascii.eqb_eq in Hplus. subst c0. exists false, r0. split; [reflexivity|].
      apply takesNumeric_step; [reflexivity|apply takesNumeric_refl].
    - destruct (Ascii.eqb c0 "-") eqn:Hminus.
      + apply Ascii.eqb_eq in Hminus. subst c0. exists true, r0. split; [reflexivity|].
        apply takesNumeric_step; [reflexivity|apply takesNumeric_refl].
      + exists false, (String c0 r0). split; [reflexivity|apply takesNumeric_refl]. }
  destruct Hsign as (neg & t & Hsign & Htakes1). rewrite Hsign in Hread.
  eapply takesNumeric_trans; [exact Htakes1|]. clear Hsign Htakes1.
  (* the base prefix *)
  assert (Hbase : exists base t',
    match t with
    | String z (String x (String y r)) =>
        if Ascii.eqb z "0" && Ascii.eqb (lower x) "x"
        then (16%Z, String y r) else (10%Z, t)
    | _ => (10%Z, t)
    end = (base, t')
    /\ takesNumeric t t').
  { destruct t as [|z [|x [|y r']]];
      try (eexists _, _; split; [reflexivity|apply takesNumeric_refl]).
    destruct (Ascii.eqb z "0" && Ascii.eqb (lower x) "x") eqn:Hx.
    - apply andb_true_iff in Hx as [Hz Hx]. apply Ascii.eqb_eq in Hz, Hx. subst z.
      eexists _, _. split; [reflexivity|].
      apply takesNumeric_step; [reflexivity|].
      apply takesNumeric_step; [|apply takesNumeric_refl].
      now apply (numericByte_lower_letter x "x").
    - eexists _, _. split; [reflexivity|apply takesNumeric_refl]. }
  destruct Hbase as (base & t' & Hbase & Htakes2). rewrite Hbase in Hread.
  eapply takesNumeric_trans; [exact Htakes2|]. clear Hbase Htakes2.
  (* the digits *)
  pose proof (readDigits_takes base t' (mkDigits false false 0 0 0 false)) as Htakes3.
  destruct (readDigits base t' (mkDigits false false 0 0 0 false)) as [st t''].
  cbn [snd] in Htakes3. eapply takesNumeric_trans; [exact Htakes3|]. clear Htakes3.
  destruct (negb (sawdigits st)); [discriminate Hread|].
  (* the exponent *)
  destruct (readExponent base t'' _) as [[[dp' us] rest]|] eqn:Hexp; [|discriminate Hread].
  apply readExponent_takes in Hexp.
  destruct ((underscores st || us) && negb (underscoreOK _)); [discriminate Hread|].
  injection Hread as <-. exact Hexp.
Qed.

Lemma commonPrefixLen_le (s p : string) :
  commonPrefixLenIgnoreCase s p <= String.length s.
Proof.
  revert p. induction s as [|c s IH]; intros [|q p]; cbn; try lia.
  destruct (Ascii.eqb (foldUpper c) q); [|lia]. specialize (IH p). lia.
Qed.

Lemma commonPrefixLen_whole (s p : string) :
  allBytes isLowerLetter p = true ->
  commonPrefixLenIgnoreCase s p = String.length s ->
  allBytes numericByte s = true.
Proof.
  revert p. induction s as [|c s IH]; intros p Hp Hlen; [reflexivity|].
  destruct p as [|q p]; [discriminate Hlen|].
  cbn [commonPrefixLenIgnoreCase String.length] in Hlen.
  cbn [allBytes] in Hp. apply andb_true_iff in Hp as [Hq Hp].
  destruct (Ascii.eqb (foldUpper c) q) eqn:Hc; [|discriminate Hlen].
  apply Ascii.eqb_eq in Hc. subst q. cbn [allBytes].
  rewrite (numericByte_folded c Hq). apply (IH p Hp). lia.
Qed.

Lemma specialInfinity_whole (sign : bool) (nsign : nat) (s : string) (v : float64) (n : nat) :
  specialInfinity sign nsign s = Some (v, n) ->
  n = nsign + String.length s ->
  allBytes numericByte s = true.
Proof.
  unfold specialInfinity. intros Hspecial Hn.
  pose proof (commonPrefixLen_le s "infinity") as Hle.
  set (k := commonPrefixLenIgnoreCase s "infinity") in *.
  destruct ((3 <? k)%nat && (k <? 8)%nat) eqn:Hmid.
  - apply andb_true_iff in Hmid as [H3 _]. apply Nat.ltb_lt in H3.
    cbn in Hspecial. injection Hspecial as _ <-. lia.
  - destruct ((k =? 3)%nat || (k =? 8)%nat); [|discriminate Hspecial].
    injection Hspecial as _ <-.
    apply (commonPrefixLen_whole s "infinity"); [reflexivity|]. fold k. lia.
Qed.

Lemma special_whole (s : string) (v : float64) :
  special s = Some (v, String.length s) -> allBytes numericByte s = true.
Proof.
  unfold special. destruct s as [|c rest]; [discriminate|].
  destruct (Ascii.eqb c "+") eqn:Hplus.
  { apply Ascii.eqb_eq in Hplus. subst c. intros Hs. cbn [allBytes].
    apply (specialInfinity_whole false 1 rest v _ Hs). reflexivity. }
  destruct (Ascii.eqb c "-") eqn:Hminus.
  { apply Ascii.eqb_eq in Hminus. subst c. intros Hs. cbn [allBytes].
    apply (specialInfinity_whole true 1 rest v _ Hs). reflexivity. }
  destruct (Ascii.eqb c "i" || Ascii.eqb c "I").
  { intros Hs. apply (specialInfinity_whole false 0 (String c rest) v _ Hs). reflexivity. }
  destruct (Ascii.eqb c "n" || Ascii.eqb c "N"); [|discriminate].
  destruct (commonPrefixLenIgnoreCase (String c rest) "nan" =? 3)%nat eqn:Hnan;
    [|discriminate].
  apply Nat.eqb_eq in Hnan. intros [= _ Hlen].
  apply (commonPrefixLen_whole (String c rest) "nan"); [reflexivity|].
  rewrite Hnan. cbn [String.length]. now rewrite <- Hlen.
Qed.

(** Whatever [ParseFloat] accepts is made of numeric bytes. *)
Lemma ParseFloat_accepts_numeric (s : string) :
  (ParseFloat s).2 = None -> allBytes numericByte s = true.
Proof.
  unfold ParseFloat.
  destruct (special s) as [[v n]|] eqn:Hspecial.
  - destruct (Nat.eqb_spec n (String.length s)) as [->|Hne]; [|discriminate].
    intros _. now apply (special_whole s v).
  - destruct (readFloat s) as [r|] eqn:Hread; [|discriminate].
    apply readFloat_takes in Hread.
    destruct (readRest r) as [|c rest]; [|discriminate].
    intros _. now apply takesNumeric_all.
Qed.

Lemma parseFails_percent (t : string) : parseFails (t +:+ "%") = true.
Proof.
  unfold parseFails.
  destruct (ParseFloat (t +:+ "%")).2 eqn:Hparse; [reflexivity|].
  apply ParseFloat_accepts_numeric in Hparse.
  rewrite allBytes_append, andb_comm in Hparse. discriminate Hparse.
Qed.

Lemma renderChange_cases (change : string) :
  (parseFails change = true /\ renderChange change = change)
  \/ (parseFails change = false /\ exists t, renderChange change = t +:+ "%").
Proof.
  unfold parseFails, renderChange, MainGo.formatChange.
  destruct (ParseFloat change) as [v [err|]]; cbn [snd fst].
  - now left.
  - right. split; [reflexivity|]. destruct (gtZero v); cbn [fst].
    + exists ("+" +:+ formatF2 v). now rewrite append_assoc.
    + now eexists.
Qed.

(** X24.  A change that [formatChange] has formatted does not parse as a
    number any more, so formatting it again returns it as it is (and logs
    a parse error): on its text, [formatChange] is idempotent. *)
Theorem formatChange_idempotent (change : string) (w w' : World) :
  let once := (MainGo.formatChange change w).1 in
  (MainGo.formatChange once w').1 = once
  /\ (MainGo.formatChange once w').2 = emit (EvLog (LogParsingChangeValue once)) w'.
Proof.
  cbn zeta. rewrite (formatChange_text change w).
  assert (Hfails : parseFails (renderChange change) = true).
  { destruct (renderChange_cases change) as [[Hf Hr]|[_ (t & Hr)]]; rewrite Hr.
    - exact Hf.
    - apply parseFails_percent. }
  split.
  - rewrite formatChange_text.
    destruct (renderChange_cases (renderChange change)) as [[_ Hr]|[Hf _]];
      [exact Hr|congruence].
  - now rewrite formatChange_world, Hfails.
Qed.

(** ** The entries that are served *)

Lemma nonEmpty_false (s : string) : nonEmpty s = false -> s = "".
Proof. now destruct s. Qed.

(** X25.  No entry carries the remote address of its image: the image
    field of every entry is empty (the block had no image address) or the
    local address made of scheme, host, "/images/" and the file name of
    the entry's own name; main.go takes scheme and host from the request,
    part_000 has "http" and "localhost:8080". *)
Theorem image_addresses_are_local `{UnicodeTables} (env : Env) (c : MainGo.Request)
    (prices changes : gmap string string) (w : World) :
  Forall (fun info =>
            Image info = "" \/
            Image info =
              (if MainGo.requestTLS c then "https" else "http") +:+ "://" +:+
              MainGo.requestHost c +:+ "/images/" +:+ imageFilenameOf (Name info))
         (MainGo.visit env c prices changes w).1.2
  /\ Forall (fun info =>
               Image info = "" \/
               Image info = "http://localhost:8080/images/" +:+ imageFilenameOf (Name info))
            (Part000.visit env w).2.
Proof.
  split.
  - unfold MainGo.visit. destruct (rankingPage env) as [containers|]; [|constructor].
    cbn [fst snd]. rewrite fold_onItem_results. cbn [app].
    apply List.Forall_forall. intros info Hin.
    apply in_map_iff in Hin as (div & <- & _). cbn [joinedEntry Image Name].
    destruct (nonEmpty (blockImgSrc div)) eqn:Hsrc; [now right|].
    left. now apply nonEmpty_false.
  - rewrite Part000_visit_results.
    apply List.Forall_forall. intros info Hin.
    apply in_map_iff in Hin as (div & <- & _). cbn [scrapedEntry Image Name].
    destruct (nonEmpty (blockImgSrc div)) eqn:Hsrc; [now right|].
    left. now apply nonEmpty_false.
Qed.

(** X26.  The entries of a refresh cycle copy the page: one entry for
    every item block with a name, in page order, carrying the block's
    index, name, price and change texts as they stand; a block without a
    name gives no entry. *)
Theorem cycle_entries_copy_the_page (env : Env) (w : World) :
  let named := List.filter hasName (pageBlocks env) in
  let allResults := (Part000.visit env w).2 in
  map Index allResults = map blockIndex named
  /\ map Name allResults = map blockName named
  /\ map Price allResults = map blockPrice named
  /\ map Change24h allResults = map blockChange24h named
  /\ Forall (fun info => nonEmpty (Name info) = true) allResults.
Proof.
  cbn zeta. rewrite Part000_visit_results, !map_map. split_and!; try reflexivity.
  apply List.Forall_forall. intros info Hin.
  apply in_map_iff in Hin as (div & <- & Hdiv).
  now apply List.filter_In in Hdiv as [_ Hname].
Qed.

Lemma MainGo_fold_tally `{UnicodeTables} env c prices changes blocks w allResults :
  exists evs,
    trace (fold_left (MainGo.onItem env c prices changes) blocks (w, allResults)).1 =
    trace w ++ evs
    /\ Tally evs (length (List.filter hasName blocks))
         (length (List.filter needsImage blocks)).
Proof.
  revert w allResults. induction blocks as [|div blocks IH]; intros w allResults.
  - exists []. split; [now rewrite app_nil_r|apply Tally_nil].
  - cbn [fold_left List.filter].
    pose proof (MainGo_onItem_world env c prices changes w allResults div) as Hw.
    destruct (MainGo.onItem env c prices changes (w, allResults) div) as [w1 results].
    cbn [fst] in Hw.
    destruct (item_tally env div w) as (evs1 & H1 & T1). rewrite <- Hw in H1.
    destruct (IH w1 results) as (evs2 & H2 & T2).
    exists (evs1 ++ evs2). split; [now rewrite H2, H1, app_assoc|].
    pose proof (Tally_app _ _ _ _ _ _ T1 T2) as T.
    destruct (hasName div), (needsImage div); exact T.
Qed.

(** X27.  A request to main.go makes at most two fetches from the price
    API and one image fetch for every named item block with an image
    address, none of them while the mutex is held. *)
Theorem request_fetch_bound `{UnicodeTables} (env : Env) (c : MainGo.Request) (w : World) :
  exists evs,
    trace (MainGo.handleRequest env c w).1 = trace w ++ evs
    /\ httpGets evs <= 2 + length (List.filter needsImage (pageBlocks env))
    /\ fetchesUnderLock false evs = 0.
Proof.
  unfold MainGo.handleRequest.
  assert (Hprices : exists evs0,
    trace (MainGo.getPricesAndChanges env w).2 = trace w ++ evs0 /\ Tally evs0 0 2).
  { unfold MainGo.getPricesAndChanges.
    destruct (priceApi env) as [| |priceData].
    - exists (EvHttpGet MainGo.priceURL :: map EvLog [LogFetchingPrices]). split.
      + cbn [snd]. now rewrite !emit_trace, <- app_assoc.
      + apply (Tally_weaken _ 0 1 2); [lia|apply Tally_fetch].
    - exists (EvHttpGet MainGo.priceURL :: map EvLog [LogDecodingPriceData]). split.
      + cbn [snd]. now rewrite !emit_trace, <- app_assoc.
      + apply (Tally_weaken _ 0 1 2); [lia|apply Tally_fetch].
    - destruct (tickerApi env) as [| |changeData].
      + exists ((EvHttpGet MainGo.priceURL :: map EvLog []) ++
                (EvHttpGet MainGo.tickerURL :: map EvLog [LogFetching24hChange])). split.
        * cbn [snd]. now rewrite !emit_trace, <- !app_assoc.
        * apply (Tally_app _ _ 0 0 1 1); apply Tally_fetch.
      + exists ((EvHttpGet MainGo.priceURL :: map EvLog []) ++
                (EvHttpGet MainGo.tickerURL :: map EvLog [LogDecodingChangeData])). split.
        * cbn [snd]. now rewrite !emit_trace, <- !app_assoc.
        * apply (Tally_app _ _ 0 0 1 1); apply Tally_fetch.
      + set (w2 := emit (EvHttpGet MainGo.tickerURL) (emit (EvHttpGet MainGo.priceURL) w)).
        pose proof (fillChanges_world changeData ∅ w2) as Hworld.
        destruct (MainGo.fillChanges changeData ∅ w2) as [changes w3].
        cbn [snd] in *. subst w3. cbn [trace].
        exists ((EvHttpGet MainGo.priceURL :: map EvLog []) ++
                (EvHttpGet MainGo.tickerURL ::
                 map EvLog (map LogParsingChangeValue
                   (List.filter parseFails (map tickerPriceChangePercent changeData))))).
        split.
        * unfold w2. rewrite !emit_trace, <- !app_assoc, map_map. reflexivity.
        * apply (Tally_app _ _ 0 0 1 1); apply Tally_fetch. }
  destruct Hprices as (evs0 & H0 & T0).
  destruct (MainGo.getPricesAndChanges env w) as [[prices changes] w1]. cbn [snd] in H0.
  unfold MainGo.visit, pageBlocks. destruct (rankingPage env) as [containers|].
  - destruct (MainGo_fold_tally env c prices changes (concat containers) w1 [])
      as (evs1 & H1 & T1).
    destruct (fold_left _ _ _) as [w2 allResults]. cbn [fst] in H1.
    destruct (Tally_app _ _ _ _ _ _ T0 T1) as [A B C D E F].
    exists (evs0 ++ evs1).
    destruct (categorizedLiteral (categorizeResults allResults)); cbn [fst];
      (split; [now rewrite H1, H0, app_assoc|split; [exact F|exact B]]).
  - pose proof (Tally_app _ _ _ _ _ _ T0 (Tally_logs [LogRequestFailed; LogFatalVisit]))
      as [A B C D E F].
    exists (evs0 ++ map EvLog [LogRequestFailed; LogFatalVisit]). cbn [fst].
    split; [rewrite !emit_trace, H0, <- !app_assoc; reflexivity|].
    split; [cbn [List.filter concat length]; lia|exact B].
Qed.

(** ** The further properties at concrete inputs *)

Section FurtherInputs.
#[local] Existing Instance noUnicodeTables.

(** Five entries after ten: the first bucket stays, a second one opens. *)
Lemma categorizeResults_after_full_buckets_witness :
  length (seq 0 10) = 10 * 1
  /\ categorizeResults (seq 0 10 ++ seq 10 5) =
     categorizeResults (seq 0 10) ++ categorizeResults (seq 10 5).
Proof.
  assert (Hlen : length (seq 0 10) = 10 * 1) by reflexivity.
  split; [exact Hlen|].
  exact (categorizeResults_after_full_buckets (seq 0 10) (seq 10 5) 1 Hlen).
Defined.

(** Five buckets: the map is built from the first four. *)
Lemma categorizedLiteral_first_four_witness :
  4 <= length (categorizeResults (map (fun i => scrapedEntry (sampleBlock i)) (seq 0 45)))
  /\ exists body,
       categorizedLiteral
         (categorizeResults (map (fun i => scrapedEntry (sampleBlock i)) (seq 0 45))) =
       Returned body
       /\ dom body = list_to_set categoryLabels.
Proof.
  assert (Hlen : 4 <= length (categorizeResults
                                (map (fun i => scrapedEntry (sampleBlock i)) (seq 0 45))))
    by (vm_compute; lia).
  split; [exact Hlen|].
  destruct (proj1 (categorizedLiteral_first_four _) Hlen) as (body & Hbody & Hdom & _).
  exists body. split; [exact Hbody|exact Hdom].
Defined.

(** Thirty-five entries: the fourth bucket holds the last five. *)
Lemma categorized_map_buckets_witness :
  31 <= length (map (fun i => scrapedEntry (sampleBlock i)) (seq 0 35))
  /\ exists body,
       categorizedLiteral
         (categorizeResults (map (fun i => scrapedEntry (sampleBlock i)) (seq 0 35))) =
       Returned body
       /\ body !! "MayorVolumen" =
          Some (take 10 (drop 30 (map (fun i => scrapedEntry (sampleBlock i)) (seq 0 35)))).
Proof.
  assert (Hlen : 31 <= length (map (fun i => scrapedEntry (sampleBlock i)) (seq 0 35)))
    by (vm_compute; lia).
  split; [exact Hlen|].
  destruct (categorized_map_buckets _ Hlen) as (body & Hbody & _ & _ & _ & Hlast).
  exists body. split; [exact Hbody|exact Hlast].
Defined.

(** Twenty-five named blocks: the handler panics on the fourth bucket. *)
Lemma handleRequest_outcome_witness :
  length (List.filter hasName (concat [map sampleBlock (seq 0 25)])) < 31
  /\ (MainGo.handleRequest (sampleEnv 25) sampleRequest emptyWorld).2 =
     MainGo.HandlerPanic (IndexOutOfRange 3 3).
Proof.
  assert (Hlen : length (List.filter hasName (concat [map sampleBlock (seq 0 25)])) < 31)
    by (vm_compute; lia).
  split; [exact Hlen|].
  exact (proj1 (handleRequest_outcome (sampleEnv 25) sampleRequest emptyWorld) Hlen).
Defined.

(** "BTCUSDT" is listed at "1" and then at "3": the map holds "3". *)
Lemma prices_last_item_wins_witness :
  priceApi (marketEnv GetFailed) = Decoded listedPrices
  /\ (MainGo.getPricesAndChanges (marketEnv GetFailed) emptyWorld).1.1 !! "BTCUSDT" =
     Some "3".
Proof.
  assert (Hprices : priceApi (marketEnv GetFailed) = Decoded listedPrices) by reflexivity.
  split; [exact Hprices|].
  refine (proj2 (proj2 (prices_last_item_wins (marketEnv GetFailed) emptyWorld
                          listedPrices Hprices))
            [mkBinancePriceInfo "BTCUSDT" "1"; mkBinancePriceInfo "ETHUSDT" "2"]
            (mkBinancePriceInfo "BTCUSDT" "3") [] eq_refl _).
  intros it' [].
Defined.

(** "3.5" is bound formatted, "abc" is logged. *)
Lemma changes_are_formatted_witness :
  priceApi (marketEnv (Decoded listedTickers)) = Decoded listedPrices
  /\ tickerApi (marketEnv (Decoded listedTickers)) = Decoded listedTickers
  /\ (MainGo.getPricesAndChanges (marketEnv (Decoded listedTickers)) emptyWorld).1.2
       !! "BTCUSDT" = Some "+3.50%"
  /\ trace (MainGo.getPricesAndChanges (marketEnv (Decoded listedTickers)) emptyWorld).2 =
     [EvHttpGet MainGo.priceURL; EvHttpGet MainGo.tickerURL;
      EvLog (LogParsingChangeValue "abc")].
Proof.
  assert (Hprices : priceApi (marketEnv (Decoded listedTickers)) = Decoded listedPrices)
    by reflexivity.
  assert (Htickers : tickerApi (marketEnv (Decoded listedTickers)) = Decoded listedTickers)
    by reflexivity.
  split; [exact Hprices|]. split; [exact Htickers|].
  destruct (changes_are_formatted (marketEnv (Decoded listedTickers)) emptyWorld
              listedPrices listedTickers Hprices Htickers) as (_ & Hlast & _ & Htrace).
  split.
  - refine (Hlast [] (mkBinanceTickerInfo "BTCUSDT" "3.5")
              [mkBinanceTickerInfo "ETHUSDT" "abc"] eq_refl _).
    intros it' [<-|[]]. discriminate.
  - exact Htrace.
Defined.

(** The 24h endpoint is unreachable: three prices in, no change. *)
Lemma ticker_failure_returns_prices_witness :
  priceApi (marketEnv GetFailed) = Decoded listedPrices
  /\ (tickerApi (marketEnv GetFailed) = GetFailed
      \/ tickerApi (marketEnv GetFailed) = DecodeFailed)
  /\ (MainGo.getPricesAndChanges (marketEnv GetFailed) emptyWorld).1 =
     (MainGo.fillPrices listedPrices ∅, ∅).
Proof.
  assert (Hprices : priceApi (marketEnv GetFailed) = Decoded listedPrices) by reflexivity.
  assert (Htickers : tickerApi (marketEnv GetFailed) = GetFailed
                     \/ tickerApi (marketEnv GetFailed) = DecodeFailed)
    by (left; reflexivity).
  split; [exact Hprices|]. split; [exact Htickers|].
  exact (proj1 (ticker_failure_returns_prices (marketEnv GetFailed) emptyWorld
                  listedPrices Hprices Htickers)).
Defined.

(** The block named "Btc" is joined to the last price of "BTCUSDT". *)
Lemma entry_price_from_api_witness :
  priceApi (marketEnv GetFailed) = Decoded listedPrices
  /\ rankingPage (marketEnv GetFailed) = listedPage
  /\ In listedBlock (concat [[listedBlock; mkBlock "2" "" "" "" ""]])
  /\ nonEmpty (blockName listedBlock) = true
  /\ Price (joinedEntry sampleRequest
              (MainGo.getPricesAndChanges (marketEnv GetFailed) emptyWorld).1.1
              (MainGo.getPricesAndChanges (marketEnv GetFailed) emptyWorld).1.2
              listedBlock) = "3".
Proof.
  assert (Hprices : priceApi (marketEnv GetFailed) = Decoded listedPrices) by reflexivity.
  assert (Hpage : rankingPage (marketEnv GetFailed) =
                  VisitOk [[listedBlock; mkBlock "2" "" "" "" ""]]) by reflexivity.
  assert (Hin : In listedBlock (concat [[listedBlock; mkBlock "2" "" "" "" ""]]))
    by (left; reflexivity).
  assert (Hname : nonEmpty (blockName listedBlock) = true) by reflexivity.
  split; [exact Hprices|]. split; [exact Hpage|]. split; [exact Hin|].
  split; [exact Hname|].
  refine (proj2 (proj2 (proj2 (entry_price_from_api (marketEnv GetFailed) sampleRequest
                                 emptyWorld listedPrices _ listedBlock
                                 Hprices Hpage Hin Hname)))
            [mkBinancePriceInfo "BTCUSDT" "1"; mkBinancePriceInfo "ETHUSDT" "2"]
            (mkBinancePriceInfo "BTCUSDT" "3") [] eq_refl eq_refl _).
  intros it' [].
Defined.


(** The stored image of "Btc" outlives a cycle and a request. *)
Lemma cached_images_are_kept_witness :
  imageExists cachedWorld "Btc.jpg" = true
  /\ imageExists (Part000.updateDataRegularly [imagesDown (marketEnv GetFailed)] None
                    cachedWorld).1 "Btc.jpg" = true
  /\ imageExists (MainGo.handleRequest (marketEnv GetFailed) sampleRequest
                    cachedWorld).1 "Btc.jpg" = true.
Proof.
  assert (Hfile : imageExists cachedWorld "Btc.jpg" = true) by reflexivity.
  split; [exact Hfile|].
  destruct (cached_images_are_kept "Btc.jpg" cachedWorld Hfile) as [Hcycles Hrequest].
  split; [apply Hcycles|apply Hrequest].
Defined.

(** One named block with an image: one critical section, at most one
    fetch. *)
Lemma cycle_locks_and_fetches_witness :
  rankingPage (marketEnv GetFailed) = listedPage
  /\ exists evs,
       trace (Part000.visit (marketEnv GetFailed) emptyWorld).1 = [] ++ evs
       /\ length (List.filter isMutexLock evs) = 1
       /\ fetchesUnderLock false evs = 0
       /\ httpGets evs <= 1.
Proof.
  assert (Hpage : rankingPage (marketEnv GetFailed) =
                  VisitOk [[listedBlock; mkBlock "2" "" "" "" ""]]) by reflexivity.
  split; [exact Hpage|].
  destruct (cycle_locks_and_fetches (marketEnv GetFailed) emptyWorld _ Hpage)
    as (evs & Htrace & Hlocks & _ & _ & Hunder & Hgets).
  exists evs. split; [exact Htrace|]. split; [exact Hlocks|].
  split; [exact Hunder|exact Hgets].
Defined.

(** The same page with the image hosts up and down, from different
    worlds. *)
Lemma cycle_result_from_page_witness :
  rankingPage (marketEnv GetFailed) = rankingPage (imagesDown (marketEnv GetFailed))
  /\ (Part000.updateDataFromBinance (marketEnv GetFailed) None emptyWorld).2 =
     (Part000.updateDataFromBinance (imagesDown (marketEnv GetFailed)) None cachedWorld).2.
Proof.
  assert (Hpage : rankingPage (marketEnv GetFailed) =
                  rankingPage (imagesDown (marketEnv GetFailed))) by reflexivity.
  split; [exact Hpage|].
  exact (cycle_result_from_page (marketEnv GetFailed) (imagesDown (marketEnv GetFailed))
           None None emptyWorld cachedWorld Hpage).
Defined.

(** The image host of "Btc" is unreachable. *)
Lemma image_address_without_file_witness :
  nonEmpty (blockName listedBlock) = true
  /\ nonEmpty (blockImgSrc listedBlock) = true
  /\ imageExists emptyWorld (imageFilenameOf (blockName listedBlock)) = false
  /\ downloadCreatesFile (imagesDown (marketEnv GetFailed)) (blockImgSrc listedBlock)
       (imageFilenameOf (blockName listedBlock)) = false
  /\ exists info,
       (Part000.onItem (imagesDown (marketEnv GetFailed)) (emptyWorld, []) listedBlock).2 =
       [] ++ [info]
       /\ Image info =
          "http://localhost:8080/images/" +:+ imageFilenameOf (blockName listedBlock)
       /\ imageExists
            (Part000.onItem (imagesDown (marketEnv GetFailed)) (emptyWorld, [])
               listedBlock).1
            (imageFilenameOf (blockName listedBlock)) = false.
Proof.
  assert (Hname : nonEmpty (blockName listedBlock) = true) by reflexivity.
  assert (Hsrc : nonEmpty (blockImgSrc listedBlock) = true) by reflexivity.
  assert (Hnew : imageExists emptyWorld (imageFilenameOf (blockName listedBlock)) = false)
    by reflexivity.
  assert (Hfail : downloadCreatesFile (imagesDown (marketEnv GetFailed))
                    (blockImgSrc listedBlock)
                    (imageFilenameOf (blockName listedBlock)) = false) by reflexivity.
  split; [exact Hname|]. split; [exact Hsrc|]. split; [exact Hnew|].
  split; [exact Hfail|].
  exact (image_address_without_file (imagesDown (marketEnv GetFailed)) emptyWorld []
           listedBlock Hname Hsrc Hnew Hfail).
Defined.

(** The image of "Btc" is stored: the cycle fetches nothing. *)
Lemma warm_cycle_fetches_nothing_witness :
  (forall div, In div (pageBlocks (marketEnv GetFailed)) -> needsImage div = true ->
     imageExists cachedWorld (imageFilenameOf (blockName div)) = true)
  /\ httpGets (trace (Part000.updateDataFromBinance (marketEnv GetFailed) None
                        cachedWorld).1) = httpGets (trace cachedWorld).
Proof.
  assert (Hwarm : forall div, In div (pageBlocks (marketEnv GetFailed)) ->
                    needsImage div = true ->
                    imageExists cachedWorld (imageFilenameOf (blockName div)) = true).
  { intros div [<-|[<-|[]]] Hneeds; [reflexivity|discriminate Hneeds]. }
  split; [exact Hwarm|].
  exact (proj2 (warm_cycle_fetches_nothing (marketEnv GetFailed) None cachedWorld Hwarm)).
Defined.


(** A page of thirty-one named blocks keeps the process running; the page
    of [marketEnv] after it ends the process. *)
Lemma process_survives_full_pages_witness :
  Forall (fun env => 31 <= length (List.filter hasName (pageBlocks env))) [sampleEnv 31]
  /\ (exists s, (Part000.updateDataRegularly [sampleEnv 31] None emptyWorld).2 =
                Part000.Running s)
  /\ length (List.filter hasName (pageBlocks (marketEnv GetFailed))) < 31
  /\ exists p, (Part000.updateDataRegularly
                  [sampleEnv 31; marketEnv GetFailed; sampleEnv 31] None emptyWorld).2 =
               Part000.Crashed p.
Proof.
  assert (Hfull : Forall (fun env => 31 <= length (List.filter hasName (pageBlocks env)))
                    [sampleEnv 31]).
  { constructor; [vm_compute; lia|constructor]. }
  assert (Hshort : length (List.filter hasName (pageBlocks (marketEnv GetFailed))) < 31)
    by (vm_compute; lia).
  split; [exact Hfull|].
  split; [exact (proj1 (process_survives_full_pages [sampleEnv 31] None emptyWorld) Hfull)|].
  split; [exact Hshort|].
  exact (proj1 (proj1 (proj2 (process_survives_full_pages
                                [sampleEnv 31; marketEnv GetFailed; sampleEnv 31]
                                None emptyWorld))
                  [sampleEnv 31] (marketEnv GetFailed) [sampleEnv 31] eq_refl
                  Hfull Hshort)).
Defined.

(** "bTC" and "Btc" have the symbol "BTCUSDT". *)
Lemma symbol_ignores_ascii_case_witness :
  allBytes belowRuneSelf "Btc" = true
  /\ allBytes belowRuneSelf "bTC" = true
  /\ mapBytes upperByte "bTC" = mapBytes upperByte "Btc"
  /\ symbolOf "bTC" = symbolOf "Btc".
Proof.
  assert (Hascii : allBytes belowRuneSelf "Btc" = true) by reflexivity.
  assert (Hascii' : allBytes belowRuneSelf "bTC" = true) by reflexivity.
  assert (Hsame : mapBytes upperByte "bTC" = mapBytes upperByte "Btc") by reflexivity.
  split; [exact Hascii|]. split; [exact Hascii'|]. split; [exact Hsame|].
  exact (proj1 (proj2 (proj2 (proj2 (proj2
           (symbol_ignores_ascii_case "Btc" ∅ Hascii)))) "bTC" Hascii' Hsame)).
Defined.

(** "Shiba Inu" and "Shiba_Inu" share the file "Shiba_Inu.jpg". *)
Lemma image_file_names_witness :
  anyByte isSpace "Bitcoin" = false
  /\ imageFilenameOf "Bitcoin" = "Bitcoin" +:+ ".jpg"
  /\ imageFilenameOf (ReplaceAllSpaces "Shiba Inu") = imageFilenameOf "Shiba Inu".
Proof.
  assert (Hplain : anyByte isSpace "Bitcoin" = false) by reflexivity.
  split; [exact Hplain|].
  split; [exact (proj1 (proj2 (image_file_names "Bitcoin")) Hplain)|].
  exact (proj1 (proj2 (proj2 (proj2 (image_file_names "Shiba Inu"))))).
Defined.

End FurtherInputs.
